(** * Lead intake and lifecycle: a shallow embedding of the Netlify functions

    The development follows the four source files of the repository:
    [_utils.js] (module [Utils]), [leads-create.js] (module [LeadsCreate]),
    [leads-list.js] (module [LeadsList]) and [leads-update.js] (module
    [LeadsUpdate]).  Module [JS] holds the part of the JavaScript run time
    the functions rely on: strings as sequences of UTF-16 code units, JSON
    values, numbers, dates and arrays. *)

From Stdlib Require Import ZArith NArith QArith Qround Lia Ascii String DecimalString.
From stdpp Require Import gmap strings list sorting.

Set Default Proof Using "Type".
Set Warnings "-register-all".

(** A JavaScript string is its sequence of UTF-16 code units; [length] is
    the [.length] of the source. *)
Abbreviation jsstring := (list N).

(* ===================================================================== *)
(** ** The JavaScript run time *)
(* ===================================================================== *)
Module JS.

(** String literals of the source, written in ASCII. *)
Definition lit (s : string) : jsstring :=
  map N_of_ascii (String.list_ascii_of_string s).

(** Exceptions: a [TypeError] raised by the run time, or [new Error(msg)]. *)
Inductive jserror :=
| TypeError
| Error (msg : jsstring).

Inductive result (A : Type) :=
| Ok (a : A)
| Throw (e : jserror).
Arguments Ok {A} a.
Arguments Throw {A} e.

#[global] Instance result_ret : MRet result := fun _ a => Ok a.
#[global] Instance result_bind : MBind result := fun _ _ f m =>
  match m with Ok a => f a | Throw e => Throw e end.

(** *** Strings *)

(** [WhiteSpace] and [LineTerminator] of ECMAScript, the characters
    [String.prototype.trim] removes: TAB, LF, VT, FF, CR, SP, NBSP, U+1680,
    U+2000..U+200A, U+2028, U+2029, U+202F, U+205F, U+3000, U+FEFF. *)
Definition isWhiteSpace (c : N) : bool :=
  ((9 <=? c) && (c <=? 13) || (c =? 32) || (c =? 160) || (c =? 5760)
   || (8192 <=? c) && (c <=? 8202) || (c =? 8232) || (c =? 8233)
   || (c =? 8239) || (c =? 8287) || (c =? 12288) || (c =? 65279))%N.

Fixpoint trimStart (s : jsstring) : jsstring :=
  match s with
  | c :: s' => if isWhiteSpace c then trimStart s' else s
  | [] => []
  end.

Definition trimEnd (s : jsstring) : jsstring := rev (trimStart (rev s)).

Definition trim (s : jsstring) : jsstring := trimEnd (trimStart s).

(** [\d] of a regular expression without the unicode flag: [0-9]. *)
Definition isDigit (c : N) : bool := ((48 <=? c) && (c <=? 57))%N.

Definition isUpper (c : N) : bool := ((65 <=? c) && (c <=? 90))%N.
Definition isLower (c : N) : bool := ((97 <=? c) && (c <=? 122))%N.
Definition isHexDigit (c : N) : bool :=
  (isDigit c || (65 <=? c) && (c <=? 70) || (97 <=? c) && (c <=? 102))%N.

(** [String.prototype.toLowerCase], on Basic Latin and Latin-1: A..Z and
    U+00C0..U+00DE (but the multiplication sign U+00D7) move down by 32.
    Code units above U+00FF are left as they are, where the language
    lowers some of them (U+212A to k, U+0160 to U+0161, U+0130 to two
    code units): the function is modelled exactly on text in Latin-1
    only, and what is stated about the letter case of a text is stated
    for text in Latin-1 ([latin1] below). *)
Definition lowerUnit (c : N) : N :=
  (if isUpper c || (192 <=? c) && (c <=? 222) && negb (c =? 215)
   then c + 32 else c)%N.

Definition toLowerCase (s : jsstring) : jsstring := map lowerUnit s.

Fixpoint startsWith (p s : jsstring) : bool :=
  match p, s with
  | [], _ => true
  | a :: p', b :: s' => (a =? b)%N && startsWith p' s'
  | _ :: _, [] => false
  end.

(** [s.includes(q)]: [q] occurs in [s] as a contiguous run. *)
Fixpoint includes (s q : jsstring) : bool :=
  startsWith q s || match s with [] => false | _ :: s' => includes s' q end.

(** The relational comparison of two strings: code unit by code unit, a
    proper prefix before its extensions. *)
Fixpoint str_ltb (a b : jsstring) : bool :=
  match a, b with
  | _, [] => false
  | [], _ :: _ => true
  | x :: a', y :: b' => (x <? y)%N || (x =? y)%N && str_ltb a' b'
  end.

Definition str_gtb (a b : jsstring) : bool := str_ltb b a.

Definition str_eqb (a b : jsstring) : bool := bool_decide (a = b).

(** [parts.join(sep)] on strings. *)
Fixpoint join (sep : jsstring) (parts : list jsstring) : jsstring :=
  match parts with
  | [] => []
  | [p] => p
  | p :: rest => p ++ sep ++ join sep rest
  end.

(** [s.split(sep)] for a separator of one code unit. *)
Fixpoint split (sep : N) (s : jsstring) : list jsstring :=
  match s with
  | [] => [[]]
  | c :: s' =>
      if (c =? sep)%N then [] :: split sep s'
      else match split sep s' with
           | p :: ps => (c :: p) :: ps
           | [] => [[c]]
           end
  end.

(** Decimal digits of a natural number, most significant first. *)
Definition digitsN (n : N) : jsstring :=
  lit (NilEmpty.string_of_uint (N.to_uint n)).

(** *** JSON values

    What [JSON.parse] builds, and [undefined] for an absent property.  A
    number is an integer below 10^21 in magnitude, the range in which
    [String] prints plain decimal digits.  An object is its list of own
    properties; a property is read at its first entry. *)
Inductive value :=
| VUndefined
| VNull
| VBool (b : bool)
| VNum (n : Z)
| VStr (s : jsstring)
| VArr (items : list value)
| VObj (props : list (jsstring * value)).

Definition lookup_prop (k : jsstring) (props : list (jsstring * value)) : option value :=
  snd <$> List.find (fun p => str_eqb (fst p) k) props.

(** [o.k] for the property names the functions read: an own property of
    an object, the [length] of an array, [undefined] otherwise. *)
Definition get (o : value) (k : jsstring) : value :=
  match o with
  | VObj props => default VUndefined (lookup_prop k props)
  | VArr items =>
      if str_eqb k (lit "length") then VNum (Z.of_nat (length items)) else VUndefined
  | _ => VUndefined
  end.

(** [Boolean(v)]. *)
Definition truthy (v : value) : bool :=
  match v with
  | VUndefined | VNull => false
  | VBool b => b
  | VNum n => negb (n =? 0)%Z
  | VStr s => match s with [] => false | _ => true end
  | VArr _ | VObj _ => true
  end.

(** [a || b] on values. *)
Definition or_else (a b : value) : value := if truthy a then a else b.

(** [v == null]. *)
Definition nullish (v : value) : bool :=
  match v with VUndefined | VNull => true | _ => false end.

(** [typeof v === "object"]; [null] is one. *)
Definition typeof_object (v : value) : bool :=
  match v with VNull | VArr _ | VObj _ => true | _ => false end.

Definition isArray (v : value) : bool :=
  match v with VArr _ => true | _ => false end.

Definition numberToString (n : Z) : jsstring :=
  match n with
  | Z0 => lit "0"
  | Zpos p => digitsN (Npos p)
  | Zneg p => lit "-" ++ digitsN (Npos p)
  end.

(** [String(v)].  An array joins its elements with commas, [null] and
    [undefined] elements as empty text.  An object of [JSON.parse] prints
    through [Object.prototype.toString], unless it has an own property
    [toString]: that one is no function, [valueOf] yields no primitive,
    and the conversion throws a [TypeError]. *)
Fixpoint ToString (v : value) : result jsstring :=
  match v with
  | VUndefined => Ok (lit "undefined")
  | VNull => Ok (lit "null")
  | VBool b => Ok (if b then lit "true" else lit "false")
  | VNum n => Ok (numberToString n)
  | VStr s => Ok s
  | VArr items =>
      (fix elems (l : list value) : result jsstring :=
         match l with
         | [] => Ok []
         | x :: rest =>
             s ← (if nullish x then Ok [] else ToString x);
             match rest with
             | [] => Ok s
             | _ :: _ => r ← elems rest; Ok (s ++ lit "," ++ r)
             end
         end) items
  | VObj props =>
      match lookup_prop (lit "toString") props with
      | Some _ => Throw TypeError
      | None => Ok (lit "[object Object]")
      end
  end.

(** *** Numbers

    A Number is [NaN], an infinity or a finite value.  Finite values are
    kept as exact rationals: they are not rounded to a double and never
    overflow to an infinity, so the model is the language on the whole
    numbers up to 2^53 and differs from it where a literal or a sum is
    rounded ([1e400] is [Infinity] in the language, 0.9999999999999999 +
    200 is 201).  What is stated about the value of a literal or of a
    sum is stated for whole numbers, or where the rounding cannot change
    the comparison that is made.  The constants that numbers are
    compared with (0, 1, 200, 10000) are integers, and the sign of zero
    is never observed. *)
Inductive number :=
| NaN
| PInf
| NInf
| Fin (q : Q).

Definition ofZ (z : Z) : number := Fin (inject_Z z).

Definition num_ltb (a b : number) : bool :=
  match a, b with
  | NaN, _ | _, NaN => false
  | _, NInf | PInf, _ => false
  | NInf, _ | _, PInf => true
  | Fin x, Fin y => negb (Qle_bool y x)
  end.

(** [Math.max(a, b)] and [Math.min(a, b)]: [NaN] if an argument is. *)
Definition Math_max (a b : number) : number :=
  match a, b with
  | NaN, _ | _, NaN => NaN
  | _, _ => if num_ltb a b then b else a
  end.

Definition Math_min (a b : number) : number :=
  match a, b with
  | NaN, _ | _, NaN => NaN
  | _, _ => if num_ltb b a then b else a
  end.

(** [a + b]. *)
Definition num_add (a b : number) : number :=
  match a, b with
  | NaN, _ | _, NaN => NaN
  | PInf, NInf | NInf, PInf => NaN
  | PInf, _ | _, PInf => PInf
  | NInf, _ | _, NInf => NInf
  | Fin x, Fin y => Fin (Qred (x + y))
  end.

Definition isFinite (a : number) : bool :=
  match a with Fin _ => true | _ => false end.

(** The longest prefix of [s] made of characters in [p], and the rest. *)
Fixpoint span (p : N -> bool) (s : jsstring) : jsstring * jsstring :=
  match s with
  | c :: s' =>
      if p c then let '(a, b) := span p s' in (c :: a, b) else ([], s)
  | [] => ([], [])
  end.

Definition digitValue (c : N) : Z :=
  Z.of_N (if isDigit c then c - 48
          else if isUpper c then c - 55
          else c - 87)%N.

Definition digitsValue (base : Z) (ds : jsstring) : Z :=
  fold_left (fun acc c => acc * base + digitValue c)%Z ds 0%Z.

(** [m * 10^e] as a number. *)
Definition scale10 (m e : Z) : number :=
  Fin (Qred (if (0 <=? e)%Z then inject_Z (m * 10 ^ e)
             else Qmake m (Z.to_pos (10 ^ (- e))))).

(** The [ExponentPart] of a decimal literal that ends the text. *)
Definition exponentPart (s : jsstring) : option Z :=
  match s with
  | [] => Some 0%Z
  | c :: r =>
      if ((c =? 101) || (c =? 69))%N then
        let '(neg, r') :=
          match r with
          | 45%N :: r' => (true, r')
          | 43%N :: r' => (false, r')
          | _ => (false, r)
          end in
        let '(ds, rest) := span isDigit r' in
        match ds, rest with
        | _ :: _, [] =>
            Some (if neg then - digitsValue 10 ds else digitsValue 10 ds)%Z
        | _, _ => None
        end
      else None
  end.

(** [StrUnsignedDecimalLiteral]: [Infinity], or digits with an optional
    fraction and exponent, one digit at least. *)
Definition unsignedDecimal (neg : bool) (s : jsstring) : number :=
  if str_eqb s (lit "Infinity") then (if neg then NInf else PInf)
  else
    let '(ip, r1) := span isDigit s in
    let '(fp, r2) :=
      match r1 with
      | 46%N :: r => span isDigit r
      | _ => ([], r1)
      end in
    match ip ++ fp with
    | [] => NaN
    | _ :: _ =>
        match exponentPart r2 with
        | Some e =>
            let m := digitsValue 10 (ip ++ fp) in
            scale10 (if neg then - m else m)%Z (e - Z.of_nat (length fp))%Z
        | None => NaN
        end
    end.

Definition radixLiteral (base : Z) (ok : N -> bool) (ds : jsstring) : number :=
  match ds with
  | [] => NaN
  | _ :: _ => if forallb ok ds then ofZ (digitsValue base ds) else NaN
  end.

(** [Number(s)] on a string ([StringToNumber]): white space is trimmed,
    the empty text is 0, then a hex, octal or binary integer or a signed
    decimal literal; any other text is [NaN]. *)
Definition Number (s : jsstring) : number :=
  match trim s with
  | [] => ofZ 0
  | 48%N :: x :: ds =>
      if ((x =? 120) || (x =? 88))%N then radixLiteral 16 isHexDigit ds
      else if ((x =? 111) || (x =? 79))%N then
             radixLiteral 8 (fun c => (48 <=? c) && (c <=? 55))%N ds
      else if ((x =? 98) || (x =? 66))%N then
             radixLiteral 2 (fun c => (48 <=? c) && (c <=? 49))%N ds
      else unsignedDecimal false (48%N :: x :: ds)
  | 45%N :: r => unsignedDecimal true r
  | 43%N :: r => unsignedDecimal false r
  | r => unsignedDecimal false r
  end.

(** [ToIntegerOrInfinity]: truncation towards zero, [NaN] as 0. *)
Inductive extint :=
| MinusInf
| PlusInf
| Int (z : Z).

Definition ToIntegerOrInfinity (a : number) : extint :=
  match a with
  | NaN => Int 0
  | PInf => PlusInf
  | NInf => MinusInf
  | Fin q => Int (Z.quot (Qnum q) (Zpos (Qden q)))
  end.

(** An index argument of [slice], clamped into [0 .. len]. *)
Definition relativeIndex (len : nat) (a : number) : nat :=
  match ToIntegerOrInfinity a with
  | MinusInf => 0
  | PlusInf => len
  | Int z =>
      if (z <? 0)%Z then Z.to_nat (Z.max (Z.of_nat len + z) 0)
      else Nat.min (Z.to_nat z) len
  end.

(** [arr.slice(start, end)]. *)
Definition slice {A} (arr : list A) (start stop : number) : list A :=
  let k := relativeIndex (length arr) start in
  let final := relativeIndex (length arr) stop in
  take (final - k) (drop k arr).

(** [arr.sort(cmp)] by insertion: an element goes before the first one
    it does not compare greater than.  With a comparator that orders the
    elements consistently every sorting method returns this list. *)
Fixpoint sort_insert {A} (cmp : A -> A -> Z) (x : A) (l : list A) : list A :=
  match l with
  | [] => [x]
  | y :: l' => if (0 <? cmp x y)%Z then y :: sort_insert cmp x l' else x :: l
  end.

Definition sort {A} (cmp : A -> A -> Z) (l : list A) : list A :=
  foldr (sort_insert cmp) [] l.

(** *** Dates

    A [Date] is its time value, the milliseconds since the epoch. *)
Definition msPerDay : Z := 86400000.

(** The civil date of a day in an era of 400 years that starts on a
    first of March: year of the era (January and February count with the
    year that follows), month, day. *)
Definition civil_of_doe (doe : Z) : Z * Z * Z :=
  let yoe := ((doe - doe / 1460 + doe / 36524 - doe / 146096) / 365)%Z in
  let doy := (doe - (365 * yoe + yoe / 4 - yoe / 100))%Z in
  let mp := ((5 * doy + 2) / 153)%Z in
  let d := (doy - (153 * mp + 2) / 5 + 1)%Z in
  let m := (if mp <? 10 then mp + 3 else mp - 9)%Z in
  ((yoe + (if m <=? 2 then 1 else 0))%Z, m, d).

(** The civil date of a day number (days since 1970-01-01) in the
    proleptic Gregorian calendar: year, month, day. *)
Definition civil_from_days (z : Z) : Z * Z * Z :=
  let z := (z + 719468)%Z in
  let '(y, m, d) := civil_of_doe (z mod 146097) in
  ((y + 400 * (z / 146097))%Z, m, d).

(** [String(n).padStart(w, "0")] for a natural number. *)
Definition pad (w : nat) (n : Z) : jsstring :=
  let ds := digitsN (Z.to_N n) in
  replicate (w - length ds) 48%N ++ ds.

(** [Date.prototype.toISOString]: [YYYY-MM-DDTHH:mm:ss.sssZ], the year
    with a sign and six digits outside 0..9999. *)
Definition toISOString (t : Z) : jsstring :=
  let '(y, m, d) := civil_from_days (t / msPerDay) in
  let ms := (t mod msPerDay)%Z in
  (if (0 <=? y)%Z && (y <=? 9999)%Z then pad 4 y
   else (if (y <? 0)%Z then lit "-" else lit "+") ++ pad 6 (Z.abs y))
  ++ lit "-" ++ pad 2 m ++ lit "-" ++ pad 2 d
  ++ lit "T" ++ pad 2 (ms / 3600000) ++ lit ":" ++ pad 2 (ms / 60000 mod 60)
  ++ lit ":" ++ pad 2 (ms / 1000 mod 60) ++ lit "." ++ pad 3 (ms mod 1000)
  ++ lit "Z".

End JS.
Import JS.

(* ===================================================================== *)
(** ** Data model *)
(* ===================================================================== *)

(** The contact payload of a submission. *)
Module Lead.
Record t := mk {
  name : jsstring;
  phone : jsstring;
  instagram : jsstring;
  service : jsstring;
  availability : jsstring;
  notes : jsstring;
  contact_preference : jsstring;
  budget : jsstring;
  length : jsstring;
  style : jsstring;
}.
End Lead.

Module Meta.
Record t := mk {
  referrer : jsstring;
  user_agent : jsstring;
  ip : jsstring;
}.
End Meta.

Module Booking.
Record t := mk {
  constraint : jsstring;
  location : jsstring;
}.
End Booking.

(** The stored lead.  The two lifecycle stamps are absent until set. *)
Module LeadRecord.
Record t := mk {
  id : jsstring;
  created_at : jsstring;
  updated_at : jsstring;
  status : jsstring;
  archived : bool;
  lead : Lead.t;
  suggested_dm : jsstring;
  internal_notes : jsstring;
  tags : list jsstring;
  meta : Meta.t;
  booking : Booking.t;
  contacted_at : option jsstring;
  closed_at : option jsstring;
}.
End LeadRecord.

(** The rate window of a source.  The source writes the two instants as
    ISO text and reads [window_start_at] back through [Date.parse]; the
    record holds the time values these texts denote. *)
Module RateWindow.
Record t := mk {
  window_start_at : Z;
  count : Z;
  last_submit_at : Z;
}.
End RateWindow.

(** The blob store of [getLeadsStore()], split by key name space: the lead
    records, written under keys of [newLeadKey] and read under keys that
    pass [assertLeadKey], and the rate windows under keys of
    [rateKeyForIp]. *)
Module Store.
Record t := mk {
  leads : gmap jsstring LeadRecord.t;
  rate : gmap jsstring RateWindow.t;
}.
Definition set_lead (k : jsstring) (r : LeadRecord.t) (st : t) : t :=
  mk (<[k := r]> (leads st)) (rate st).
Definition set_rate (k : jsstring) (w : RateWindow.t) (st : t) : t :=
  mk (leads st) (<[k := w]> (rate st)).
End Store.

(** [process.env]. *)
Module Env.
Record t := mk {
  ADMIN_EMAILS : option jsstring;
  ADMIN_ROLE : option jsstring;
  OPENAI_API_KEY : option jsstring;
}.
End Env.

(** The verified identity Netlify attaches to a request:
    [email], [app_metadata.roles] and [user_metadata.roles]. *)
Module User.
Record t := mk {
  email : option jsstring;
  app_roles : option (list jsstring);
  user_roles : option (list jsstring);
}.
End User.

(** The function context: [context.ip] and [context.clientContext.user]. *)
Module Context.
Record t := mk {
  ip : option jsstring;
  user : option User.t;
}.
End Context.

(** A request: the method, the headers the functions read (absent ones
    are [None]), the query parameters, the value [req.json()] parses to
    ([VNull] if it fails) and the length of [JSON.stringify] of it. *)
Module Request.
Record t := mk {
  method : jsstring;
  authorization : option jsstring;
  content_length : option jsstring;
  referer : option jsstring;
  user_agent : option jsstring;
  x_nf_client_connection_ip : option jsstring;
  x_forwarded_for : option jsstring;
  param_status : option jsstring;
  param_q : option jsstring;
  param_archived : option jsstring;
  param_limit : option jsstring;
  param_offset : option jsstring;
  body : value;
  body_json_length : N;
}.
End Request.

(** What a function call ends in: a JSON response or an exception that
    leaves the function. *)
Inductive payload :=
| PNone
| PError (error : jsstring)
| PCreated (id suggested_dm : jsstring)
| PList (total : nat) (offset limit : number) (leads : list LeadRecord.t)
| PUpdated (lead : LeadRecord.t).

Inductive outcome :=
| Response (status : Z) (data : payload)
| Uncaught (e : jserror).

(** [s || d] on a header or parameter that may be absent. *)
Definition str_or (s : option jsstring) (d : jsstring) : jsstring :=
  match s with
  | Some (c :: r) => c :: r
  | _ => d
  end.

(* ===================================================================== *)
(** ** _utils.js *)
(* ===================================================================== *)
Module Utils.

(** [sanitizeString(v, maxLen)]; [sanitizeText] is its work on the text
    [String(v)] of a value that is neither [null] nor [undefined]. *)
Definition sanitizeText (s0 : jsstring) (maxLen : nat) : jsstring :=
  let s := trim s0 in
  match s with
  | [] => []
  | _ :: _ => if (maxLen <? length s)%nat then take maxLen s else s
  end.

Definition sanitizeString (v : value) (maxLen : nat) : result jsstring :=
  if nullish v then Ok []
  else s0 ← ToString v; Ok (sanitizeText s0 maxLen).

(** [/^\+\d{10,15}$/.test(s)]. *)
Definition isE164 (s : jsstring) : bool :=
  match s with
  | 43%N :: ds =>
      forallb isDigit ds && (10 <=? length ds)%nat && (length ds <=? 15)%nat
  | _ => false
  end.

(** [normalizePhone(raw)]. *)
Definition normalizePhone (raw : value) : result jsstring :=
  s ← sanitizeString raw 50;
  match s with
  | [] => Ok []
  | _ :: _ =>
      if startsWith (lit "+") s then
        (* s.replace(/[^\d+]/g, "") *)
        let digits := List.filter (fun c => isDigit c || (c =? 43)%N) s in
        if isE164 digits then Ok digits else Ok []
      else
        (* s.replace(/\D/g, "") *)
        let digits := List.filter isDigit s in
        if (length digits =? 10)%nat then Ok (lit "+1" ++ digits)
        else if (length digits =? 11)%nat && startsWith (lit "1") digits
             then Ok (lit "+" ++ digits)
             else Ok []
  end.

(** [normalizeInstagram(v)]: [replace(/^@/, "")] drops one leading [@]. *)
Definition normalizeInstagram (v : value) : result jsstring :=
  s ← sanitizeString v 60;
  let raw := match s with 64%N :: r => r | _ => s end in
  match raw with
  | [] => Ok []
  | _ :: _ => Ok (lit "@" ++ raw)
  end.

(** [handleOptions(req)]: the 204 of a pre-flight request. *)
Definition handleOptions (req : Request.t) : option outcome :=
  if str_eqb (Request.method req) (lit "OPTIONS") then Some (Response 204 PNone)
  else None.

(** [newLeadKey(now)], with the text of [crypto.randomUUID()]. *)
Definition newLeadKey (now : Z) (uuid : jsstring) : jsstring :=
  lit "leads/" ++ toISOString now ++ lit "_" ++ uuid.

(** The pieces of [LEAD_KEY_RE]: a literal, [\d{n}], [[0-9a-fA-F-]{n}]. *)
Inductive piece :=
| Literal (s : jsstring)
| Digits (n : nat)
| HexOrDash (n : nat).

Fixpoint class_run (p : N -> bool) (n : nat) (s : jsstring) : option jsstring :=
  match n, s with
  | O, _ => Some s
  | S n', c :: s' => if p c then class_run p n' s' else None
  | S _, [] => None
  end.

(** An anchored match of a sequence of pieces against the whole text. *)
Fixpoint matches (ps : list piece) (s : jsstring) : bool :=
  match ps with
  | [] => match s with [] => true | _ => false end
  | Literal l :: ps' => startsWith l s && matches ps' (drop (length l) s)
  | Digits n :: ps' =>
      match class_run isDigit n s with
      | Some r => matches ps' r
      | None => false
      end
  | HexOrDash n :: ps' =>
      match class_run (fun c => isHexDigit c || (c =? 45)%N) n s with
      | Some r => matches ps' r
      | None => false
      end
  end.

Definition LEAD_KEY_RE : list piece :=
  [Literal (lit "leads/"); Digits 4; Literal (lit "-"); Digits 2;
   Literal (lit "-"); Digits 2; Literal (lit "T"); Digits 2;
   Literal (lit ":"); Digits 2; Literal (lit ":"); Digits 2;
   Literal (lit "."); Digits 3; Literal (lit "Z_"); HexOrDash 36].

(** [assertLeadKey(key)]. *)
Definition assertLeadKey (key : value) : bool :=
  match key with
  | VStr k => (length k <? 220)%nat && matches LEAD_KEY_RE k
  | _ => false
  end.

(** [getClientIp(req, context)]. *)
Definition getClientIp (req : Request.t) (context : Context.t) : jsstring :=
  let ip :=
    str_or (Context.ip context)
      (str_or (Request.x_nf_client_connection_ip req)
         (str_or (Request.x_forwarded_for req) [])) in
  trim (default [] (head (split 44 ip))).

(** [rateKeyForIp(ip)]: characters outside [[a-zA-Z0-9._-]] become [_]. *)
Definition rateKeyForIp (ip : jsstring) : jsstring :=
  match sanitizeText ip 80 with
  | [] => []
  | s =>
      lit "rate/" ++
      map (fun c => if isLower c || isUpper c || isDigit c
                       || (c =? 46) || (c =? 95) || (c =? 45)
                    then c else 95)%N s
  end.

(** [isPayloadTooLarge(req, maxBytes)]. *)
Definition isPayloadTooLarge (req : Request.t) (maxBytes : Z) : bool :=
  match Request.content_length req with
  | Some (c :: r) =>
      let n := Number (c :: r) in
      isFinite n && num_ltb (ofZ maxBytes) n
  | _ => false
  end.

(** The outcome of an authorization check. *)
Inductive auth :=
| Granted
| Denied (status : Z) (error : jsstring).

(** [requireJwt(req, context)]. *)
Definition requireJwt (req : Request.t) (context : Context.t) : auth :=
  let auth := str_or (Request.authorization req) [] in
  if negb (startsWith (lit "bearer ") (toLowerCase auth))
  then Denied 401 (lit "Unauthorized")
  else match Context.user context with
       | None => Denied 401 (lit "Unauthorized")
       | Some _ => Granted
       end.

(** The allowlist of [requireAdmin]: [ADMIN_EMAILS] split at commas, each
    entry trimmed and lower-cased, empty entries dropped. *)
Definition allowlist (env : Env.t) : list jsstring :=
  List.filter (fun x => match x with [] => false | _ => true end)
    (map (fun x => toLowerCase (trim x))
       (split 44 (str_or (Env.ADMIN_EMAILS env) []))).

Definition includes_str (l : list jsstring) (x : jsstring) : bool :=
  existsb (str_eqb x) l.

(** [requireAdmin(context)]. *)
Definition requireAdmin (env : Env.t) (context : Context.t) : auth :=
  match Context.user context with
  | None => Denied 401 (lit "Unauthorized")
  | Some user =>
      let email := toLowerCase (str_or (User.email user) []) in
      let allow := allowlist env in
      let requiredRole := trim (str_or (Env.ADMIN_ROLE env) []) in
      let roles :=
        match User.app_roles user with
        | Some r => r
        | None => default [] (User.user_roles user)
        end in
      let emailAllowed :=
        if (0 <? List.length allow)%nat then includes_str allow email else false in
      let roleAllowed :=
        match requiredRole with
        | [] => false
        | _ :: _ => includes_str roles requiredRole
        end in
      if negb emailAllowed && negb roleAllowed
      then Denied 403 (lit "Forbidden")
      else Granted
  end.

(** [Object.prototype.hasOwnProperty.call(o, k)] for a name [k] that is
    no array index: an own property of an object, the [length] of an
    array. *)
Definition hasOwnProperty (o : value) (k : jsstring) : bool :=
  match o with
  | VObj props => match lookup_prop k props with Some _ => true | None => false end
  | VArr _ => str_eqb k (lit "length")
  | _ => false
  end.

Definition HONEYPOT_KEYS : list jsstring :=
  [lit "hp"; lit "honeypot"; lit "website"; lit "company"; lit "confirm_email"].

(** The loop of [isHoneypotTripped] over the keys that are left. *)
Fixpoint honeypotLoop (body : value) (keys : list jsstring) : result bool :=
  match keys with
  | [] => Ok false
  | k :: rest =>
      if hasOwnProperty body k then
        v ← sanitizeString (get body k) 200;
        match v with
        | _ :: _ => Ok true
        | [] => honeypotLoop body rest
        end
      else honeypotLoop body rest
  end.

(** [isHoneypotTripped(body)]. *)
Definition isHoneypotTripped (body : value) : result bool :=
  if negb (truthy body) || negb (typeof_object body) then Ok false
  else honeypotLoop body HONEYPOT_KEYS.

(** *** [mapLimit(items, limit, fn)]

    The workers share the counter [i] and the array [results].  A worker
    is about to test the loop condition, or waits for [fn] on the index
    it took, or has left its loop.  One turn of a worker runs it up to
    its next [await] or to its end; the runs of the function are the
    sequences of turns, in any order of the workers. *)
Inductive worker :=
| Ready
| Awaiting (idx : nat)
| Finished.

Record pool (B : Type) := Pool {
  next : nat;
  results : list (option B);
  workers : list worker;
}.
Arguments Pool {B} next results workers.
Arguments next {B} p.
Arguments results {B} p.
Arguments workers {B} p.

(** [new Array(items.length)], [i = 0] and the [Math.max(1, limit)]
    workers of [Array.from]. *)
Definition mapLimit_start {A B : Type} (items : list A) (limit : Z) : pool B :=
  Pool 0 (replicate (length items) None) (replicate (Z.to_nat (Z.max 1 limit)) Ready).

(** A turn of the worker [w].  An index that was taken is below
    [items.length]; a worker that has finished takes no turn. *)
Definition mapLimit_turn {A B : Type} (fn : A -> nat -> B) (items : list A)
    (w : nat) (p : pool B) : pool B :=
  match workers p !! w with
  | Some Ready =>
      if (next p <? length items)%nat
      then Pool (S (next p)) (results p) (<[w := Awaiting (next p)]> (workers p))
      else Pool (next p) (results p) (<[w := Finished]> (workers p))
  | Some (Awaiting idx) =>
      match items !! idx with
      | Some x =>
          Pool (next p) (<[idx := Some (fn x idx)]> (results p))
            (<[w := Ready]> (workers p))
      | None => p
      end
  | Some Finished | None => p
  end.

(** The pool after the turns of a schedule. *)
Definition mapLimit_run {A B : Type} (fn : A -> nat -> B) (items : list A)
    (schedule : list nat) (p : pool B) : pool B :=
  foldl (fun p w => mapLimit_turn fn items w p) p schedule.

(** [Promise.all(workers)] is settled: every worker has finished. *)
Definition mapLimit_settled {B : Type} (p : pool B) : bool :=
  forallb (fun w => match w with Finished => true | _ => false end) (workers p).

End Utils.
Import Utils.

(* ===================================================================== *)
(** ** leads-create.js *)
(* ===================================================================== *)
Module LeadsCreate.

Definition BOOKING_SCRIPT : jsstring :=
  lit "To schedule, call Paul Mitchell Logan Guest Services at (435) 752-3599 or use their 'Book a Service' option online, and request Ashlee Christensen by name.".

Inductive validation :=
| Invalid (error : jsstring)
| Valid (lead : Lead.t).

(** [validatePayload(body)]. *)
Definition validatePayload (body : value) : result validation :=
  if negb (truthy body) || negb (typeof_object body)
  then Ok (Invalid (lit "Invalid JSON body"))
  else
    let field k := get body (lit k) in
    name ← sanitizeString (or_else (field "name") (field "full_name")) 80;
    phone ← normalizePhone
      (or_else (or_else (field "phone") (field "mobile")) (field "phone_number"));
    instagram ← normalizeInstagram (or_else (field "instagram") (field "ig"));
    match name, phone, instagram with
    | [], _, _ => Ok (Invalid (lit "Missing name"))
    | _, [], [] => Ok (Invalid (lit "Provide phone or instagram"))
    | _, _, _ =>
        service ← sanitizeString
          (or_else (field "service") (field "requested_service")) 100;
        availability ← sanitizeString
          (or_else (field "availability") (field "timeframe")) 160;
        notes ← sanitizeString
          (or_else (or_else (field "notes") (field "message")) (field "details")) 1000;
        contact_preference ← sanitizeString (field "contact_preference") 40;
        budget ← sanitizeString (field "budget") 40;
        length ← sanitizeString (field "length") 40;
        style ← sanitizeString (field "style") 80;
        Ok (Valid (Lead.mk name phone instagram service availability notes
                     contact_preference budget length style))
    end.

(** [fallbackDm(name)]; the dash is U+2014, the two parts are joined by
    two line feeds. *)
Definition fallbackDm (name : jsstring) : jsstring :=
  let first :=
    match sanitizeText name 40 with
    | [] => lit "there"
    | s => s
    end in
  lit "Hi " ++ first ++ lit " " ++ [8212%N] ++
  lit " thanks for reaching out. What style/length are you wanting, and what days/times work best? "
  ++ [10%N; 10%N] ++ BOOKING_SCRIPT.

(** How the call of the generation service settles: the call fails, or
    it answers with an [output_text] (empty when the answer has none).
    A call that stays pending is no outcome of this type; the handler
    with such a call is [handlerOn] below. *)
Inductive generation :=
| ServiceFails
| ServiceText (output_text : jsstring).

(** [generateSuggestedDm(lead)]. *)
Definition generateSuggestedDm (env : Env.t) (service : generation) (lead : Lead.t)
  : result jsstring :=
  match str_or (Env.OPENAI_API_KEY env) [] with
  | [] => Throw (Error (lit "OPENAI_API_KEY missing"))
  | _ :: _ =>
      match service with
      | ServiceFails => Throw (Error (lit "request failed"))
      | ServiceText output_text =>
          let text := trim output_text in
          Ok (if (550 <? List.length text)%nat then take 550 text else text)
      end
  end.

(** What lies outside the function during one call: the clock, the
    random UUID, the generation service and whether the three accesses
    to the blob store go through. *)
Record world := {
  now : Z;
  uuid : jsstring;
  service : generation;
  rate_read_ok : bool;
  rate_write_ok : bool;
  lead_write_ok : bool;
}.

Definition WINDOW_MS : Z := 10 * 60 * 1000.
Definition MAX_REQ : Z := 3.

(** The body of the rate limiter, from the window read for the source:
    [None] is the 429, [Some next] the window to write. *)
Definition rateWindow (prev : option RateWindow.t) (nowMs : Z) : option RateWindow.t :=
  let windowStartMs := default 0%Z (RateWindow.window_start_at <$> prev) in
  let count := default 0%Z (RateWindow.count <$> prev) in
  let inWindow := negb (windowStartMs =? 0)%Z && (nowMs - windowStartMs <? WINDOW_MS)%Z in
  let count := if inWindow then count else 0%Z in
  if inWindow && (MAX_REQ <=? count)%Z then None
  else Some (RateWindow.mk (if inWindow then windowStartMs else nowMs)
               (if inWindow then count + 1 else 1)%Z nowMs).

(** The rate-limit step of the handler: [inl] is the response that ends
    the call, [inr] the store to go on with.  A failing read or write of
    the window is swallowed. *)
Definition rateLimit (w : world) (req : Request.t) (context : Context.t)
    (store : Store.t) : outcome + Store.t :=
  match getClientIp req context with
  | [] => inr store
  | ip =>
      match rateKeyForIp ip with
      | [] => inr store
      | rk =>
          if negb (rate_read_ok w) then inr store
          else
            match rateWindow (Store.rate store !! rk) (now w) with
            | None => inl (Response 429 (PError (lit "Too many requests")))
            | Some next =>
                if rate_write_ok w then inr (Store.set_rate rk next store)
                else inr store
            end
      end
  end.

(** The record of a validated lead, before the suggested message. *)
Definition leadRecord (w : world) (req : Request.t) (context : Context.t)
    (key : jsstring) (lead : Lead.t) (suggested_dm : jsstring) : LeadRecord.t :=
  {| LeadRecord.id := key;
     LeadRecord.created_at := toISOString (now w);
     LeadRecord.updated_at := toISOString (now w);
     LeadRecord.status := lit "new";
     LeadRecord.archived := false;
     LeadRecord.lead := lead;
     LeadRecord.suggested_dm := suggested_dm;
     LeadRecord.internal_notes := [];
     LeadRecord.tags := [];
     LeadRecord.meta :=
       Meta.mk (str_or (Request.referer req) [])
         (str_or (Request.user_agent req) [])
         (str_or (Context.ip context) []);
     LeadRecord.booking :=
       Booking.mk (lit "Paul Mitchell clinic only") (lit "Logan, UT");
     LeadRecord.contacted_at := None;
     LeadRecord.closed_at := None |}.

(** The suggested message: one call of the service, the template when
    the call throws or yields the empty text. *)
Definition suggestedDm (env : Env.t) (w : world) (lead : Lead.t) : jsstring :=
  match generateSuggestedDm env (service w) lead with
  | Ok (c :: r) => c :: r
  | Ok [] => fallbackDm (Lead.name lead)
  | Throw _ => fallbackDm (Lead.name lead)
  end.

(** The exception of a failed write to the blob store. *)
Definition storeFailure : jserror := Error (lit "blob store failure").

(** The handler.  The SMS to the owner follows the write of the lead and
    whatever it does is swallowed; it is not part of the result. *)
Definition handler (env : Env.t) (w : world) (req : Request.t)
    (context : Context.t) (store : Store.t) : outcome * Store.t :=
  match handleOptions req with
  | Some opt => (opt, store)
  | None =>
  if negb (str_eqb (Request.method req) (lit "POST"))
  then (Response 405 (PError (lit "Method not allowed")), store)
  else if isPayloadTooLarge req 10000
  then (Response 413 (PError (lit "Payload too large")), store)
  else
    let body := Request.body req in
    match (if truthy body && typeof_object body
           then sanitizeString (get body (lit "hp")) 200 else Ok []) with
    | Throw e => (Uncaught e, store)
    | Ok (_ :: _) => (Response 400 (PError (lit "Spam detected")), store)
    | Ok [] =>
    let approx := if truthy body then Request.body_json_length req else 2%N in
    if (10000 <? approx)%N
    then (Response 413 (PError (lit "Payload too large")), store)
    else
      match validatePayload body with
      | Throw e => (Uncaught e, store)
      | Ok (Invalid error) => (Response 400 (PError error), store)
      | Ok (Valid lead) =>
          match rateLimit w req context store with
          | inl limited => (limited, store)
          | inr store =>
              let key := newLeadKey (now w) (uuid w) in
              let suggested_dm := suggestedDm env w lead in
              let record := leadRecord w req context key lead suggested_dm in
              if lead_write_ok w
              then (Response 200 (PCreated key suggested_dm),
                    Store.set_lead key record store)
              else (Uncaught storeFailure, store)
          end
      end
    end
  end.

(** The Twilio part of [process.env]. *)
Module Twilio.
Record t := mk {
  TWILIO_ACCOUNT_SID : option jsstring;
  TWILIO_AUTH_TOKEN : option jsstring;
  TWILIO_FROM_NUMBER : option jsstring;
  ASHLEE_SMS_TO : option jsstring;
}.
End Twilio.

(** The argument of [client.messages.create]. *)
Record message := Message {
  from : jsstring;
  to : jsstring;
  body : jsstring;
}.





End LeadsCreate.

(* ===================================================================== *)
(** ** leads-list.js *)
(* ===================================================================== *)
Module LeadsList.

(** The comparator of the key sort: [(a, b) => (a > b ? -1 : 1)]. *)
Definition newestFirst (a b : jsstring) : Z :=
  if str_gtb a b then (-1)%Z else 1%Z.

Definition statusParam (req : Request.t) : jsstring :=
  toLowerCase (trim (str_or (Request.param_status req) [])).

Definition qParam (req : Request.t) : jsstring :=
  toLowerCase (trim (str_or (Request.param_q req) [])).

Definition archivedMode (req : Request.t) : jsstring :=
  match toLowerCase (trim (str_or (Request.param_archived req) [])) with
  | [] => lit "false"
  | archivedParam => archivedParam
  end.

Definition limit (req : Request.t) : number :=
  Math_min (ofZ 200) (Math_max (ofZ 1) (Number (str_or (Request.param_limit req) (lit "50")))).

Definition offset (req : Request.t) : number :=
  Math_max (ofZ 0) (Number (str_or (Request.param_offset req) (lit "0"))).

Definition archivedFilter (mode : jsstring) (r : LeadRecord.t) : bool :=
  if str_eqb mode (lit "all") then true
  else if str_eqb mode (lit "true") then LeadRecord.archived r
  else negb (LeadRecord.archived r).

Definition statusFilter (status : jsstring) (r : LeadRecord.t) : bool :=
  match status with
  | [] => true
  | _ :: _ => str_eqb (toLowerCase (LeadRecord.status r)) status
  end.

(** The text searched by [q]: the non-empty fields joined by spaces. *)
Definition hay (r : LeadRecord.t) : jsstring :=
  let l := LeadRecord.lead r in
  toLowerCase
    (join (lit " ")
       (List.filter (fun x => match x with [] => false | _ => true end)
          ([Lead.name l; Lead.phone l; Lead.instagram l; Lead.service l;
            Lead.availability l; Lead.notes l; LeadRecord.status r;
            LeadRecord.internal_notes r] ++ LeadRecord.tags r))).

Definition qFilter (q : jsstring) (r : LeadRecord.t) : bool :=
  match q with
  | [] => true
  | _ :: _ => includes (hay r) q
  end.

(** The keys of the listing, newest first. *)
Definition sortedKeys (blobs : list jsstring) : list jsstring :=
  sort newestFirst blobs.

(** The records read under the keys, in the order of the keys; a key
    with no record behind it is dropped by [filter(Boolean)]. *)
Definition hydrate (store : Store.t) (keys : list jsstring) : list LeadRecord.t :=
  omap (fun key => Store.leads store !! key) keys.

Definition filtered (req : Request.t) (store : Store.t) (blobs : list jsstring)
  : list LeadRecord.t :=
  List.filter (qFilter (qParam req))
    (List.filter (statusFilter (statusParam req))
       (List.filter (archivedFilter (archivedMode req))
          (hydrate store (sortedKeys blobs)))).

Definition page (req : Request.t) (store : Store.t) (blobs : list jsstring)
  : list LeadRecord.t :=
  slice (filtered req store blobs) (offset req) (num_add (offset req) (limit req)).

(** What [store.list({ prefix: "leads/" })] may return: the keys with
    that prefix, in an order of the store's choosing. *)
Definition listing (store : Store.t) (blobs : list jsstring) : Prop :=
  blobs ≡ₚ List.filter (startsWith (lit "leads/"))
             (map fst (map_to_list (Store.leads store))).

(** The handler, given the keys [store.list] returned. *)
Definition handler (env : Env.t) (req : Request.t) (context : Context.t)
    (store : Store.t) (blobs : list jsstring) : outcome :=
  match handleOptions req with
  | Some opt => opt
  | None =>
  if negb (str_eqb (Request.method req) (lit "GET"))
  then Response 405 (PError (lit "Method not allowed"))
  else
    match requireJwt req context with
    | Denied status error => Response status (PError error)
    | Granted =>
    match requireAdmin env context with
    | Denied status error => Response status (PError error)
    | Granted =>
        Response 200
          (PList (List.length (filtered req store blobs)) (offset req) (limit req)
             (page req store blobs))
    end
    end
  end.

End LeadsList.

(* ===================================================================== *)
(** ** leads-update.js *)
(* ===================================================================== *)
Module LeadsUpdate.

Definition VALID_STATUSES : list jsstring :=
  [lit "new"; lit "contacted"; lit "booked"; lit "closed"; lit "noshow"].

Definition isValidStatus (s : jsstring) : bool := existsb (str_eqb s) VALID_STATUSES.

(** [normalizeStatus(raw)]. *)
Definition normalizeStatus (raw : value) : result jsstring :=
  s ← sanitizeString raw 30; Ok (toLowerCase s).

(** [coercePatch(body)]. *)
Definition coercePatch (body : value) : value :=
  let patch := get body (lit "patch") in
  if truthy body && typeof_object body && truthy patch && typeof_object patch
  then patch else VObj [].

(** [!stamp] on a lifecycle stamp. *)
Definition unset (stamp : option jsstring) : bool :=
  match stamp with
  | Some (_ :: _) => false
  | _ => true
  end.

(** [tags.map((t) => sanitizeString(t, 40))]. *)
Fixpoint sanitizeTags (tags : list value) : result (list jsstring) :=
  match tags with
  | [] => Ok []
  | t :: rest => s ← sanitizeString t 40; r ← sanitizeTags rest; Ok (s :: r)
  end.

(** [applyPatch(existing, patchRaw)] at the instant [now]. *)
Definition applyPatch (now : Z) (existing : LeadRecord.t) (patchRaw : value)
  : result LeadRecord.t :=
  let patch := if truthy patchRaw && typeof_object patchRaw then patchRaw else VObj [] in
  status ←
    (if negb (nullish (get patch (lit "status"))) then
       s ← normalizeStatus (get patch (lit "status"));
       if isValidStatus s then Ok s else Throw (Error (lit "Invalid status"))
     else Ok (LeadRecord.status existing));
  internal_notes ←
    (if negb (nullish (get patch (lit "internal_notes")))
     then sanitizeString (get patch (lit "internal_notes")) 2000
     else Ok (LeadRecord.internal_notes existing));
  tags ←
    (if negb (nullish (get patch (lit "tags"))) then
       let tags := match get patch (lit "tags") with VArr items => items | _ => [] end in
       mapped ← sanitizeTags tags;
       Ok (take 25 (List.filter (fun t => match t with [] => false | _ => true end) mapped))
     else Ok (LeadRecord.tags existing));
  let archived :=
    if negb (nullish (get patch (lit "archived")))
    then truthy (get patch (lit "archived"))
    else LeadRecord.archived existing in
  let nowIso := toISOString now in
  let changed := negb (str_eqb (LeadRecord.status existing) status) in
  let contacted_at :=
    if changed && str_eqb status (lit "contacted")
       && unset (LeadRecord.contacted_at existing)
    then Some nowIso else LeadRecord.contacted_at existing in
  let closed_at :=
    if changed && (str_eqb status (lit "closed") || str_eqb status (lit "booked"))
       && unset (LeadRecord.closed_at existing)
    then Some nowIso else LeadRecord.closed_at existing in
  Ok {| LeadRecord.id := LeadRecord.id existing;
        LeadRecord.created_at := LeadRecord.created_at existing;
        LeadRecord.updated_at := nowIso;
        LeadRecord.status := status;
        LeadRecord.archived := archived;
        LeadRecord.lead := LeadRecord.lead existing;
        LeadRecord.suggested_dm := LeadRecord.suggested_dm existing;
        LeadRecord.internal_notes := internal_notes;
        LeadRecord.tags := tags;
        LeadRecord.meta := LeadRecord.meta existing;
        LeadRecord.booking := LeadRecord.booking existing;
        LeadRecord.contacted_at := contacted_at;
        LeadRecord.closed_at := closed_at |}.

(** The text of an exception, [e.message]; the one of the [TypeError] is
    the engine's. *)
Definition message (e : jserror) : jsstring :=
  match e with
  | TypeError => lit "Cannot convert object to primitive value"
  | Error msg => msg
  end.

Definition invalidStatus : jsstring :=
  lit "Invalid status. Must be one of: " ++ join (lit ", ") VALID_STATUSES.

(** The handler, at the instant [now]; [write_ok] tells whether the
    write to the blob store goes through. *)
Definition handler (env : Env.t) (now : Z) (write_ok : bool) (req : Request.t)
    (context : Context.t) (store : Store.t) : outcome * Store.t :=
  match handleOptions req with
  | Some opt => (opt, store)
  | None =>
  if negb (str_eqb (Request.method req) (lit "POST"))
     && negb (str_eqb (Request.method req) (lit "PATCH"))
  then (Response 405 (PError (lit "Method not allowed")), store)
  else
    match requireJwt req context with
    | Denied status error => (Response status (PError error), store)
    | Granted =>
    match requireAdmin env context with
    | Denied status error => (Response status (PError error), store)
    | Granted =>
    let body := Request.body req in
    if negb (truthy body) || negb (typeof_object body)
    then (Response 400 (PError (lit "Invalid JSON body")), store)
    else
      match get body (lit "id") with
      | VStr id =>
      if negb (assertLeadKey (VStr id))
      then (Response 400 (PError (lit "Invalid lead id")), store)
      else
        let patch := coercePatch body in
        match (if negb (nullish (get patch (lit "status")))
               then s ← normalizeStatus (get patch (lit "status")); Ok (isValidStatus s)
               else Ok true) with
        | Throw e => (Uncaught e, store)
        | Ok false => (Response 400 (PError invalidStatus), store)
        | Ok true =>
            match Store.leads store !! id with
            | None => (Response 404 (PError (lit "Lead not found")), store)
            | Some existing =>
                match applyPatch now existing patch with
                | Throw e =>
                    (Response 400
                       (PError (match message e with
                                | [] => lit "Invalid patch"
                                | m => m
                                end)), store)
                | Ok updated =>
                    if write_ok
                    then (Response 200 (PUpdated updated), Store.set_lead id updated store)
                    else (Uncaught LeadsCreate.storeFailure, store)
                end
            end
        end
      | _ => (Response 400 (PError (lit "Invalid lead id")), store)
      end
    end
    end
  end.

End LeadsUpdate.

(* ===================================================================== *)
(** ** Vocabulary of the properties *)
(* ===================================================================== *)

(** The canonical form: a plus sign and 10 to 15 digits. *)
Definition canonical (p : jsstring) : Prop :=
  exists ds, p = 43%N :: ds /\ forallb isDigit ds = true
             /\ (10 <= List.length ds <= 15)%nat.

(** An option of [process.env] that is not configured: unset or empty. *)
Definition not_configured (v : option jsstring) : Prop := str_or v [] = [].

(** A request that carries a verified identity and passes the admin gate. *)
Definition authorized (env : Env.t) (req : Request.t) (context : Context.t) : Prop :=
  requireJwt req context = Granted /\ requireAdmin env context = Granted.

(** An update request for the lead [id] with the patch [patch]. *)
Definition updateOf (req : Request.t) (id : jsstring) (patch : value) : Prop :=
  (Request.method req = lit "POST" \/ Request.method req = lit "PATCH")
  /\ truthy (Request.body req) = true
  /\ typeof_object (Request.body req) = true
  /\ get (Request.body req) (lit "id") = VStr id
  /\ assertLeadKey (VStr id) = true
  /\ LeadsUpdate.coercePatch (Request.body req) = patch.

(** Membership in the status set up to letter case. *)
Definition caseInsensitiveMember (s : jsstring) : bool :=
  LeadsUpdate.isValidStatus (toLowerCase s).

(** The patch [{ status: s }]. *)
Definition statusPatch (s : jsstring) : value := VObj [(lit "status", VStr s)].

(** Patches applied one after the other, each at its instant. *)
Fixpoint applyAll (patches : list (Z * value)) (r : LeadRecord.t) : result LeadRecord.t :=
  match patches with
  | [] => Ok r
  | (now, patch) :: rest => r' ← LeadsUpdate.applyPatch now r patch; applyAll rest r'
  end.

(** The elements of a [tags] field: those of an array, none otherwise. *)
Definition tagItems (v : value) : list value :=
  match v with VArr items => items | _ => [] end.

Definition nonEmpty (s : jsstring) : bool :=
  match s with [] => false | _ => true end.

(** *** Sample data for the examples *)
Module Sample.

Definition envNone : Env.t := Env.mk None None None.
Definition envAdmin : Env.t := Env.mk (Some (lit "ashlee@example.com, ")) None None.

Definition admin : User.t := User.mk (Some (lit "Ashlee@Example.com")) None None.
Definition ctxAdmin : Context.t := Context.mk (Some (lit "203.0.113.7")) (Some admin).
Definition ctxPublic : Context.t := Context.mk (Some (lit "203.0.113.7")) None.

Definition t0 : Z := 1793612345678.
Definition uuidA : jsstring := lit "123e4567-e89b-12d3-a456-426614174000".
Definition uuidB : jsstring := lit "9b2d7c1e-0f4a-4c7b-8a55-0c1d2e3f4a5b".
Definition keyA : jsstring := newLeadKey t0 uuidA.
Definition keyB : jsstring := newLeadKey (t0 + 60000) uuidB.

Definition jess : Lead.t :=
  Lead.mk (lit "Jess") (lit "+14355551234") [] (lit "fill") [] [] [] [] [] [].

Definition record (key : jsstring) (now : Z) (archived : bool) : LeadRecord.t :=
  {| LeadRecord.id := key;
     LeadRecord.created_at := toISOString now;
     LeadRecord.updated_at := toISOString now;
     LeadRecord.status := lit "new";
     LeadRecord.archived := archived;
     LeadRecord.lead := jess;
     LeadRecord.suggested_dm := LeadsCreate.fallbackDm (lit "Jess");
     LeadRecord.internal_notes := [];
     LeadRecord.tags := [];
     LeadRecord.meta := Meta.mk [] [] (lit "203.0.113.7");
     LeadRecord.booking := Booking.mk (lit "Paul Mitchell clinic only") (lit "Logan, UT");
     LeadRecord.contacted_at := None;
     LeadRecord.closed_at := None |}.

Definition recordA : LeadRecord.t := record keyA t0 false.
Definition recordB : LeadRecord.t := record keyB (t0 + 60000) true.

Definition storeA : Store.t := Store.mk {[ keyA := recordA ]} ∅.
Definition storeAB : Store.t := Store.mk (<[ keyB := recordB ]> {[ keyA := recordA ]}) ∅.

Definition request (method : jsstring) (body : value) : Request.t :=
  {| Request.method := method;
     Request.authorization := Some (lit "Bearer eyJhbGciOi");
     Request.content_length := None;
     Request.referer := None;
     Request.user_agent := None;
     Request.x_nf_client_connection_ip := None;
     Request.x_forwarded_for := None;
     Request.param_status := None;
     Request.param_q := None;
     Request.param_archived := None;
     Request.param_limit := None;
     Request.param_offset := None;
     Request.body := body;
     Request.body_json_length := 64 |}.

Definition updateRequest (id : jsstring) (patch : value) : Request.t :=
  request (lit "PATCH") (VObj [(lit "id", VStr id); (lit "patch", patch)]).

Definition listRequest (archived limit offset : option jsstring) : Request.t :=
  {| Request.method := lit "GET";
     Request.authorization := Some (lit "Bearer eyJhbGciOi");
     Request.content_length := None;
     Request.referer := None;
     Request.user_agent := None;
     Request.x_nf_client_connection_ip := None;
     Request.x_forwarded_for := None;
     Request.param_status := None;
     Request.param_q := None;
     Request.param_archived := archived;
     Request.param_limit := limit;
     Request.param_offset := offset;
     Request.body := VNull;
     Request.body_json_length := 0 |}.

Definition world (now : Z) (service : LeadsCreate.generation) : LeadsCreate.world :=
  {| LeadsCreate.now := now;
     LeadsCreate.uuid := uuidA;
     LeadsCreate.service := service;
     LeadsCreate.rate_read_ok := true;
     LeadsCreate.rate_write_ok := true;
     LeadsCreate.lead_write_ok := true |}.

End Sample.

(** Further sample data: the record [recordA] after a first contact,
    and patches with a padded status and with tags of several kinds. *)
Module Sample2.

Definition contactedA : LeadRecord.t :=
  match LeadsUpdate.applyPatch (Sample.t0 + 1000) Sample.recordA
          (statusPatch (lit "contacted")) with
  | Ok r => r
  | Throw _ => Sample.recordA
  end.

Definition paddedStatus : jsstring := lit " Booked ".

Definition bookedA : LeadRecord.t :=
  match LeadsUpdate.applyPatch (Sample.t0 + 1000) Sample.recordA
          (statusPatch paddedStatus) with
  | Ok r => r
  | Throw _ => Sample.recordA
  end.

Definition mixedTags : value :=
  VObj [(lit "tags",
         VArr [VBool true; VNum 5; VNull; VStr (lit "  "); VStr (lit " gel ")])].

Definition taggedA : LeadRecord.t :=
  match LeadsUpdate.applyPatch (Sample.t0 + 1000) Sample.recordA mixedTags with
  | Ok r => r
  | Throw _ => Sample.recordA
  end.

End Sample2.

(** *** Submissions *)

(** The text read from the honeypot field of a body. *)
Definition honeypot (body : value) : result jsstring :=
  if truthy body && typeof_object body
  then sanitizeString (get body (lit "hp")) 200 else Ok [].

(** A create-lead submission: a POST that passes the two size guards and
    whose honeypot field reads as [hp]. *)
Definition submission (req : Request.t) (hp : jsstring) : Prop :=
  Request.method req = lit "POST"
  /\ isPayloadTooLarge req 10000 = false
  /\ honeypot (Request.body req) = Ok hp
  /\ ((if truthy (Request.body req) then Request.body_json_length req else 2) <= 10000)%N.



(** The same call with another behaviour of the generation service, and
    the same environment with other credentials for it. *)
Definition with_service (w : LeadsCreate.world) (service : LeadsCreate.generation)
  : LeadsCreate.world :=
  {| LeadsCreate.now := LeadsCreate.now w;
     LeadsCreate.uuid := LeadsCreate.uuid w;
     LeadsCreate.service := service;
     LeadsCreate.rate_read_ok := LeadsCreate.rate_read_ok w;
     LeadsCreate.rate_write_ok := LeadsCreate.rate_write_ok w;
     LeadsCreate.lead_write_ok := LeadsCreate.lead_write_ok w |}.

Definition with_api_key (env : Env.t) (key : option jsstring) : Env.t :=
  Env.mk (Env.ADMIN_EMAILS env) (Env.ADMIN_ROLE env) key.

(** [text.length > 550 ? text.slice(0, 550) : text] on the trimmed text. *)
Definition capped (output_text : jsstring) : jsstring :=
  let text := trim output_text in
  if (550 <? List.length text)%nat then take 550 text else text.

(** Calls of the create function, one after the other on the store. *)
Definition call : Type := LeadsCreate.world * Request.t * Context.t.

Fixpoint run (env : Env.t) (calls : list call) (store : Store.t)
  : list outcome * Store.t :=
  match calls with
  | [] => ([], store)
  | (w, req, context) :: rest =>
      let '(o, store1) := LeadsCreate.handler env w req context store in
      let '(os, store2) := run env rest store1 in
      (o :: os, store2)
  end.

Definition accepted (o : outcome) : Prop :=
  exists id suggested_dm, o = Response 200 (PCreated id suggested_dm).

(** A valid submission from the source [ip] at the instant [t], with the
    blob store at work. *)
Definition validFrom (ip : jsstring) (t : Z) (c : call) : Prop :=
  let '(w, req, context) := c in
  submission req []
  /\ (exists lead, LeadsCreate.validatePayload (Request.body req) = Ok (LeadsCreate.Valid lead))
  /\ getClientIp req context = ip
  /\ LeadsCreate.now w = t
  /\ LeadsCreate.rate_read_ok w = true
  /\ LeadsCreate.rate_write_ok w = true
  /\ LeadsCreate.lead_write_ok w = true.

(** No window of the source is running at [t]: none is stored, or the
    span of the stored one has elapsed. *)
Definition noWindow (prev : option RateWindow.t) (t : Z) : Prop :=
  match prev with
  | None => True
  | Some w => (RateWindow.window_start_at w + LeadsCreate.WINDOW_MS <= t)%Z
  end.

(** The submission of the end-to-end scenario and a call made with it. *)
Module Sample3.

Definition jessBody : value :=
  VObj [(lit "name", VStr (lit "Jess")); (lit "phone", VStr (lit "4355551234"));
        (lit "service", VStr (lit "fill"))].

Definition jessRequest : Request.t := Sample.request (lit "POST") jessBody.

Definition jessCall (t : Z) : call :=
  (Sample.world t LeadsCreate.ServiceFails, jessRequest, Sample.ctxPublic).

Definition source : jsstring := lit "203.0.113.7".

Definition emptyStore : Store.t := Store.mk ∅ ∅.

Definition minute : Z := 60000.

(** The store after the submission of Jess at [t0], from a source whose
    first window this opens. *)
Definition jessStore : Store.t :=
  Store.set_lead Sample.keyA
    (LeadsCreate.leadRecord (Sample.world Sample.t0 LeadsCreate.ServiceFails)
       jessRequest Sample.ctxPublic Sample.keyA Sample.jess
       (LeadsCreate.fallbackDm (lit "Jess")))
    (Store.set_rate (rateKeyForIp source)
       (RateWindow.mk Sample.t0 1 Sample.t0) emptyStore).

End Sample3.

(** *** Listings *)

(** [a > b] on keys. *)
Definition keyGt (a b : jsstring) : Prop := str_gtb a b = true.

(** Records listed newest first: they are the records stored under keys
    that decrease strictly from one to the next. *)
Definition newestFirstIn (store : Store.t) (records : list LeadRecord.t) : Prop :=
  exists keys,
    StronglySorted keyGt keys
    /\ Forall2 (fun key r => Store.leads store !! key = Some r) keys records.

(** The instants whose year has four digits: 0000-01-01T00:00:00.000Z
    to 9999-12-31T23:59:59.999Z. *)
Definition fourDigitYear (t : Z) : Prop :=
  (-62167219200000 <= t <= 253402300799999)%Z.

(** The records [records] are stored under a selection of [keys], in
    the order of [keys]. *)
Definition selectedFrom (store : Store.t) (keys : list jsstring)
    (records : list LeadRecord.t) : Prop :=
  exists sel,
    sel `sublist_of` keys
    /\ Forall2 (fun key r => Store.leads store !! key = Some r) sel records.

(** *** Dates as numbers *)

(** [f] holds on the [n] integers from [i] on. *)
Fixpoint forall_from (n : nat) (i : Z) (f : Z -> bool) : bool :=
  match n with
  | O => true
  | S k => f i && forall_from k (i + 1) f
  end.

(** A civil date read as the number YYYYMMDD. *)
Definition dateNumber (c : Z * Z * Z) : Z :=
  let '(y, m, d) := c in (y * 10000 + m * 100 + d)%Z.

(** The date of a day of the era is well formed and below the date of
    the next day. *)
Definition day_ok (doe : Z) : bool :=
  let '(y, m, d) := civil_of_doe doe in
  ((0 <=? y) && (y <=? 400) && (1 <=? m) && (m <=? 12) && (1 <=? d) && (d <=? 31)
   && (dateNumber (y, m, d) <? dateNumber (civil_of_doe (doe + 1))))%Z.

(** [n] padded to [w] digits has [w] characters and comes before [n + 1]
    padded to [w] digits. *)
Definition pad_ok (w : nat) (n : Z) : bool :=
  (List.length (pad w n) =? w)%nat && str_ltb (pad w n) (pad w (n + 1)).

(** The time within the day as hours, minutes, seconds, milliseconds. *)
Definition clock (ms : Z) : Z * Z * Z * Z :=
  ((ms / 3600000)%Z, (ms / 60000 mod 60)%Z, (ms / 1000 mod 60)%Z, (ms mod 1000)%Z).

(** The widths of the fields of a timestamp. *)
Definition width (w : nat) : Prop := w = 2%nat \/ w = 3%nat \/ w = 4%nat.

(** The text of a timestamp from its fields. *)
Definition isoText (y m d h mi s x : Z) : jsstring :=
  pad 4 y ++ lit "-" ++ pad 2 m ++ lit "-" ++ pad 2 d
  ++ lit "T" ++ pad 2 h ++ lit ":" ++ pad 2 mi
  ++ lit ":" ++ pad 2 s ++ lit "." ++ pad 3 x ++ lit "Z".

(** *** Vocabulary of the further properties *)

(** A text that does not begin with white space. *)
Definition cleanStart (s : jsstring) : Prop :=
  match s with
  | c :: _ => isWhiteSpace c = false
  | [] => True
  end.

(** The characters a rate key keeps: [[a-zA-Z0-9._-]]. *)
Definition safeChar (c : N) : bool :=
  (isLower c || isUpper c || isDigit c || (c =? 46) || (c =? 95) || (c =? 45))%N.

(** The text of a UUID: 36 characters, hexadecimal digits and hyphens. *)
Definition uuidText (u : jsstring) : Prop :=
  List.length u = 36%nat
  /\ forallb (fun c => isHexDigit c || (c =? 45)%N) u = true.

(** The number of characters a piece of a pattern matches. *)
Definition pieceLength (p : piece) : nat :=
  match p with
  | Literal s => List.length s
  | Digits n => n
  | HexOrDash n => n
  end.

(** [n] padded to [w] digits is made of digits. *)
Definition pad_digits (w : nat) (n : Z) : bool := forallb isDigit (pad w n).

(** Every lead is stored under its own id. *)
Definition keyedById (store : Store.t) : Prop :=
  forall key r, Store.leads store !! key = Some r -> LeadRecord.id r = key.



(** The shape of a validated lead: the bounds of its fields. *)
Definition leadShape (lead : Lead.t) : Prop :=
  Lead.name lead <> [] /\ (List.length (Lead.name lead) <= 80)%nat
  /\ (Lead.phone lead <> [] \/ Lead.instagram lead <> [])
  /\ (Lead.phone lead = [] \/ canonical (Lead.phone lead))
  /\ (Lead.instagram lead = []
      \/ (startsWith (lit "@") (Lead.instagram lead) = true
          /\ (2 <= List.length (Lead.instagram lead) <= 61)%nat))
  /\ (List.length (Lead.service lead) <= 100)%nat
  /\ (List.length (Lead.availability lead) <= 160)%nat
  /\ (List.length (Lead.notes lead) <= 1000)%nat
  /\ (List.length (Lead.contact_preference lead) <= 40)%nat
  /\ (List.length (Lead.budget lead) <= 40)%nat
  /\ (List.length (Lead.length lead) <= 40)%nat
  /\ (List.length (Lead.style lead) <= 80)%nat.


(** What [mapLimit] returns for [fn] and [items]: the value of [fn] at
    every index, in the order of [items]. *)
Definition mapped {A B : Type} (fn : A -> nat -> B) (items : list A) : list (option B) :=
  imap (fun idx x => Some (fn x idx)) items.

(** A record whose [updated_at] alone is set anew. *)
Definition touched (now : Z) (r : LeadRecord.t) : LeadRecord.t :=
  {| LeadRecord.id := LeadRecord.id r;
     LeadRecord.created_at := LeadRecord.created_at r;
     LeadRecord.updated_at := toISOString now;
     LeadRecord.status := LeadRecord.status r;
     LeadRecord.archived := LeadRecord.archived r;
     LeadRecord.lead := LeadRecord.lead r;
     LeadRecord.suggested_dm := LeadRecord.suggested_dm r;
     LeadRecord.internal_notes := LeadRecord.internal_notes r;
     LeadRecord.tags := LeadRecord.tags r;
     LeadRecord.meta := LeadRecord.meta r;
     LeadRecord.booking := LeadRecord.booking r;
     LeadRecord.contacted_at := LeadRecord.contacted_at r;
     LeadRecord.closed_at := LeadRecord.closed_at r |}.

(** A patch field that is absent or [null]. *)
Definition absent (patch : value) (k : string) : Prop :=
  nullish (get patch (lit k)) = true.

(** Every stored lead has a status of the fixed set. *)
Definition statusesValid (store : Store.t) : Prop :=
  forall key r, Store.leads store !! key = Some r ->
                LeadsUpdate.isValidStatus (LeadRecord.status r) = true.

(** The body [{ id, patch }] of an update. *)
Definition updateBody (id : jsstring) (patch : value) : value :=
  VObj [(lit "id", VStr id); (lit "patch", patch)].

(** Every lead of the store was created before the instant [t]: its key
    was made at an earlier instant. *)
Definition createdBefore (t : Z) (store : Store.t) : Prop :=
  forall key r, Store.leads store !! key = Some r ->
    exists t' uuid, key = newLeadKey t' uuid /\ fourDigitYear t' /\ (t' < t)%Z.

(** What holds of the pool of [mapLimit] at every turn: the counter is
    within the items, the results are as long as the items, an index
    below the counter has its result or a worker that waits for it, a
    worker waits for an index below the counter only, and a worker has
    finished only when the counter has reached the end. *)
Definition poolInvariant {A B : Type} (fn : A -> nat -> B) (items : list A)
    (p : pool B) : Prop :=
  (next p <= List.length items)%nat
  /\ List.length (results p) = List.length items
  /\ (forall idx x, (idx < next p)%nat -> items !! idx = Some x ->
        results p !! idx = Some (Some (fn x idx))
        \/ exists w, workers p !! w = Some (Awaiting idx))
  /\ (forall w idx, workers p !! w = Some (Awaiting idx) -> (idx < next p)%nat)
  /\ (forall w, workers p !! w = Some Finished -> next p = List.length items)
  /\ workers p <> [].

(** The turns a worker still has in it. *)
Definition workerTurns (w : worker) : nat :=
  match w with Ready => 1 | Awaiting _ => 2 | Finished => 0 end.

(** The number of turns a pool still has in it. *)
Definition turnsLeft {A B : Type} (items : list A) (p : pool B) : nat :=
  2 * (List.length items - next p) + list_sum (map workerTurns (workers p)).

(** The records the list function reads: [store.get] under each key. *)
Definition readLead (store : Store.t) (key : jsstring) (idx : nat) : option LeadRecord.t :=
  Store.leads store !! key.

(** [records.filter(Boolean)]: the records that were read; the slot of a
    key with no record, and a slot never written, are dropped. *)
Definition filterBoolean {B : Type} (records : list (option (option B))) : list B :=
  omap mjoin records.

(** The submission of Jess under a Content-Length of 10001. *)
Definition oversized : Request.t :=
  {| Request.method := lit "POST";
     Request.authorization := None;
     Request.content_length := Some (lit "10001");
     Request.referer := None;
     Request.user_agent := None;
     Request.x_nf_client_connection_ip := None;
     Request.x_forwarded_for := None;
     Request.param_status := None;
     Request.param_q := None;
     Request.param_archived := None;
     Request.param_limit := None;
     Request.param_offset := None;
     Request.body := Sample3.jessBody;
     Request.body_json_length := 64 |}.

(** The key of a lead created a minute after [t0], and the store
    [storeA] after the submission of Jess at that instant. *)
Definition keyC : jsstring := newLeadKey (Sample.t0 + 60000) Sample.uuidA.

Definition laterStore : Store.t :=
  Store.set_lead keyC
    (LeadsCreate.leadRecord (Sample.world (Sample.t0 + 60000) LeadsCreate.ServiceFails)
       Sample3.jessRequest Sample.ctxPublic keyC Sample.jess
       (LeadsCreate.fallbackDm (lit "Jess")))
    (Store.set_rate (rateKeyForIp Sample3.source)
       (RateWindow.mk (Sample.t0 + 60000) 1 (Sample.t0 + 60000)) Sample.storeA).

(** *** Text in Latin-1 *)

(** A text of code units below U+0100.  On such a text [toLowerCase] is
    the function of the language, code unit for code unit; beyond it the
    language lowers more ([U+212A] to [k], [U+0160] to [U+0161]) than
    [lowerUnit] does, so what is stated about the letter case of a text
    is stated for a text in Latin-1. *)
Definition latin1 (s : jsstring) : Prop :=
  forallb (fun c => (c <? 256)%N) s = true.

(** The email of the verified identity, empty when there is none. *)
Definition emailOf (context : Context.t) : jsstring :=
  match Context.user context with
  | Some user => str_or (User.email user) []
  | None => []
  end.

(** The texts of a record that the list function lower-cases: the status
    and the fields that [q] is searched in. *)
Definition searched (r : LeadRecord.t) : list jsstring :=
  let l := LeadRecord.lead r in
  [Lead.name l; Lead.phone l; Lead.instagram l; Lead.service l;
   Lead.availability l; Lead.notes l; LeadRecord.status r;
   LeadRecord.internal_notes r] ++ LeadRecord.tags r.

(** *** The call of the generation service *)

(** The fallback message for the first name [first], written out. *)
Definition template (first : jsstring) : jsstring :=
  lit "Hi " ++ first ++ lit " " ++ [8212%N]
  ++ lit " thanks for reaching out. What style/length are you wanting, and what days/times work best? "
  ++ [10%N; 10%N]
  ++ lit "To schedule, call Paul Mitchell Logan Guest Services at (435) 752-3599 or use their 'Book a Service' option online, and request Ashlee Christensen by name.".

(** The call [openai.responses.create] as the handler sees it: it has
    settled, in one of the ways of [LeadsCreate.generation], or it is
    pending and nothing tells that it will settle. *)
Inductive serviceCall :=
| Pending
| Settled (g : LeadsCreate.generation).

(** The handler of leads-create.js at [await generateSuggestedDm(...)]
    with the call of the service issued: the POST has passed the size
    guards, the honeypot check, the validation and the rate limiter, and
    the credentials are set (without them [generateSuggestedDm] throws
    before it calls).  The lead and the store at that point: the rate
    window is written, [store.setJSON] of the lead is still to come. *)
Definition awaitsService (env : Env.t) (w : LeadsCreate.world) (req : Request.t)
    (context : Context.t) (store : Store.t) : option (Lead.t * Store.t) :=
  match handleOptions req with
  | Some _ => None
  | None =>
  if negb (str_eqb (Request.method req) (lit "POST")) then None
  else if isPayloadTooLarge req 10000 then None
  else
    let body := Request.body req in
    match honeypot body with
    | Throw _ | Ok (_ :: _) => None
    | Ok [] =>
    let approx := if truthy body then Request.body_json_length req else 2%N in
    if (10000 <? approx)%N then None
    else
      match LeadsCreate.validatePayload body with
      | Throw _ | Ok (LeadsCreate.Invalid _) => None
      | Ok (LeadsCreate.Valid lead) =>
          match LeadsCreate.rateLimit w req context store with
          | inl _ => None
          | inr store1 =>
              match str_or (Env.OPENAI_API_KEY env) [] with
              | [] => None
              | _ :: _ => Some (lead, store1)
              end
          end
      end
    end
  end.

(** The handler with a call of the service that may stay pending: the
    response, if there is one, and the store.  While the call it awaits
    is pending the handler gives no response and the store is the one of
    [awaitsService]; once the call has settled the handler runs on as
    [LeadsCreate.handler] does with that outcome.  (The call of the
    message gateway, which follows the write of the lead, is taken to
    settle, as in [LeadsCreate.handler].) *)
Definition handlerOn (env : Env.t) (w : LeadsCreate.world) (c : serviceCall)
    (req : Request.t) (context : Context.t) (store : Store.t)
  : option outcome * Store.t :=
  match c with
  | Settled g =>
      let '(o, store') := LeadsCreate.handler env (with_service w g) req context store in
      (Some o, store')
  | Pending =>
      match awaitsService env w req context store with
      | Some (_, store1) => (None, store1)
      | None =>
          let '(o, store') := LeadsCreate.handler env w req context store in
          (Some o, store')
      end
  end.

(** The environment of the samples with credentials for the service. *)
Definition envKey : Env.t := with_api_key Sample.envNone (Some (lit "sk-sample")).

(** Texts that are all in Latin-1. *)
Definition latin1Texts (l : list jsstring) : Prop :=
  forallb (forallb (fun c => (c <? 256)%N)) l = true.

(** A listing of every lead, archived or not, with status [NEW] and the
    name of Jess in capitals as search text. *)
Definition searchRequest : Request.t :=
  {| Request.method := lit "GET";
     Request.authorization := Some (lit "Bearer eyJhbGciOi");
     Request.content_length := None;
     Request.referer := None;
     Request.user_agent := None;
     Request.x_nf_client_connection_ip := None;
     Request.x_forwarded_for := None;
     Request.param_status := Some (lit " NEW");
     Request.param_q := Some (lit "JESS ");
     Request.param_archived := Some (lit "all");
     Request.param_limit := None;
     Request.param_offset := None;
     Request.body := VNull;
     Request.body_json_length := 0 |}.

(** The largest whole number up to which every whole number is a double:
    2^53. *)
Definition maxExact : Z := 9007199254740992.


Example normalizePhone_ex1 :
  normalizePhone (VStr (lit "(435) 555-1234")) = Ok (lit "+14355551234").
Proof. reflexivity. Qed.

Example normalizePhone_ex2 :
  normalizePhone (VStr (lit " +44 20 7946 0958 ")) = Ok (lit "+442079460958").
Proof. reflexivity. Qed.

Example ToString_ex :
  ToString (VArr [VStr (lit "a"); VNull; VNum (-12); VArr [VBool true]]) = Ok (lit "a,,-12,true").
Proof. reflexivity. Qed.

Example Number_ex : Number (lit " 12.50e1 ") = Fin (125#1).
Proof. reflexivity. Qed.
Example Number_ex2 : Number (lit "abc") = NaN /\ Number (lit "0x1F") = Fin (31#1) /\ Number (lit "-Infinity") = NInf /\ Number (lit ".5") = Fin (1#2) /\ Number (lit "5.") = Fin (5#1) /\ Number (lit ".") = NaN /\ Number (lit "1e") = NaN /\ Number (lit "0") = Fin 0 /\ Number (lit "-0x10") = NaN.
Proof. repeat split; reflexivity. Qed.
Example iso_ex : toISOString 0 = lit "1970-01-01T00:00:00.000Z" /\ toISOString 1793612345678 = lit "2026-11-02T09:39:05.678Z" /\ toISOString (-1) = lit "1969-12-31T23:59:59.999Z" /\ toISOString 951782400000 = lit "2000-02-29T00:00:00.000Z" /\ toISOString (-62198755200000) = lit "-000001-01-01T00:00:00.000Z".
Proof. repeat split; vm_compute; reflexivity. Qed.
Example sort_ex : sort (fun a b => if (b <? a)%Z then -1 else 1)%Z [3;1;2;5;4]%Z = [5;4;3;2;1]%Z.
Proof. reflexivity. Qed.
Example slice_ex : slice [1;2;3;4;5] (ofZ 1) (num_add (ofZ 1) (Fin (5#2))) = [2;3] /\ slice [1;2;3] (ofZ 0) NaN = [] /\ slice [1;2;3] (ofZ (-2)) PInf = [2;3].
Proof. repeat split; reflexivity. Qed.

Example key_ex : assertLeadKey (VStr (newLeadKey 1793612345678 (lit "123e4567-e89b-12d3-a456-426614174000"))) = true.
Proof. vm_compute. reflexivity. Qed.
Example rk_ex : rateKeyForIp (getClientIp (Request.mk (lit "POST") None None None None None (Some (lit " 2001:db8::1 , 10.0.0.1")) None None None None None VNull 0) (Context.mk None None)) = lit "rate/2001_db8__1".
Proof. vm_compute. reflexivity. Qed.

(* ===================================================================== *)
(** ** Facts about strings *)
(* ===================================================================== *)
Section StringFacts.

Lemma isDigit_not_space c : isDigit c = true -> isWhiteSpace c = false.
Proof.
  unfold isDigit, isWhiteSpace. intros H.
  apply andb_prop in H as [H1 H2]. apply N.leb_le in H1, H2.
  rewrite (proj2 (N.leb_gt c 13)), (proj2 (N.leb_gt 8192 c)) by lia.
  rewrite !(proj2 (N.eqb_neq c _)) by lia.
  now rewrite andb_false_r.
Qed.

Lemma trimStart_keep c s : isWhiteSpace c = false -> trimStart (c :: s) = c :: s.
Proof. intros H. simpl. now rewrite H. Qed.

Lemma trimStart_clean s :
  forallb (fun c => negb (isWhiteSpace c)) s = true -> trimStart s = s.
Proof.
  destruct s as [|c s]; simpl; [reflexivity|].
  intros H. apply andb_prop in H as [H _].
  apply negb_true_iff in H. now rewrite H.
Qed.

Lemma forallb_rev {A} (p : A -> bool) l : forallb p (rev l) = forallb p l.
Proof.
  induction l as [|x l IH]; simpl; [reflexivity|].
  rewrite forallb_app, IH. simpl. rewrite andb_true_r. apply andb_comm.
Qed.

Lemma trim_clean s :
  forallb (fun c => negb (isWhiteSpace c)) s = true -> trim s = s.
Proof.
  intros H. unfold trim, trimEnd. rewrite (trimStart_clean s H).
  rewrite trimStart_clean by now rewrite forallb_rev.
  apply rev_involutive.
Qed.

(** Trimming removes white space only: what a filter keeps of the text
    is untouched when the filter rejects white space. *)
Lemma filter_trimStart (p : N -> bool) s :
  (forall c, isWhiteSpace c = true -> p c = false) ->
  List.filter p (trimStart s) = List.filter p s.
Proof.
  intros Hp. induction s as [|c s IH]; simpl; [reflexivity|].
  destruct (isWhiteSpace c) eqn:E; [|reflexivity].
  now rewrite (Hp c E).
Qed.

Lemma filter_rev {A} (p : A -> bool) l : List.filter p (rev l) = rev (List.filter p l).
Proof.
  induction l as [|x l IH]; simpl; [reflexivity|].
  rewrite List.filter_app, IH. simpl. destruct (p x); simpl; [reflexivity|].
  now rewrite app_nil_r.
Qed.

Lemma filter_trim (p : N -> bool) s :
  (forall c, isWhiteSpace c = true -> p c = false) ->
  List.filter p (trim s) = List.filter p s.
Proof.
  intros Hp. unfold trim, trimEnd.
  rewrite <- (rev_involutive (List.filter p (rev _))), <- filter_rev, rev_involutive.
  rewrite filter_trimStart, filter_rev, rev_involutive by assumption.
  now apply filter_trimStart.
Qed.

Lemma filter_all {A} (p : A -> bool) l : forallb p l = true -> List.filter p l = l.
Proof.
  induction l as [|x l IH]; simpl; [reflexivity|].
  intros H. apply andb_prop in H as [H1 H2]. now rewrite H1, IH.
Qed.

Lemma digit_space_false c : isWhiteSpace c = true -> isDigit c = false.
Proof.
  intros H. destruct (isDigit c) eqn:E; [|reflexivity].
  apply isDigit_not_space in E. congruence.
Qed.

Lemma trimStart_length s : (List.length (trimStart s) <= List.length s)%nat.
Proof. induction s as [|c s IH]; simpl; [lia|]. destruct (isWhiteSpace c); simpl; lia. Qed.

Lemma trim_length s : (List.length (trim s) <= List.length s)%nat.
Proof.
  unfold trim, trimEnd. rewrite length_rev.
  etransitivity; [apply trimStart_length|]. rewrite length_rev. apply trimStart_length.
Qed.

Lemma trimStart_idem s : trimStart (trimStart s) = trimStart s.
Proof.
  induction s as [|c s IH]; [reflexivity|]. cbn [trimStart].
  destruct (isWhiteSpace c) eqn:E; [exact IH|]. cbn [trimStart]. now rewrite E.
Qed.

Lemma trimStart_last l c :
  isWhiteSpace c = false -> exists l', trimStart (l ++ [c]) = l' ++ [c].
Proof.
  intros Hc. induction l as [|x l (l' & IH)].
  - exists []. cbn. now rewrite Hc.
  - cbn [app trimStart]. destruct (isWhiteSpace x).
    + now exists l'.
    + now exists (x :: l).
Qed.

(** A trimmed text is empty or begins and ends with a character that is
    no white space; trimming it again changes nothing. *)
Lemma trim_idem s : trim (trim s) = trim s.
Proof.
  unfold trim at 2 3. unfold trimEnd.
  destruct (trimStart s) as [|c r] eqn:E; [reflexivity|].
  assert (Hc : isWhiteSpace c = false).
  { destruct s as [|x s]; [discriminate|].
    pose proof (trimStart_idem (x :: s)) as H. rewrite E in H.
    cbn [trimStart] in H. destruct (isWhiteSpace c); [|reflexivity].
    exfalso. apply (f_equal (@List.length N)) in H. cbn in H.
    pose proof (trimStart_length r). lia. }
  cbn [rev]. destruct (trimStart_last (rev r) c Hc) as (l' & El).
  rewrite El, rev_app_distr. cbn [rev app].
  unfold trim, trimEnd. rewrite (trimStart_keep c _ Hc).
  cbn [rev]. rewrite rev_involutive, <- El, trimStart_idem, El.
  rewrite rev_app_distr. reflexivity.
Qed.

Lemma sanitizeText_nonempty s n :
  trim s <> [] -> (0 < n)%nat -> sanitizeText s n <> [].
Proof.
  unfold sanitizeText. destruct (trim s) as [|c r]; [contradiction|].
  intros _ Hn. destruct (n <? List.length (c :: r))%nat; [|discriminate].
  destruct n; [lia | discriminate].
Qed.

Lemma trimEnd_length s : (List.length (trimEnd s) <= List.length s)%nat.
Proof.
  unfold trimEnd. rewrite length_rev.
  etransitivity; [apply trimStart_length|]. now rewrite length_rev.
Qed.

(** A trimmed text does not begin with white space. *)
Lemma trim_cleanStart s : cleanStart (trim s).
Proof.
  unfold cleanStart. destruct (trim s) as [|c r] eqn:E; [exact I|].
  destruct (isWhiteSpace c) eqn:Hc; [|reflexivity]. exfalso.
  pose proof (trim_idem s) as H. rewrite E in H. unfold trim in H.
  cbn [trimStart] in H. rewrite Hc in H.
  apply (f_equal (@List.length N)) in H.
  pose proof (trimEnd_length (trimStart r)). pose proof (trimStart_length r).
  cbn [List.length] in H. lia.
Qed.

Lemma sanitizeText_take s n : sanitizeText s n = take n (trim s).
Proof.
  unfold sanitizeText. destruct (trim s) as [|c r]; [now rewrite take_nil|].
  destruct (n <? List.length (c :: r))%nat eqn:L; [reflexivity|].
  apply Nat.ltb_ge in L. now rewrite take_ge.
Qed.

Lemma sanitizeText_cleanStart s n : cleanStart (sanitizeText s n).
Proof.
  rewrite sanitizeText_take. pose proof (trim_cleanStart s) as H.
  destruct (trim s) as [|c r]; [now rewrite take_nil|].
  destruct n; [exact I | exact H].
Qed.

(** A source with an address has a rate key. *)
Lemma rateKey_of_client req context :
  getClientIp req context <> [] -> rateKeyForIp (getClientIp req context) <> [].
Proof.
  unfold getClientIp. set (x := default [] _). intros Hip.
  unfold rateKeyForIp.
  assert (H : sanitizeText (trim x) 80 <> [])
    by (apply sanitizeText_nonempty; [now rewrite trim_idem | lia]).
  destruct (sanitizeText (trim x) 80); [contradiction | discriminate].
Qed.

(** The two name spaces of the store are apart: rate keys begin with
    [rate/], the keys of leads, made or accepted, with [leads/]. *)
Lemma rateKeyForIp_prefix ip :
  rateKeyForIp ip = [] \/ startsWith (lit "rate/") (rateKeyForIp ip) = true.
Proof.
  unfold rateKeyForIp. destruct (sanitizeText ip 80); [now left | now right].
Qed.

Lemma newLeadKey_prefix now uuid :
  startsWith (lit "leads/") (newLeadKey now uuid) = true.
Proof. reflexivity. Qed.

Lemma assertLeadKey_prefix key :
  assertLeadKey (VStr key) = true -> startsWith (lit "leads/") key = true.
Proof.
  unfold assertLeadKey, LEAD_KEY_RE. intros H. apply andb_prop in H as [_ H].
  cbn [matches] in H. now apply andb_prop in H as [H _].
Qed.

End StringFacts.

(* ===================================================================== *)
(** ** Phone normalization *)
(* ===================================================================== *)

Lemma canonical_isE164 p : canonical p <-> isE164 p = true.
Proof.
  split.
  - intros (ds & -> & Hd & Hl).
    change (isE164 (43%N :: ds))
      with (forallb isDigit ds && (10 <=? List.length ds)%nat && (List.length ds <=? 15)%nat).
    rewrite Hd, (proj2 (Nat.leb_le 10 _)), (proj2 (Nat.leb_le _ 15)) by lia.
    reflexivity.
  - destruct p as [|c ds]; [discriminate|]. intros H.
    destruct (N.eq_dec c 43%N) as [->|Hne].
    + change (isE164 (43%N :: ds))
        with (forallb isDigit ds && (10 <=? List.length ds)%nat
              && (List.length ds <=? 15)%nat) in H.
      apply andb_prop in H as [H H3]. apply andb_prop in H as [H1 H2].
      apply Nat.leb_le in H2, H3. exists ds. auto.
    + exfalso. unfold isE164 in H. destruct c as [|c]; [discriminate H|].
      do 7 (try (destruct c as [c|c|]; try discriminate H; try (now apply Hne))).
Qed.

Lemma canonical_clean p :
  canonical p -> forallb (fun c => negb (isWhiteSpace c)) p = true.
Proof.
  intros (ds & -> & Hd & _). simpl. apply forallb_forall. intros c Hc.
  rewrite forallb_forall in Hd. now rewrite (isDigit_not_space c (Hd c Hc)).
Qed.

Lemma normalizePhone_canonical p : canonical p -> normalizePhone (VStr p) = Ok p.
Proof.
  intros Hc. pose proof (canonical_clean p Hc) as Hclean.
  pose proof (proj1 (canonical_isE164 p) Hc) as He.
  destruct Hc as (ds & -> & Hd & Hl).
  unfold normalizePhone, sanitizeString. simpl nullish. cbn [ToString mbind result_bind].
  unfold sanitizeText. rewrite (trim_clean _ Hclean).
  replace (50 <? List.length (43%N :: ds))%nat with false
    by (symmetry; apply Nat.ltb_ge; simpl; lia).
  change (startsWith (lit "+") (43%N :: ds)) with true. cbv iota.
  rewrite filter_all.
  - now rewrite He.
  - simpl. apply forallb_forall. intros c Hin. rewrite forallb_forall in Hd.
    now rewrite (Hd c Hin).
Qed.

(** Whatever [normalizePhone] returns is the empty text or canonical. *)
Lemma normalizePhone_range v p :
  normalizePhone v = Ok p -> p = [] \/ canonical p.
Proof.
  unfold normalizePhone. destruct (sanitizeString v 50) as [s|e]; [|discriminate].
  cbn [mbind result_bind]. destruct s as [|c s]; [intros [= <-]; now left|].
  destruct (startsWith (lit "+") (c :: s)).
  - destruct (isE164 _) eqn:E; intros [= <-]; [right; now apply canonical_isE164 | now left].
  - set (digits := List.filter isDigit (c :: s)).
    assert (Hd : forallb isDigit digits = true).
    { apply forallb_forall. intros x Hx. now apply filter_In in Hx. }
    destruct (List.length digits =? 10)%nat eqn:E10.
    + intros [= <-]. right. apply Nat.eqb_eq in E10.
      exists (49%N :: digits). repeat split; simpl; try lia. exact Hd.
    + destruct ((List.length digits =? 11)%nat && startsWith (lit "1") digits) eqn:E11;
        intros [= <-]; [right | now left].
      apply andb_prop in E11 as [E11 _]. apply Nat.eqb_eq in E11.
      exists digits. repeat split; try lia. exact Hd.
Qed.

(** C5.  A domestic input (a value whose text, trimmed, has at most the
    50 characters that are kept, does not start with a plus sign and
    holds exactly 10 digits, in particular a text of 10 digits) is
    normalized to [+1] followed by its digits; a canonical number, a
    plus sign and 10 to 15 digits, is returned unchanged; and
    normalizing the result of a normalization returns it unchanged. *)
Theorem C5_normalizePhone_canonical_idempotent :
  (forall v s,
      nullish v = false -> ToString v = Ok s ->
      (List.length (trim s) <= 50)%nat ->
      startsWith (lit "+") (trim s) = false ->
      List.length (List.filter isDigit s) = 10%nat ->
      normalizePhone v = Ok (lit "+1" ++ List.filter isDigit s))
  /\ (forall ds,
        forallb isDigit ds = true -> (10 <= List.length ds <= 15)%nat ->
        normalizePhone (VStr (43%N :: ds)) = Ok (43%N :: ds))
  /\ (forall v p, normalizePhone v = Ok p -> normalizePhone (VStr p) = Ok p).
Proof.
  split; [|split].
  - intros v s Hn Hs Hlen Hplus Hd.
    unfold normalizePhone, sanitizeString. rewrite Hn, Hs. cbn [mbind result_bind].
    unfold sanitizeText.
    assert (Hf : List.filter isDigit (trim s) = List.filter isDigit s)
      by (apply filter_trim, digit_space_false).
    destruct (trim s) as [|c r] eqn:Et.
    { simpl in Hf. rewrite <- Hf in Hd. discriminate. }
    replace (50 <? List.length (c :: r))%nat with false
      by (symmetry; apply Nat.ltb_ge; exact Hlen).
    rewrite Hplus, Hf, Hd. reflexivity.
  - intros ds Hd Hl. apply normalizePhone_canonical. now exists ds.
  - intros v p H. destruct (normalizePhone_range v p H) as [-> | Hc].
    + reflexivity.
    + now apply normalizePhone_canonical.
Qed.

Lemma C5_witness :
  normalizePhone (VStr (lit "435-555-1234")) = Ok (lit "+14355551234")
  /\ normalizePhone (VStr (lit "+4915112345678")) = Ok (lit "+4915112345678")
  /\ normalizePhone (VStr (lit "+14355551234")) = Ok (lit "+14355551234").
Proof.
  destruct C5_normalizePhone_canonical_idempotent as (H1 & H2 & H3).
  split; [|split].
  - apply (H1 (VStr (lit "435-555-1234")) (lit "435-555-1234")); vm_compute; first [reflexivity | lia].
  - apply (H2 (lit "4915112345678")); vm_compute; [reflexivity | lia].
  - apply (H3 (VStr (lit "4355551234"))). vm_compute. reflexivity.
Defined.

(* ===================================================================== *)
(** ** The authorization gate *)
(* ===================================================================== *)

Lemma requireAdmin_unconfigured env context user :
  Context.user context = Some user ->
  not_configured (Env.ADMIN_EMAILS env) -> not_configured (Env.ADMIN_ROLE env) ->
  requireAdmin env context = Denied 403 (lit "Forbidden").
Proof.
  unfold not_configured, requireAdmin, allowlist. intros -> -> ->. reflexivity.
Qed.

(** C10.  With neither the allowlist nor the required role configured,
    the admin gate answers 403 to every verified identity, whatever its
    email and roles, and so do the list and the update functions to every
    request that carries such an identity. *)
Theorem C10_unconfigured_admin_forbidden env req context user :
  Context.user context = Some user ->
  not_configured (Env.ADMIN_EMAILS env) ->
  not_configured (Env.ADMIN_ROLE env) ->
  requireAdmin env context = Denied 403 (lit "Forbidden")
  /\ (requireJwt req context = Granted ->
      (Request.method req = lit "GET" ->
       forall store blobs,
         LeadsList.handler env req context store blobs
         = Response 403 (PError (lit "Forbidden")))
      /\ (Request.method req = lit "POST" \/ Request.method req = lit "PATCH" ->
          forall now write_ok store,
            LeadsUpdate.handler env now write_ok req context store
            = (Response 403 (PError (lit "Forbidden")), store))).
Proof.
  intros Hu He Hr.
  pose proof (requireAdmin_unconfigured env context user Hu He Hr) as Hadm.
  split; [exact Hadm|]. intros Hjwt. split.
  - intros Hm store blobs. unfold LeadsList.handler, handleOptions.
    rewrite Hm, Hjwt, Hadm. reflexivity.
  - intros Hm now write_ok store. unfold LeadsUpdate.handler, handleOptions.
    rewrite Hjwt, Hadm. destruct Hm as [-> | ->]; reflexivity.
Qed.

Lemma C10_witness :
  requireAdmin Sample.envNone Sample.ctxAdmin = Denied 403 (lit "Forbidden")
  /\ LeadsList.handler Sample.envNone (Sample.listRequest None None None)
       Sample.ctxAdmin Sample.storeA [Sample.keyA]
     = Response 403 (PError (lit "Forbidden")).
Proof.
  destruct (C10_unconfigured_admin_forbidden Sample.envNone
              (Sample.listRequest None None None) Sample.ctxAdmin Sample.admin)
    as [H1 H2]; try reflexivity.
  split; [exact H1|]. apply H2; reflexivity.
Defined.

Example admin_configured :
  requireAdmin Sample.envAdmin Sample.ctxAdmin = Granted.
Proof. reflexivity. Qed.

(* ===================================================================== *)
(** ** Patches *)
(* ===================================================================== *)

(** Case analysis on the first computation of a sequence in [result]. *)
Ltac bind_ok H :=
  unfold mbind, result_bind in H;
  match type of H with
  | match ?m with Ok _ => _ | Throw _ => _ end = _ =>
      let E := fresh "E" in destruct m eqn:E; [|discriminate H]
  end.

Lemma str_eqb_eq a b : str_eqb a b = true <-> a = b.
Proof. unfold str_eqb. apply bool_decide_eq_true. Qed.

Lemma str_eqb_neq a b : str_eqb a b = false <-> a <> b.
Proof. unfold str_eqb. apply bool_decide_eq_false. Qed.

Lemma str_eqb_refl a : str_eqb a a = true.
Proof. now apply str_eqb_eq. Qed.

Lemma toISOString_nonempty t : toISOString t <> [].
Proof.
  unfold toISOString. destruct (civil_from_days _) as [[y m] d].
  intros H. apply app_eq_nil in H as [_ H]. discriminate H.
Qed.

Lemma stamp_set t : LeadsUpdate.unset (Some (toISOString t)) = false.
Proof.
  pose proof (toISOString_nonempty t). unfold LeadsUpdate.unset.
  now destruct (toISOString t).
Qed.

(** The fields of a patched record. *)
Lemma applyPatch_fields now existing patch out :
  LeadsUpdate.applyPatch now existing patch = Ok out ->
  let changed := negb (str_eqb (LeadRecord.status existing) (LeadRecord.status out)) in
  LeadRecord.updated_at out = toISOString now
  /\ LeadRecord.contacted_at out
     = (if changed && str_eqb (LeadRecord.status out) (lit "contacted")
           && LeadsUpdate.unset (LeadRecord.contacted_at existing)
        then Some (toISOString now) else LeadRecord.contacted_at existing)
  /\ LeadRecord.closed_at out
     = (if changed && (str_eqb (LeadRecord.status out) (lit "closed")
                       || str_eqb (LeadRecord.status out) (lit "booked"))
           && LeadsUpdate.unset (LeadRecord.closed_at existing)
        then Some (toISOString now) else LeadRecord.closed_at existing)
  /\ LeadRecord.id out = LeadRecord.id existing
  /\ LeadRecord.created_at out = LeadRecord.created_at existing.
Proof.
  unfold LeadsUpdate.applyPatch. intros H.
  bind_ok H. bind_ok H. bind_ok H.
  injection H as <-. cbn. auto.
Qed.

Lemma stamps_kept now existing patch out :
  LeadsUpdate.applyPatch now existing patch = Ok out ->
  (LeadsUpdate.unset (LeadRecord.contacted_at existing) = false ->
   LeadRecord.contacted_at out = LeadRecord.contacted_at existing)
  /\ (LeadsUpdate.unset (LeadRecord.closed_at existing) = false ->
      LeadRecord.closed_at out = LeadRecord.closed_at existing).
Proof.
  intros H. destruct (applyPatch_fields _ _ _ _ H) as (_ & Hc & Hd & _).
  split; intros Hs; [rewrite Hc | rewrite Hd]; rewrite Hs, andb_false_r; reflexivity.
Qed.

Lemma stamps_kept_all later : forall r r',
  applyAll later r = Ok r' ->
  (LeadsUpdate.unset (LeadRecord.contacted_at r) = false ->
   LeadRecord.contacted_at r' = LeadRecord.contacted_at r)
  /\ (LeadsUpdate.unset (LeadRecord.closed_at r) = false ->
      LeadRecord.closed_at r' = LeadRecord.closed_at r).
Proof.
  induction later as [|[now patch] later IH]; intros r r' H.
  - injection H as <-. auto.
  - cbn [applyAll] in H. bind_ok H.
    destruct (stamps_kept _ _ _ _ E) as [Hc Hd].
    destruct (IH _ _ H) as [IHc IHd].
    split; intros Hs.
    + rewrite <- (Hc Hs). apply IHc. now rewrite (Hc Hs).
    + rewrite <- (Hd Hs). apply IHd. now rewrite (Hd Hs).
Qed.

(** A patch that sets a valid status and nothing else always applies. *)
Lemma applyPatch_status now r s :
  LeadsUpdate.isValidStatus s = true ->
  LeadsUpdate.normalizeStatus (VStr s) = Ok s ->
  exists out,
    LeadsUpdate.applyPatch now r (statusPatch s) = Ok out
    /\ LeadRecord.status out = s.
Proof.
  intros Hv Hn. unfold LeadsUpdate.applyPatch.
  change (truthy (statusPatch s) && typeof_object (statusPatch s)) with true.
  cbv iota.
  change (get (statusPatch s) (lit "status")) with (VStr s).
  change (get (statusPatch s) (lit "internal_notes")) with VUndefined.
  change (get (statusPatch s) (lit "tags")) with VUndefined.
  change (get (statusPatch s) (lit "archived")) with VUndefined.
  cbn [nullish negb]. rewrite Hn. cbn [mbind result_bind]. rewrite Hv.
  eexists. split; reflexivity.
Qed.

(** C2.  A successful patch refreshes [updated_at]; [contacted_at] is
    stamped exactly when the status changes to [contacted] and the stamp
    was unset, [closed_at] exactly when it changes to [closed] or [booked]
    and the stamp was unset; a stamp that is set survives this and every
    later patch, and what the patch writes is a set stamp; and of two
    applications of [{status: "contacted"}] the second leaves the stamp of
    the first, which is the instant of the first when the record was not
    yet contacted and unstamped. *)
Theorem C2_lifecycle_stamps now existing patch out :
  LeadsUpdate.applyPatch now existing patch = Ok out ->
  LeadRecord.updated_at out = toISOString now
  /\ (LeadRecord.status existing <> LeadRecord.status out ->
      LeadRecord.status out = lit "contacted" ->
      LeadRecord.contacted_at out
      = if LeadsUpdate.unset (LeadRecord.contacted_at existing)
        then Some (toISOString now) else LeadRecord.contacted_at existing)
  /\ (LeadRecord.status existing <> LeadRecord.status out ->
      LeadRecord.status out = lit "closed" \/ LeadRecord.status out = lit "booked" ->
      LeadRecord.closed_at out
      = if LeadsUpdate.unset (LeadRecord.closed_at existing)
        then Some (toISOString now) else LeadRecord.closed_at existing)
  /\ (LeadRecord.contacted_at out <> LeadRecord.contacted_at existing ->
      LeadRecord.status existing <> LeadRecord.status out
      /\ LeadRecord.status out = lit "contacted"
      /\ LeadsUpdate.unset (LeadRecord.contacted_at existing) = true)
  /\ (LeadRecord.closed_at out <> LeadRecord.closed_at existing ->
      LeadRecord.status existing <> LeadRecord.status out
      /\ (LeadRecord.status out = lit "closed" \/ LeadRecord.status out = lit "booked")
      /\ LeadsUpdate.unset (LeadRecord.closed_at existing) = true)
  /\ (forall later r, applyAll later out = Ok r ->
      (LeadsUpdate.unset (LeadRecord.contacted_at existing) = false ->
       LeadRecord.contacted_at r = LeadRecord.contacted_at existing)
      /\ (LeadsUpdate.unset (LeadRecord.closed_at existing) = false ->
          LeadRecord.closed_at r = LeadRecord.closed_at existing))
  /\ LeadsUpdate.unset (Some (toISOString now)) = false
  /\ (forall t1 t2 r0, exists r1 r2,
        LeadsUpdate.applyPatch t1 r0 (statusPatch (lit "contacted")) = Ok r1
        /\ LeadsUpdate.applyPatch t2 r1 (statusPatch (lit "contacted")) = Ok r2
        /\ LeadRecord.contacted_at r2 = LeadRecord.contacted_at r1
        /\ (LeadRecord.status r0 <> lit "contacted" ->
            LeadsUpdate.unset (LeadRecord.contacted_at r0) = true ->
            LeadRecord.contacted_at r1 = Some (toISOString t1))).
Proof.
  intros H. destruct (applyPatch_fields _ _ _ _ H) as (Hu & Hc & Hd & _).
  cbv zeta in Hc, Hd.
  split; [exact Hu|]. split; [|split; [|split; [|split; [|split; [|split]]]]].
  - intros Hne Hs. rewrite Hc.
    rewrite (proj2 (str_eqb_neq _ _) Hne), (proj2 (str_eqb_eq _ _) Hs). reflexivity.
  - intros Hne Hs. rewrite Hd. rewrite (proj2 (str_eqb_neq _ _) Hne).
    destruct Hs as [Hs | Hs]; rewrite (proj2 (str_eqb_eq _ _) Hs);
      rewrite ?orb_true_r; reflexivity.
  - intros Hne. rewrite Hc in Hne.
    destruct (str_eqb (LeadRecord.status existing) (LeadRecord.status out)) eqn:E1;
      [now contradiction Hne|].
    destruct (str_eqb (LeadRecord.status out) (lit "contacted")) eqn:E2;
      [|now contradiction Hne].
    destruct (LeadsUpdate.unset (LeadRecord.contacted_at existing)) eqn:E3;
      [|now contradiction Hne].
    repeat split; [now apply str_eqb_neq | now apply str_eqb_eq].
  - intros Hne. rewrite Hd in Hne.
    destruct (str_eqb (LeadRecord.status existing) (LeadRecord.status out)) eqn:E1;
      [now contradiction Hne|].
    destruct (LeadsUpdate.unset (LeadRecord.closed_at existing)) eqn:E3;
      [|rewrite andb_false_r in Hne; now contradiction Hne].
    destruct (str_eqb (LeadRecord.status out) (lit "closed")) eqn:E2.
    + repeat split; [now apply str_eqb_neq | left; now apply str_eqb_eq].
    + destruct (str_eqb (LeadRecord.status out) (lit "booked")) eqn:E4;
        [|now contradiction Hne].
      repeat split; [now apply str_eqb_neq | right; now apply str_eqb_eq].
  - intros later r Hr. destruct (stamps_kept _ _ _ _ H) as [Kc Kd].
    destruct (stamps_kept_all _ _ _ Hr) as [Lc Ld].
    split; intros Hs.
    + rewrite <- (Kc Hs). apply Lc. now rewrite (Kc Hs).
    + rewrite <- (Kd Hs). apply Ld. now rewrite (Kd Hs).
  - apply stamp_set.
  - intros t1 t2 r0.
    destruct (applyPatch_status t1 r0 (lit "contacted")) as (r1 & H1 & S1);
      [reflexivity | reflexivity |].
    destruct (applyPatch_status t2 r1 (lit "contacted")) as (r2 & H2 & S2);
      [reflexivity | reflexivity |].
    exists r1, r2. split; [exact H1|]. split; [exact H2|].
    destruct (applyPatch_fields _ _ _ _ H1) as (_ & C1 & _).
    destruct (applyPatch_fields _ _ _ _ H2) as (_ & C2 & _).
    cbv zeta in C1, C2. split.
    + rewrite C2, S1, S2, str_eqb_refl. reflexivity.
    + intros Hne Hs. rewrite C1, S1, Hs.
      rewrite (proj2 (str_eqb_neq _ _) Hne). reflexivity.
Qed.

Lemma C2_witness :
  LeadRecord.updated_at Sample2.contactedA = toISOString (Sample.t0 + 1000)
  /\ LeadRecord.contacted_at Sample2.contactedA = Some (toISOString (Sample.t0 + 1000)).
Proof.
  assert (H : LeadsUpdate.applyPatch (Sample.t0 + 1000) Sample.recordA
                (statusPatch (lit "contacted")) = Ok Sample2.contactedA)
    by (vm_compute; reflexivity).
  destruct (C2_lifecycle_stamps _ _ _ _ H) as (Hu & Hc & _).
  split; [exact Hu|]. apply Hc; [vm_compute; discriminate | vm_compute; reflexivity].
Defined.

(* ===================================================================== *)
(** ** Status validation *)
(* ===================================================================== *)

Lemma isValidStatus_length s :
  LeadsUpdate.isValidStatus s = true -> (List.length s <= 9)%nat.
Proof.
  unfold LeadsUpdate.isValidStatus, LeadsUpdate.VALID_STATUSES. cbn [existsb].
  rewrite !orb_true_iff, !str_eqb_eq.
  intros [H|[H|[H|[H|[H|H]]]]]; try discriminate H; subst s; vm_compute; lia.
Qed.

Lemma toLowerCase_length s : List.length (toLowerCase s) = List.length s.
Proof. apply length_map. Qed.

(** Truncation to 30 characters never turns a text into a status. *)
Lemma valid_sanitized s :
  LeadsUpdate.isValidStatus (toLowerCase (sanitizeText s 30))
  = LeadsUpdate.isValidStatus (toLowerCase (trim s)).
Proof.
  unfold sanitizeText. destruct (trim s) as [|c r] eqn:E; [reflexivity|].
  destruct (30 <? List.length (c :: r))%nat eqn:L; [|reflexivity].
  apply Nat.ltb_lt in L.
  destruct (LeadsUpdate.isValidStatus (toLowerCase (take 30 (c :: r)))) eqn:V1.
  { apply isValidStatus_length in V1. rewrite toLowerCase_length, length_take in V1. lia. }
  destruct (LeadsUpdate.isValidStatus (toLowerCase (c :: r))) eqn:V2; [|reflexivity].
  apply isValidStatus_length in V2. rewrite toLowerCase_length in V2. lia.
Qed.

(** A value with a property that is neither [null] nor [undefined],
    other than the [length] of an array, is an object. *)
Lemma get_object o k :
  nullish (get o k) = false -> k <> lit "length" ->
  truthy o && typeof_object o = true.
Proof.
  destruct o; try discriminate; [|reflexivity].
  unfold get. intros H Hk. apply str_eqb_neq in Hk. now rewrite Hk in H.
Qed.

(** C3 as amended.  An authorized update whose patch has a status that
    is neither [null] nor absent and whose text, a text in Latin-1,
    trimmed of white space and lower-cased, is not in the status set is
    answered 400, and the store is returned as it was; [applyPatch]
    throws on such a patch. *)
Theorem C3_invalid_status_rejected env now write_ok req context store id patch v s :
  authorized env req context ->
  updateOf req id patch ->
  get patch (lit "status") = v ->
  nullish v = false ->
  ToString v = Ok s ->
  latin1 s ->
  caseInsensitiveMember (trim s) = false ->
  LeadsUpdate.handler env now write_ok req context store
  = (Response 400 (PError LeadsUpdate.invalidStatus), store)
  /\ forall existing,
       LeadsUpdate.applyPatch now existing patch = Throw (Error (lit "Invalid status")).
Proof.
  intros [Hjwt Hadm] (Hm & Hb1 & Hb2 & Hid & Hkey & Hp) Hv Hn Hs _ Hmem.
  assert (Hnorm : LeadsUpdate.normalizeStatus v = Ok (toLowerCase (sanitizeText s 30))).
  { unfold LeadsUpdate.normalizeStatus, sanitizeString. now rewrite Hn, Hs. }
  assert (Hinv : LeadsUpdate.isValidStatus (toLowerCase (sanitizeText s 30)) = false)
    by (rewrite valid_sanitized; exact Hmem).
  split.
  - unfold LeadsUpdate.handler, handleOptions.
    replace (str_eqb (Request.method req) (lit "OPTIONS")) with false
      by (destruct Hm as [-> | ->]; reflexivity).
    replace (negb (str_eqb (Request.method req) (lit "POST"))
             && negb (str_eqb (Request.method req) (lit "PATCH"))) with false
      by (destruct Hm as [-> | ->]; reflexivity).
    rewrite Hjwt, Hadm. cbv zeta. rewrite Hb1, Hb2, Hid, Hkey, Hp, Hv, Hn.
    cbn [negb orb]. rewrite Hnorm. cbn [mbind result_bind]. rewrite Hinv. reflexivity.
  - intros existing. unfold LeadsUpdate.applyPatch.
    assert (Hobj : truthy patch && typeof_object patch = true).
    { apply (get_object patch (lit "status")); [now rewrite Hv | discriminate]. }
    rewrite Hobj, Hv, Hn. cbn [negb]. rewrite Hnorm. cbn [mbind result_bind].
    rewrite Hinv. reflexivity.
Qed.

Lemma C3_witness :
  LeadsUpdate.handler Sample.envAdmin (Sample.t0 + 1000) true
    (Sample.updateRequest Sample.keyA (statusPatch (lit "archived")))
    Sample.ctxAdmin Sample.storeA
  = (Response 400 (PError LeadsUpdate.invalidStatus), Sample.storeA).
Proof.
  apply (C3_invalid_status_rejected Sample.envAdmin (Sample.t0 + 1000) true
           (Sample.updateRequest Sample.keyA (statusPatch (lit "archived")))
           Sample.ctxAdmin Sample.storeA Sample.keyA (statusPatch (lit "archived"))
           (VStr (lit "archived")) (lit "archived")).
  - split; reflexivity.
  - repeat split; try reflexivity. right. reflexivity.
  - reflexivity.
  - reflexivity.
  - reflexivity.
  - reflexivity.
  - reflexivity.
Defined.

(** The claim of C3 as it stands fails: the status [" Booked "] is in
    the status set in no letter case, and the authorized update of a
    stored lead with it is answered 200 and written to the store. *)
Lemma C3_counterexample :
  caseInsensitiveMember Sample2.paddedStatus = false
  /\ authorized Sample.envAdmin
       (Sample.updateRequest Sample.keyA (statusPatch Sample2.paddedStatus))
       Sample.ctxAdmin
  /\ updateOf (Sample.updateRequest Sample.keyA (statusPatch Sample2.paddedStatus))
       Sample.keyA (statusPatch Sample2.paddedStatus)
  /\ Store.leads Sample.storeA !! Sample.keyA = Some Sample.recordA
  /\ LeadsUpdate.handler Sample.envAdmin (Sample.t0 + 1000) true
       (Sample.updateRequest Sample.keyA (statusPatch Sample2.paddedStatus))
       Sample.ctxAdmin Sample.storeA
     = (Response 200 (PUpdated Sample2.bookedA),
        Store.set_lead Sample.keyA Sample2.bookedA Sample.storeA)
  /\ LeadRecord.status Sample2.bookedA = lit "booked"
  /\ Sample2.bookedA <> Sample.recordA.
Proof.
  split; [vm_compute; reflexivity|]. split; [split; vm_compute; reflexivity|].
  split; [repeat split; try (vm_compute; reflexivity); right; vm_compute; reflexivity|].
  split; [vm_compute; reflexivity|].
  split; [vm_compute; reflexivity|].
  split; [vm_compute; reflexivity|].
  intros H. apply (f_equal LeadRecord.status) in H. vm_compute in H. discriminate H.
Qed.

(* ===================================================================== *)
(** ** Tags *)
(* ===================================================================== *)

Lemma sanitizeText_length s n : (List.length (sanitizeText s n) <= n)%nat.
Proof.
  unfold sanitizeText. destruct (trim s) as [|c r]; [simpl; lia|].
  destruct (n <? List.length (c :: r))%nat eqn:L.
  - rewrite length_take. lia.
  - apply Nat.ltb_ge in L. exact L.
Qed.

Lemma sanitizeString_length v n t :
  sanitizeString v n = Ok t -> (List.length t <= n)%nat.
Proof.
  unfold sanitizeString. destruct (nullish v).
  - intros [= <-]. simpl. lia.
  - destruct (ToString v); [|discriminate]. intros [= <-]. apply sanitizeText_length.
Qed.

Lemma sanitizeTags_each tags texts :
  LeadsUpdate.sanitizeTags tags = Ok texts ->
  Forall2 (fun item text => sanitizeString item 40 = Ok text) tags texts.
Proof.
  revert texts. induction tags as [|t tags IH]; intros texts H.
  - injection H as <-. constructor.
  - cbn [LeadsUpdate.sanitizeTags] in H. bind_ok H. bind_ok H.
    injection H as <-. constructor; auto.
Qed.

Lemma sanitized_lengths items texts :
  Forall2 (fun item text => sanitizeString item 40 = Ok text) items texts ->
  Forall (fun text => (List.length text <= 40)%nat) texts.
Proof.
  induction 1 as [|item text items texts H _ IH]; constructor; [|exact IH].
  exact (sanitizeString_length _ _ _ H).
Qed.

Lemma applyPatch_tags now existing patch v out :
  get patch (lit "tags") = v ->
  nullish v = false ->
  LeadsUpdate.applyPatch now existing patch = Ok out ->
  exists texts,
    LeadsUpdate.sanitizeTags (tagItems v) = Ok texts
    /\ LeadRecord.tags out = take 25 (List.filter nonEmpty texts).
Proof.
  intros Hv Hn H.
  assert (Hobj : truthy patch && typeof_object patch = true).
  { apply (get_object patch (lit "tags")); [now rewrite Hv | discriminate]. }
  unfold LeadsUpdate.applyPatch in H. rewrite Hobj, Hv, Hn in H.
  bind_ok H. bind_ok H. bind_ok H. injection H as <-. cbn [LeadRecord.tags].
  match goal with
  | E : (if negb false then _ else _) = Ok _ |- _ => cbn [negb] in E; bind_ok E;
      injection E as <-
  end.
  eexists. split; [eassumption | reflexivity].
Qed.

(** C8 as amended.  A patch with a [tags] field that is neither [null]
    nor absent, when it applies, sets the tags to the first 25 non-empty
    texts among the sanitized texts of the supplied elements, in their
    order: each tag is the text of an element (of a string or of any
    other value) trimmed and cut to 40 characters, none is empty, and
    [null] and [undefined] elements, with sanitized text empty, are
    dropped; a field that is no array gives no tags. *)
Theorem C8_tags_sanitized now existing patch v out :
  get patch (lit "tags") = v ->
  nullish v = false ->
  LeadsUpdate.applyPatch now existing patch = Ok out ->
  (exists texts,
      Forall2 (fun item text => sanitizeString item 40 = Ok text) (tagItems v) texts
      /\ LeadRecord.tags out = take 25 (List.filter nonEmpty texts))
  /\ (List.length (LeadRecord.tags out) <= 25)%nat
  /\ Forall (fun tag => tag <> [] /\ (List.length tag <= 40)%nat) (LeadRecord.tags out)
  /\ sanitizeString VNull 40 = Ok [] /\ sanitizeString VUndefined 40 = Ok [].
Proof.
  intros Hv Hn H.
  destruct (applyPatch_tags _ _ _ _ _ Hv Hn H) as (texts & Ht & ->).
  apply sanitizeTags_each in Ht. pose proof (sanitized_lengths _ _ Ht) as Hl.
  split; [exists texts; split; [exact Ht | reflexivity]|].
  split; [rewrite length_take; lia|].
  split; [|split; reflexivity].
  apply Forall_take, List.Forall_forall. intros tag Hin.
  apply filter_In in Hin as [Hin Hne].
  split; [now destruct tag|].
  rewrite List.Forall_forall in Hl. now apply Hl.
Qed.

Lemma C8_witness :
  LeadRecord.tags Sample2.taggedA = [lit "true"; lit "5"; lit "gel"]
  /\ (List.length (LeadRecord.tags Sample2.taggedA) <= 25)%nat.
Proof.
  assert (H : LeadsUpdate.applyPatch (Sample.t0 + 1000) Sample.recordA Sample2.mixedTags
              = Ok Sample2.taggedA) by (vm_compute; reflexivity).
  destruct (C8_tags_sanitized (Sample.t0 + 1000) Sample.recordA Sample2.mixedTags
              (get Sample2.mixedTags (lit "tags")) Sample2.taggedA eq_refl eq_refl H)
    as (_ & Hlen & _).
  split; [vm_compute; reflexivity | exact Hlen].
Defined.

(** The claim of C8 as it stands fails: of the tags [true], [5], [null],
    ["  "] and [" gel "] the two that are no strings and not [null] are
    kept, as the texts ["true"] and ["5"]. *)
Lemma C8_counterexample :
  LeadsUpdate.applyPatch (Sample.t0 + 1000) Sample.recordA Sample2.mixedTags
  = Ok Sample2.taggedA
  /\ tagItems (get Sample2.mixedTags (lit "tags"))
     = [VBool true; VNum 5; VNull; VStr (lit "  "); VStr (lit " gel ")]
  /\ LeadRecord.tags Sample2.taggedA = [lit "true"; lit "5"; lit "gel"].
Proof. repeat split; vm_compute; reflexivity. Qed.

(* ===================================================================== *)
(** ** Intake *)
(* ===================================================================== *)

Lemma method_POST req :
  Request.method req = lit "POST" ->
  handleOptions req = None
  /\ negb (str_eqb (Request.method req) (lit "POST")) = false.
Proof. intros H. unfold handleOptions. rewrite H. split; reflexivity. Qed.

(** The handler on a submission: the honeypot, then validation, then
    the rate limiter and the write. *)
Lemma handler_submission env w req context store hp :
  submission req hp ->
  LeadsCreate.handler env w req context store
  = match hp with
    | _ :: _ => (Response 400 (PError (lit "Spam detected")), store)
    | [] =>
        match LeadsCreate.validatePayload (Request.body req) with
        | Throw e => (Uncaught e, store)
        | Ok (LeadsCreate.Invalid error) => (Response 400 (PError error), store)
        | Ok (LeadsCreate.Valid lead) =>
            match LeadsCreate.rateLimit w req context store with
            | inl limited => (limited, store)
            | inr store1 =>
                let key := newLeadKey (LeadsCreate.now w) (LeadsCreate.uuid w) in
                let suggested_dm := LeadsCreate.suggestedDm env w lead in
                if LeadsCreate.lead_write_ok w
                then (Response 200 (PCreated key suggested_dm),
                      Store.set_lead key
                        (LeadsCreate.leadRecord w req context key lead suggested_dm) store1)
                else (Uncaught LeadsCreate.storeFailure, store1)
            end
        end
    end.
Proof.
  intros (Hm & Hsize & Hhp & Hlen). unfold LeadsCreate.handler.
  destruct (method_POST req Hm) as [-> ->]. rewrite Hsize. cbv zeta.
  unfold honeypot in Hhp. rewrite Hhp.
  destruct hp; [|reflexivity].
  apply N.ltb_ge in Hlen. rewrite Hlen. reflexivity.
Qed.




(* ===================================================================== *)
(** ** The suggested message *)
(* ===================================================================== *)

(** A 200 of the create function comes from its last step only. *)
Lemma handler_created env w req context store id dm store' :
  LeadsCreate.handler env w req context store = (Response 200 (PCreated id dm), store') ->
  submission req []
  /\ exists lead store1,
       LeadsCreate.validatePayload (Request.body req) = Ok (LeadsCreate.Valid lead)
       /\ LeadsCreate.rateLimit w req context store = inr store1
       /\ LeadsCreate.lead_write_ok w = true
       /\ id = newLeadKey (LeadsCreate.now w) (LeadsCreate.uuid w)
       /\ dm = LeadsCreate.suggestedDm env w lead
       /\ store' = Store.set_lead id (LeadsCreate.leadRecord w req context id lead dm) store1.
Proof.
  unfold LeadsCreate.handler, handleOptions, submission, honeypot.
  destruct (str_eqb (Request.method req) (lit "OPTIONS")); [discriminate|].
  destruct (str_eqb (Request.method req) (lit "POST")) eqn:Hm; [|discriminate].
  apply str_eqb_eq in Hm. cbn [negb].
  destruct (isPayloadTooLarge req 10000); [discriminate|]. cbv zeta.
  destruct (if truthy (Request.body req) && typeof_object (Request.body req)
            then sanitizeString (get (Request.body req) (lit "hp")) 200 else Ok [])
    as [[|c hp]|e]; [|discriminate|discriminate].
  destruct (10000 <? _)%N eqn:Hlen; [discriminate|]. apply N.ltb_ge in Hlen.
  destruct (LeadsCreate.validatePayload (Request.body req)) as [[error|lead]|e];
    [discriminate| |discriminate].
  destruct (LeadsCreate.rateLimit w req context store) as [limited|store1] eqn:Hrate.
  - unfold LeadsCreate.rateLimit in Hrate.
    destruct (getClientIp req context); [discriminate|].
    destruct (rateKeyForIp _); [discriminate|].
    destruct (negb _); [discriminate|].
    destruct (LeadsCreate.rateWindow _ _);
      [destruct (LeadsCreate.rate_write_ok w); discriminate|].
    injection Hrate as <-. discriminate.
  - destruct (LeadsCreate.lead_write_ok w); [|discriminate].
    intros [= <- <- <-]. repeat split; try assumption.
    exists lead, store1. repeat split.
Qed.

Lemma capped_length text : (List.length (capped text) <= 550)%nat.
Proof.
  unfold capped. destruct (550 <? List.length (trim text))%nat eqn:L.
  - rewrite length_take. lia.
  - now apply Nat.ltb_ge in L.
Qed.

Lemma fallbackDm_length name :
  (0 < List.length (LeadsCreate.fallbackDm name) <= 550)%nat.
Proof.
  unfold LeadsCreate.fallbackDm.
  assert (Hfirst : (List.length (match sanitizeText name 40 with
                                 | [] => lit "there" | s => s end) <= 40)%nat).
  { pose proof (sanitizeText_length name 40).
    destruct (sanitizeText name 40); [vm_compute; lia | assumption]. }
  revert Hfirst. generalize (match sanitizeText name 40 with
                             | [] => lit "there" | s => s end). intros first Hfirst.
  rewrite !length_app.
  repeat match goal with
  | |- context [List.length (lit ?s)] =>
      let n := eval vm_compute in (List.length (lit s)) in
      change (List.length (lit s)) with n
  end.
  let n := eval vm_compute in (List.length LeadsCreate.BOOKING_SCRIPT) in
  change (List.length LeadsCreate.BOOKING_SCRIPT) with n.
  cbn [List.length]. lia.
Qed.

(** The message is the capped text of the service when there is a key,
    the service answers and the trimmed answer is not empty; it is the
    template in every other case. *)
Lemma suggestedDm_cases env w lead :
  (exists text,
      ~ not_configured (Env.OPENAI_API_KEY env)
      /\ LeadsCreate.service w = LeadsCreate.ServiceText text
      /\ capped text <> []
      /\ LeadsCreate.suggestedDm env w lead = capped text)
  \/ ((not_configured (Env.OPENAI_API_KEY env)
       \/ LeadsCreate.service w = LeadsCreate.ServiceFails
       \/ exists text, LeadsCreate.service w = LeadsCreate.ServiceText text
                       /\ capped text = [])
      /\ LeadsCreate.suggestedDm env w lead = LeadsCreate.fallbackDm (Lead.name lead)).
Proof.
  unfold LeadsCreate.suggestedDm, LeadsCreate.generateSuggestedDm, not_configured.
  destruct (str_or (Env.OPENAI_API_KEY env) []) as [|k key] eqn:Hkey.
  { right. split; [now left | reflexivity]. }
  destruct (LeadsCreate.service w) as [|text] eqn:Hs.
  { right. split; [right; now left | reflexivity]. }
  fold (capped text). destruct (capped text) as [|c r] eqn:Hc.
  - right. split; [right; right; now exists text | reflexivity].
  - left. exists text. repeat split; congruence.
Qed.

(** What the rate limiter writes: no lead, and no window but the one of
    the source. *)
Lemma rateLimit_writes w req context store :
  match LeadsCreate.rateLimit w req context store with
  | inl _ => True
  | inr store1 =>
      Store.leads store1 = Store.leads store
      /\ forall rk, rk <> rateKeyForIp (getClientIp req context) ->
                    Store.rate store1 !! rk = Store.rate store !! rk
  end.
Proof.
  unfold LeadsCreate.rateLimit. destruct (getClientIp req context) as [|c ip]; [auto|].
  destruct (rateKeyForIp (c :: ip)) as [|k rk]; [auto|].
  destruct (negb _); [auto|]. destruct (LeadsCreate.rateWindow _ _); [|exact I].
  destruct (LeadsCreate.rate_write_ok w); [|auto].
  split; [reflexivity|]. intros rk' Hne. unfold Store.set_rate. cbn [Store.rate].
  now rewrite lookup_insert_ne.
Qed.

(** The name of a validated lead is not empty and begins with no white
    space. *)
Lemma validated_name body lead :
  LeadsCreate.validatePayload body = Ok (LeadsCreate.Valid lead) ->
  Lead.name lead <> [] /\ cleanStart (Lead.name lead).
Proof.
  unfold LeadsCreate.validatePayload.
  destruct (negb (truthy body) || negb (typeof_object body)); [discriminate|].
  intros H. bind_ok H. bind_ok H. bind_ok H.
  rename a into name, a0 into phone, a1 into instagram.
  assert (Hc : cleanStart name).
  { unfold sanitizeString in E. destruct (nullish _); [now injection E as <-|].
    bind_ok E. injection E as <-. apply sanitizeText_cleanStart. }
  destruct name as [|c name]; [discriminate|].
  assert (H' : exists service availability notes contact_preference budget length style,
             lead = Lead.mk (c :: name) phone instagram service availability notes
                      contact_preference budget length style).
  { destruct phone, instagram; try discriminate H;
      repeat bind_ok H; injection H as <-; do 7 eexists; reflexivity. }
  destruct H' as (? & ? & ? & ? & ? & ? & ? & ->). cbn [Lead.name].
  split; [discriminate | exact Hc].
Qed.

(** A text that begins with no white space keeps its first 40
    characters, at least one, through [sanitizeString(name, 40)]. *)
Lemma first_name name :
  name <> [] -> cleanStart name ->
  sanitizeText name 40 = take 40 (trim name) /\ take 40 (trim name) <> [].
Proof.
  intros Hne Hc. split; [apply sanitizeText_take|].
  rewrite <- sanitizeText_take. apply sanitizeText_nonempty; [|lia].
  destruct name as [|c r]; [contradiction|]. cbn [cleanStart] in Hc.
  unfold trim. rewrite (trimStart_keep c r Hc). unfold trimEnd. cbn [rev].
  destruct (trimStart_last (rev r) c Hc) as (l' & ->).
  rewrite rev_app_distr. discriminate.
Qed.

Lemma fallbackDm_template name :
  name <> [] -> cleanStart name ->
  LeadsCreate.fallbackDm name = template (take 40 (trim name)).
Proof.
  intros Hne Hc. destruct (first_name name Hne Hc) as [E Hf].
  unfold LeadsCreate.fallbackDm, template. rewrite E.
  destruct (take 40 (trim name)); [contradiction | reflexivity].
Qed.

(** A valid submission with credentials for the service reaches the call
    of the service. *)
Lemma awaitsService_valid env w req context store lead store1 :
  submission req [] ->
  LeadsCreate.validatePayload (Request.body req) = Ok (LeadsCreate.Valid lead) ->
  LeadsCreate.rateLimit w req context store = inr store1 ->
  ~ not_configured (Env.OPENAI_API_KEY env) ->
  awaitsService env w req context store = Some (lead, store1).
Proof.
  intros (Hm & Hsize & Hhp & Hlen) Hval Hrate Hkey.
  unfold awaitsService, handleOptions. rewrite Hm.
  change (str_eqb (lit "POST") (lit "OPTIONS")) with false.
  change (negb (str_eqb (lit "POST") (lit "POST"))) with false. cbv iota.
  rewrite Hsize. cbv zeta. rewrite Hhp.
  rewrite (proj2 (N.ltb_ge _ _) Hlen), Hval, Hrate.
  unfold not_configured in Hkey.
  destruct (str_or (Env.OPENAI_API_KEY env) []); [contradiction | reflexivity].
Qed.

(** C7 as amended.  When a lead is created, the suggested message of the
    response is not empty and has at most 550 characters, and the record
    stored under the returned id carries the same message.  It is the
    trimmed text of the generation service, cut to 550 characters, when
    credentials are set, the call succeeds and that text is not empty;
    it is the template, "Hi" and the first 40 characters of the name of
    the lead followed by the question and the booking instructions,
    when the credentials are missing, the call fails or the text is
    empty.  The creation does not fail on it: with any credentials and
    however the call of the service settles, the same submission creates
    the lead under the same id.  The creation waits for the call: while
    a call made with credentials is pending the handler gives no
    response and no lead is stored. *)
Theorem C7_suggested_dm env w req context store id dm store' :
  LeadsCreate.handler env w req context store = (Response 200 (PCreated id dm), store') ->
  dm <> [] /\ (List.length dm <= 550)%nat
  /\ (exists r, Store.leads store' !! id = Some r /\ LeadRecord.suggested_dm r = dm)
  /\ (exists lead,
        LeadsCreate.validatePayload (Request.body req) = Ok (LeadsCreate.Valid lead)
        /\ take 40 (trim (Lead.name lead)) <> []
        /\ (forall text,
              ~ not_configured (Env.OPENAI_API_KEY env) ->
              LeadsCreate.service w = LeadsCreate.ServiceText text ->
              capped text <> [] -> dm = capped text)
        /\ (not_configured (Env.OPENAI_API_KEY env)
            \/ LeadsCreate.service w = LeadsCreate.ServiceFails
            \/ (exists text, LeadsCreate.service w = LeadsCreate.ServiceText text
                             /\ capped text = []) ->
            dm = template (take 40 (trim (Lead.name lead)))))
  /\ (forall key g, exists dm' store'',
        handlerOn (with_api_key env key) w (Settled g) req context store
        = (Some (Response 200 (PCreated id dm')), store''))
  /\ (forall key,
        ~ not_configured key ->
        exists store1,
          handlerOn (with_api_key env key) w Pending req context store = (None, store1)
          /\ Store.leads store1 = Store.leads store).
Proof.
  intros H.
  destruct (handler_created _ _ _ _ _ _ _ _ H)
    as (Hsub & lead & store1 & Hval & Hrate & Hwrite & Hid & Hdm & Hstore).
  destruct (validated_name _ _ Hval) as [Hname Hclean].
  pose proof (fallbackDm_template _ Hname Hclean) as Htemplate.
  assert (Hne : dm <> [] /\ (List.length dm <= 550)%nat).
  { rewrite Hdm.
    destruct (suggestedDm_cases env w lead) as [(text & _ & _ & Hc & ->) | [_ ->]].
    - split; [exact Hc | apply capped_length].
    - pose proof (fallbackDm_length (Lead.name lead)) as Hl.
      split; [|lia]. intros E. rewrite E in Hl. simpl in Hl. lia. }
  destruct Hne as [Hne Hlen]. split; [exact Hne|]. split; [exact Hlen|].
  split; [|split; [|split]].
  - exists (LeadsCreate.leadRecord w req context id lead dm).
    rewrite Hstore. unfold Store.set_lead. cbn [Store.leads].
    rewrite lookup_insert_eq. split; reflexivity.
  - exists lead. split; [exact Hval|].
    split; [exact (proj2 (first_name _ Hname Hclean))|]. split.
    + intros text Hkey Hs Hc. rewrite Hdm.
      destruct (suggestedDm_cases env w lead)
        as [(text' & _ & Hs' & _ & ->) | [[Hk | [Hf | (text' & Hs' & Hc')]] _]];
        try congruence; try contradiction.
    + intros Hcase. rewrite Hdm, <- Htemplate.
      destruct (suggestedDm_cases env w lead)
        as [(text & Hkey & Hs & Hc & _) | [_ ->]]; [|reflexivity].
      exfalso. destruct Hcase as [Hk | [Hf | (text' & Hs' & Hc')]];
        try contradiction; congruence.
  - intros key g. unfold handlerOn.
    rewrite (handler_submission _ _ req context store [] Hsub), Hval.
    change (LeadsCreate.rateLimit (with_service w g) req context store)
      with (LeadsCreate.rateLimit w req context store).
    rewrite Hrate. cbv zeta.
    change (LeadsCreate.lead_write_ok (with_service w g))
      with (LeadsCreate.lead_write_ok w).
    rewrite Hwrite, Hid. eexists. eexists. reflexivity.
  - intros key Hkey. exists store1. unfold handlerOn.
    rewrite (awaitsService_valid (with_api_key env key) w req context store lead store1
               Hsub Hval Hrate Hkey).
    split; [reflexivity|].
    pose proof (rateLimit_writes w req context store) as Hw. rewrite Hrate in Hw.
    exact (proj1 Hw).
Qed.

Lemma C7_witness :
  LeadsCreate.handler Sample.envNone (Sample.world Sample.t0 LeadsCreate.ServiceFails)
    Sample3.jessRequest Sample.ctxPublic Sample3.emptyStore
  = (Response 200 (PCreated Sample.keyA (LeadsCreate.fallbackDm (lit "Jess"))),
     Sample3.jessStore)
  /\ LeadsCreate.fallbackDm (lit "Jess") = template (lit "Jess")
  /\ (List.length (LeadsCreate.fallbackDm (lit "Jess")) <= 550)%nat.
Proof.
  assert (H : LeadsCreate.handler Sample.envNone
                (Sample.world Sample.t0 LeadsCreate.ServiceFails)
                Sample3.jessRequest Sample.ctxPublic Sample3.emptyStore
              = (Response 200 (PCreated Sample.keyA (LeadsCreate.fallbackDm (lit "Jess"))),
                 Sample3.jessStore))
    by (vm_compute; reflexivity).
  destruct (C7_suggested_dm _ _ _ _ _ _ _ _ H)
    as (_ & Hlen & _ & (lead & Hval & _ & _ & Ht) & _).
  split; [exact H|]. split; [|exact Hlen].
  assert (Hj : LeadsCreate.validatePayload (Request.body Sample3.jessRequest)
               = Ok (LeadsCreate.Valid Sample.jess)) by (vm_compute; reflexivity).
  rewrite Hj in Hval. injection Hval as <-.
  rewrite Ht by (left; reflexivity). vm_compute. reflexivity.
Defined.

(** The claim of C7 as it stands fails where it says that the production
    of the message never blocks the creation: the submission of Jess is
    valid and credentials are set, and while the call of the service is
    pending the handler has given no response and no lead is stored
    under the key of the submission; the same submission with a call
    that fails is answered 200 and stored. *)
Lemma C7_counterexample :
  submission Sample3.jessRequest []
  /\ LeadsCreate.validatePayload (Request.body Sample3.jessRequest)
     = Ok (LeadsCreate.Valid Sample.jess)
  /\ (exists store1,
        handlerOn envKey (Sample.world Sample.t0 LeadsCreate.ServiceFails) Pending
          Sample3.jessRequest Sample.ctxPublic Sample3.emptyStore = (None, store1)
        /\ Store.leads store1 !! Sample.keyA = None)
  /\ handlerOn envKey (Sample.world Sample.t0 LeadsCreate.ServiceFails)
       (Settled LeadsCreate.ServiceFails)
       Sample3.jessRequest Sample.ctxPublic Sample3.emptyStore
     = (Some (Response 200 (PCreated Sample.keyA (template (lit "Jess")))),
        Sample3.jessStore).
Proof.
  split; [repeat split; vm_compute; (reflexivity || discriminate)|].
  split; [vm_compute; reflexivity|]. split.
  - eexists. split; [vm_compute; reflexivity|]. vm_compute. reflexivity.
  - vm_compute. reflexivity.
Qed.
(* ===================================================================== *)
(** ** The rate limiter *)
(* ===================================================================== *)

Lemma rateWindow_fresh prev t :
  noWindow prev t -> LeadsCreate.rateWindow prev t = Some (RateWindow.mk t 1 t).
Proof.
  unfold noWindow, LeadsCreate.rateWindow. destruct prev as [w|]; [|reflexivity].
  intros H. simpl.
  replace (t - RateWindow.window_start_at w <? LeadsCreate.WINDOW_MS)%Z with false
    by (symmetry; apply Z.ltb_ge; lia).
  rewrite andb_false_r. reflexivity.
Qed.

Lemma rateWindow_running s n l t :
  s <> 0%Z -> (t - s < LeadsCreate.WINDOW_MS)%Z ->
  LeadsCreate.rateWindow (Some (RateWindow.mk s n l)) t
  = if (LeadsCreate.MAX_REQ <=? n)%Z then None
    else Some (RateWindow.mk s (n + 1) t).
Proof.
  intros Hs Ht. unfold LeadsCreate.rateWindow. simpl.
  rewrite (proj2 (Z.eqb_neq s 0) Hs), (proj2 (Z.ltb_lt _ _) Ht). reflexivity.
Qed.

(** The handler on a valid submission of a source with a rate key. *)
Lemma handler_valid env ip t w req context store :
  ip <> [] -> rateKeyForIp ip <> [] ->
  validFrom ip t (w, req, context) ->
  exists lead dm,
    LeadsCreate.handler env w req context store
    = match LeadsCreate.rateWindow (Store.rate store !! rateKeyForIp ip) t with
      | None => (Response 429 (PError (lit "Too many requests")), store)
      | Some next =>
          (Response 200 (PCreated (newLeadKey t (LeadsCreate.uuid w)) dm),
           Store.set_lead (newLeadKey t (LeadsCreate.uuid w))
             (LeadsCreate.leadRecord w req context (newLeadKey t (LeadsCreate.uuid w))
                lead dm)
             (Store.set_rate (rateKeyForIp ip) next store))
      end.
Proof.
  intros Hip Hrk (Hsub & (lead & Hval) & Hsrc & Hnow & Hread & Hwrite & Hlead).
  rewrite (handler_submission env w req context store [] Hsub), Hval.
  unfold LeadsCreate.rateLimit. rewrite Hsrc, Hread, Hwrite, Hlead, Hnow.
  destruct ip as [|c ip]; [contradiction|].
  destruct (rateKeyForIp (c :: ip)) as [|k rk] eqn:Ek; [contradiction|].
  cbn [negb]. cbv zeta.
  exists lead, (LeadsCreate.suggestedDm env w lead).
  destruct (LeadsCreate.rateWindow _ t); reflexivity.
Qed.

Lemma rate_after_write key record rk next store :
  Store.rate (Store.set_lead key record (Store.set_rate rk next store)) !! rk = Some next.
Proof. unfold Store.set_lead, Store.set_rate. cbn [Store.rate]. apply lookup_insert_eq. Qed.

(** C1.  Of the valid submissions of one source with an address, the
    first at an instant [t1] at which no window of the source is running
    and three more within the ten minutes that follow: the first three are
    admitted, the fourth is answered 429; a fifth, ten minutes or more
    after [t1], is admitted and leaves a window that starts at its
    instant with count 1. *)
Theorem C1_rate_limit_window env ip store c1 c2 c3 c4 c5 t1 t2 t3 t4 t5 :
  ip <> [] ->
  noWindow (Store.rate store !! rateKeyForIp ip) t1 ->
  validFrom ip t1 c1 -> validFrom ip t2 c2 -> validFrom ip t3 c3 ->
  validFrom ip t4 c4 -> validFrom ip t5 c5 ->
  (0 < t1)%Z ->
  (t1 <= t2 < t1 + LeadsCreate.WINDOW_MS)%Z ->
  (t1 <= t3 < t1 + LeadsCreate.WINDOW_MS)%Z ->
  (t1 <= t4 < t1 + LeadsCreate.WINDOW_MS)%Z ->
  (t1 + LeadsCreate.WINDOW_MS <= t5)%Z ->
  exists o1 o2 o3 o5 store',
    run env [c1; c2; c3; c4; c5] store
    = ([o1; o2; o3; Response 429 (PError (lit "Too many requests")); o5], store')
    /\ accepted o1 /\ accepted o2 /\ accepted o3 /\ accepted o5
    /\ Store.rate store' !! rateKeyForIp ip = Some (RateWindow.mk t5 1 t5).
Proof.
  intros Hip Hfresh V1 V2 V3 V4 V5 Hpos H2 H3 H4 H5.
  destruct c1 as [[w1 req1] ctx1], c2 as [[w2 req2] ctx2], c3 as [[w3 req3] ctx3],
    c4 as [[w4 req4] ctx4], c5 as [[w5 req5] ctx5].
  assert (Hrk : rateKeyForIp ip <> []).
  { destruct V1 as (_ & _ & Hsrc & _). rewrite <- Hsrc in Hip |- *.
    now apply rateKey_of_client. }
  cbn [run].
  destruct (handler_valid env ip t1 w1 req1 ctx1 store Hip Hrk V1) as (l1 & d1 & ->).
  rewrite (rateWindow_fresh _ _ Hfresh).
  set (s1 := Store.set_lead _ _ _).
  assert (R1 : Store.rate s1 !! rateKeyForIp ip = Some (RateWindow.mk t1 1 t1))
    by apply rate_after_write.
  destruct (handler_valid env ip t2 w2 req2 ctx2 s1 Hip Hrk V2) as (l2 & d2 & ->).
  rewrite R1, rateWindow_running by lia.
  change (LeadsCreate.MAX_REQ <=? 1)%Z with false. cbv iota.
  set (s2 := Store.set_lead _ _ _).
  assert (R2 : Store.rate s2 !! rateKeyForIp ip = Some (RateWindow.mk t1 (1 + 1) t2))
    by apply rate_after_write.
  destruct (handler_valid env ip t3 w3 req3 ctx3 s2 Hip Hrk V3) as (l3 & d3 & ->).
  rewrite R2, rateWindow_running by lia.
  change (LeadsCreate.MAX_REQ <=? 1 + 1)%Z with false. cbv iota.
  set (s3 := Store.set_lead _ _ _).
  assert (R3 : Store.rate s3 !! rateKeyForIp ip = Some (RateWindow.mk t1 (1 + 1 + 1) t3))
    by apply rate_after_write.
  destruct (handler_valid env ip t4 w4 req4 ctx4 s3 Hip Hrk V4) as (l4 & d4 & ->).
  rewrite R3, rateWindow_running by lia.
  change (LeadsCreate.MAX_REQ <=? 1 + 1 + 1)%Z with true. cbv iota.
  destruct (handler_valid env ip t5 w5 req5 ctx5 s3 Hip Hrk V5) as (l5 & d5 & ->).
  rewrite R3, rateWindow_fresh by (cbn [noWindow RateWindow.window_start_at]; lia).
  do 5 eexists. split; [reflexivity|].
  repeat split; try (eexists; eexists; reflexivity). apply rate_after_write.
Qed.

Lemma C1_witness :
  exists o1 o2 o3 o5 store',
    run Sample.envNone
      [Sample3.jessCall Sample.t0;
       Sample3.jessCall (Sample.t0 + Sample3.minute);
       Sample3.jessCall (Sample.t0 + 5 * Sample3.minute);
       Sample3.jessCall (Sample.t0 + 9 * Sample3.minute);
       Sample3.jessCall (Sample.t0 + 10 * Sample3.minute)]
      Sample3.emptyStore
    = ([o1; o2; o3; Response 429 (PError (lit "Too many requests")); o5], store')
    /\ accepted o1 /\ accepted o2 /\ accepted o3 /\ accepted o5
    /\ Store.rate store' !! rateKeyForIp Sample3.source
       = Some (RateWindow.mk (Sample.t0 + 10 * Sample3.minute) 1
                 (Sample.t0 + 10 * Sample3.minute)).
Proof.
  assert (V : forall t, validFrom Sample3.source t (Sample3.jessCall t)).
  { intros t. repeat split; try reflexivity.
    - vm_compute. discriminate.
    - eexists. vm_compute. reflexivity. }
  apply (C1_rate_limit_window Sample.envNone Sample3.source Sample3.emptyStore
           _ _ _ _ _ Sample.t0 (Sample.t0 + Sample3.minute)
           (Sample.t0 + 5 * Sample3.minute) (Sample.t0 + 9 * Sample3.minute)
           (Sample.t0 + 10 * Sample3.minute)).
  - vm_compute. discriminate.
  - vm_compute. exact I.
  - apply V.
  - apply V.
  - apply V.
  - apply V.
  - apply V.
  - reflexivity.
  - vm_compute. split; [discriminate | reflexivity].
  - vm_compute. split; [discriminate | reflexivity].
  - vm_compute. split; [discriminate | reflexivity].
  - vm_compute. discriminate.
Defined.

(* ===================================================================== *)
(** ** Pagination *)
(* ===================================================================== *)

Lemma limit_default req :
  Request.param_limit req = None -> LeadsList.limit req = ofZ 50.
Proof. unfold LeadsList.limit. intros ->. reflexivity. Qed.

Lemma offset_default req :
  Request.param_offset req = None -> LeadsList.offset req = ofZ 0.
Proof. unfold LeadsList.offset. intros ->. reflexivity. Qed.

Lemma num_ltb_Fin x y : num_ltb (Fin x) (Fin y) = true <-> (x < y)%Q.
Proof.
  cbn [num_ltb]. rewrite negb_true_iff. split.
  - intros H. apply Qnot_le_lt. intros Hle. apply Qle_bool_iff in Hle. congruence.
  - intros H. destruct (Qle_bool y x) eqn:E; [|reflexivity].
    apply Qle_bool_iff in E. exfalso. exact (Qlt_not_le _ _ H E).
Qed.

Lemma num_ltb_Fin_false x y : num_ltb (Fin x) (Fin y) = false <-> (y <= x)%Q.
Proof.
  cbn [num_ltb]. rewrite negb_false_iff. apply Qle_bool_iff.
Qed.

(** Where the parameter is a number, the limit lies between 1 and 200. *)
Lemma limit_clamped req :
  Number (str_or (Request.param_limit req) (lit "50")) <> NaN ->
  exists q, LeadsList.limit req = Fin q /\ (1 <= q)%Q /\ (q <= 200)%Q.
Proof.
  unfold LeadsList.limit. destruct (Number _) as [| | |q]; intros Hn.
  - contradiction.
  - exists 200%Q. repeat split; discriminate.
  - exists 1%Q. repeat split; discriminate.
  - unfold Math_max, ofZ.
    destruct (num_ltb (Fin (inject_Z 1)) (Fin q)) eqn:E1.
    + apply num_ltb_Fin in E1. unfold Math_min.
      destruct (num_ltb (Fin q) (Fin (inject_Z 200))) eqn:E2.
      * apply num_ltb_Fin in E2. exists q.
        repeat split; apply Qlt_le_weak; assumption.
      * exists 200%Q. repeat split; discriminate.
    + exists 1%Q. split; [reflexivity|]. split; discriminate.
Qed.

(** Where the parameter is a number, the offset is not negative. *)
Lemma offset_nonnegative req :
  Number (str_or (Request.param_offset req) (lit "0")) <> NaN ->
  LeadsList.offset req = PInf
  \/ exists q, LeadsList.offset req = Fin q /\ (0 <= q)%Q.
Proof.
  unfold LeadsList.offset. destruct (Number _) as [| | |q]; intros Hn.
  - contradiction.
  - now left.
  - right. exists 0%Q. split; [reflexivity | discriminate].
  - right. unfold Math_max, ofZ.
    destruct (num_ltb (Fin (inject_Z 0)) (Fin q)) eqn:E.
    + apply num_ltb_Fin in E. exists q. split; [reflexivity | now apply Qlt_le_weak].
    + exists 0%Q. split; [reflexivity | discriminate].
Qed.

(** C9.  A [limit] that is no number is not clamped: [Number("abc")] is
    [NaN] and so are [Math.max(1, NaN)] and [Math.min(200, NaN)].  The
    list function then answers with limit [NaN] and an empty page though
    a lead matches, and likewise with an [offset] that is no number; with
    both parameters absent it answers with limit 50, offset 0 and the
    lead. *)
Theorem C9_limit_offset_not_a_number :
  LeadsList.limit (Sample.listRequest None (Some (lit "abc")) None) = NaN
  /\ LeadsList.handler Sample.envAdmin (Sample.listRequest None (Some (lit "abc")) None)
       Sample.ctxAdmin Sample.storeA [Sample.keyA]
     = Response 200 (PList 1 (ofZ 0) NaN [])
  /\ LeadsList.offset (Sample.listRequest None None (Some (lit "abc"))) = NaN
  /\ LeadsList.handler Sample.envAdmin (Sample.listRequest None None (Some (lit "abc")))
       Sample.ctxAdmin Sample.storeA [Sample.keyA]
     = Response 200 (PList 1 NaN (ofZ 50) [])
  /\ LeadsList.handler Sample.envAdmin (Sample.listRequest None None None)
       Sample.ctxAdmin Sample.storeA [Sample.keyA]
     = Response 200 (PList 1 (ofZ 0) (ofZ 50) [Sample.recordA]).
Proof. repeat split; vm_compute; reflexivity. Qed.

(* ===================================================================== *)
(** ** The order of keys *)
(* ===================================================================== *)

Lemma str_ltb_cons x a y b :
  str_ltb (x :: a) (y :: b) = true <-> (x < y)%N \/ (x = y /\ str_ltb a b = true).
Proof.
  cbn [str_ltb]. rewrite orb_true_iff, andb_true_iff, N.ltb_lt, N.eqb_eq. reflexivity.
Qed.

Lemma str_ltb_nil_r a : str_ltb a [] = false.
Proof. now destruct a. Qed.

Lemma str_ltb_irrefl a : str_ltb a a = false.
Proof.
  induction a as [|x a IH]; [reflexivity|].
  destruct (str_ltb (x :: a) (x :: a)) eqn:E; [|reflexivity].
  apply str_ltb_cons in E as [E | [_ E]]; [lia | congruence].
Qed.

Lemma str_ltb_trans a : forall b c,
  str_ltb a b = true -> str_ltb b c = true -> str_ltb a c = true.
Proof.
  induction a as [|x a IH]; intros [|y b] [|z c] H1 H2;
    try (cbn in H1; discriminate H1); try (cbn in H2; discriminate H2);
    try reflexivity.
  apply str_ltb_cons in H1, H2. apply str_ltb_cons.
  destruct H1 as [H1 | [-> H1]], H2 as [H2 | [-> H2]]; try (left; lia).
  right. split; [reflexivity|]. eapply IH; eassumption.
Qed.

Lemma str_ltb_total a : forall b,
  a <> b -> str_ltb a b = true \/ str_ltb b a = true.
Proof.
  induction a as [|x a IH]; intros [|y b] Hne.
  - contradiction.
  - now left.
  - now right.
  - destruct (N.lt_trichotomy x y) as [H | [-> | H]].
    + left. apply str_ltb_cons. now left.
    + destruct (IH b) as [H | H]; [congruence | |].
      * left. apply str_ltb_cons. now right.
      * right. apply str_ltb_cons. now right.
    + right. apply str_ltb_cons. now left.
Qed.

Lemma keyGt_trans a b c : keyGt a b -> keyGt b c -> keyGt a c.
Proof. unfold keyGt, str_gtb. intros H1 H2. eapply str_ltb_trans; eassumption. Qed.

Lemma keyGt_asym a b : keyGt a b -> keyGt b a -> False.
Proof.
  intros H1 H2. pose proof (keyGt_trans _ _ _ H1 H2) as H.
  unfold keyGt, str_gtb in H. rewrite str_ltb_irrefl in H. discriminate.
Qed.

#[local] Instance keyGt_antisym : AntiSymm (=) keyGt.
Proof. intros a b H1 H2. destruct (keyGt_asym _ _ H1 H2). Qed.

(** *** Sorting *)

Lemma sort_insert_perm {A} (cmp : A -> A -> Z) x l : sort_insert cmp x l ≡ₚ x :: l.
Proof.
  induction l as [|y l IH]; [reflexivity|]. cbn [sort_insert].
  destruct (0 <? cmp x y)%Z; [|reflexivity].
  rewrite IH. apply Permutation_swap.
Qed.

Lemma sort_perm {A} (cmp : A -> A -> Z) l : sort cmp l ≡ₚ l.
Proof.
  induction l as [|x l IH]; [reflexivity|]. unfold sort in *. cbn [foldr].
  rewrite sort_insert_perm. now rewrite IH.
Qed.

Lemma newestFirst_positive a b :
  (0 <? LeadsList.newestFirst a b)%Z = negb (str_gtb a b).
Proof. unfold LeadsList.newestFirst. now destruct (str_gtb a b). Qed.

Lemma sort_insert_sorted x l :
  StronglySorted keyGt l -> x ∉ l ->
  StronglySorted keyGt (sort_insert LeadsList.newestFirst x l).
Proof.
  induction 1 as [|y l Hs IH Hy]; intros Hx.
  - repeat constructor.
  - cbn [sort_insert]. rewrite newestFirst_positive.
    apply not_elem_of_cons in Hx as [Hxy Hx].
    destruct (str_gtb x y) eqn:E; cbn [negb].
    + constructor; [now constructor|]. constructor; [exact E|].
      eapply Forall_impl; [exact Hy|]. intros z Hz. eapply keyGt_trans; eassumption.
    + constructor; [now apply IH|].
      rewrite sort_insert_perm. constructor; [|exact Hy].
      destruct (str_ltb_total x y Hxy) as [H | H]; [exact H|].
      unfold str_gtb in E. congruence.
Qed.

Lemma sortedKeys_sorted blobs :
  NoDup blobs -> StronglySorted keyGt (LeadsList.sortedKeys blobs).
Proof.
  unfold LeadsList.sortedKeys, sort. induction 1 as [|x l Hx Hl IH]; cbn [foldr].
  - constructor.
  - apply sort_insert_sorted; [exact IH|]. fold (sort LeadsList.newestFirst l).
    now rewrite sort_perm.
Qed.

(** The sorted keys do not depend on the order of the listing. *)
Lemma sortedKeys_order blobs blobs' :
  NoDup blobs -> blobs ≡ₚ blobs' ->
  LeadsList.sortedKeys blobs = LeadsList.sortedKeys blobs'.
Proof.
  intros Hn Hp. apply (StronglySorted_unique keyGt).
  - now apply sortedKeys_sorted.
  - apply sortedKeys_sorted. now rewrite <- Hp.
  - unfold LeadsList.sortedKeys. now rewrite !sort_perm.
Qed.

Lemma listing_NoDup store blobs : LeadsList.listing store blobs -> NoDup blobs.
Proof.
  unfold LeadsList.listing. intros ->.
  apply NoDup_ListNoDup, List.NoDup_filter, NoDup_ListNoDup, NoDup_fst_map_to_list.
Qed.

(* ===================================================================== *)
(** ** Listings *)
(* ===================================================================== *)

Lemma sublist_sorted (keys sel : list jsstring) :
  sel `sublist_of` keys -> StronglySorted keyGt keys -> StronglySorted keyGt sel.
Proof.
  induction 1 as [|k sel keys Hsub IH|k sel keys Hsub IH]; intros Hs.
  - constructor.
  - apply StronglySorted_inv in Hs as [Hs Hk]. constructor; [auto|].
    apply Forall_forall. intros x Hx. rewrite Forall_forall in Hk.
    apply Hk. eapply elem_of_sublist; eassumption.
  - apply StronglySorted_inv in Hs as [Hs _]. auto.
Qed.

Section Listing.

Variable store : Store.t.

Lemma hydrate_selected keys : selectedFrom store keys (LeadsList.hydrate store keys).
Proof.
  unfold selectedFrom, LeadsList.hydrate.
  induction keys as [|k keys (sel & Hsub & Hall)].
  - exists []. split; constructor.
  - cbn [omap list_omap]. destruct (Store.leads store !! k) as [r|] eqn:E.
    + exists (k :: sel). split; [now constructor | now constructor].
    + exists sel. split; [now constructor | exact Hall].
Qed.

Lemma filter_selected (p : LeadRecord.t -> bool) keys records :
  selectedFrom store keys records -> selectedFrom store keys (List.filter p records).
Proof.
  intros (sel & Hsub & Hall). unfold selectedFrom.
  assert (exists sel', sel' `sublist_of` sel
            /\ Forall2 (fun key r => Store.leads store !! key = Some r) sel'
                 (List.filter p records)) as (sel' & Hsub' & Hall').
  { clear Hsub. induction Hall as [|k r sel records Hk _ (sel' & IH1 & IH2)].
    - exists []. split; constructor.
    - cbn [List.filter]. destruct (p r).
      + exists (k :: sel'). split; [now constructor | now constructor].
      + exists sel'. split; [now constructor | exact IH2]. }
  exists sel'. split; [now transitivity sel | exact Hall'].
Qed.

Lemma slice_selected keys records (start stop : number) :
  selectedFrom store keys records -> selectedFrom store keys (slice records start stop).
Proof.
  intros (sel & Hsub & Hall). unfold slice.
  set (k := relativeIndex _ start). set (n := (relativeIndex _ stop - k)%nat).
  exists (take n (drop k sel)). split.
  - transitivity (drop k sel); [apply sublist_take|].
    transitivity sel; [apply sublist_drop | exact Hsub].
  - now apply Forall2_take, Forall2_drop.
Qed.

Lemma selected_newestFirst keys records :
  StronglySorted keyGt keys -> selectedFrom store keys records ->
  newestFirstIn store records.
Proof.
  intros Hs (sel & Hsub & Hall). exists sel. split; [|exact Hall].
  eapply sublist_sorted; eassumption.
Qed.

Lemma filtered_newestFirst req blobs :
  NoDup blobs ->
  newestFirstIn store (LeadsList.filtered req store blobs)
  /\ newestFirstIn store (LeadsList.page req store blobs).
Proof.
  intros Hn. pose proof (sortedKeys_sorted blobs Hn) as Hs.
  assert (Hsel : selectedFrom store (LeadsList.sortedKeys blobs)
                   (LeadsList.filtered req store blobs))
    by (unfold LeadsList.filtered; do 3 apply filter_selected; apply hydrate_selected).
  split; eapply selected_newestFirst; try exact Hs; [exact Hsel|].
  unfold LeadsList.page. now apply slice_selected.
Qed.

(** Every record stored under a key with the prefix is hydrated. *)
Lemma hydrate_complete blobs key r :
  LeadsList.listing store blobs ->
  startsWith (lit "leads/") key = true ->
  Store.leads store !! key = Some r ->
  In r (LeadsList.hydrate store (LeadsList.sortedKeys blobs)).
Proof.
  intros Hl Hp Hr. unfold LeadsList.hydrate. apply list_elem_of_In, list_elem_of_omap.
  exists key. split; [|exact Hr].
  unfold LeadsList.sortedKeys. rewrite sort_perm, Hl.
  apply list_elem_of_In, filter_In. split; [|exact Hp].
  apply list_elem_of_In, list_elem_of_fmap. exists (key, r).
  split; [reflexivity|]. now apply elem_of_map_to_list.
Qed.

Lemma filtered_archived_false req blobs :
  Request.param_archived req = None ->
  Forall (fun r => LeadRecord.archived r = false) (LeadsList.filtered req store blobs).
Proof.
  intros Ha. apply List.Forall_forall. intros r Hin. unfold LeadsList.filtered in Hin.
  apply filter_In in Hin as [Hin _]. apply filter_In in Hin as [Hin _].
  apply filter_In in Hin as [_ Hin].
  unfold LeadsList.archivedMode in Hin. rewrite Ha in Hin.
  change (LeadsList.archivedFilter (lit "false") r = true) in Hin.
  unfold LeadsList.archivedFilter in Hin.
  change (str_eqb (lit "false") (lit "all")) with false in Hin.
  change (str_eqb (lit "false") (lit "true")) with false in Hin.
  now apply negb_true_iff in Hin.
Qed.

Lemma unfiltered req :
  Request.param_status req = None -> Request.param_q req = None ->
  forall r, LeadsList.statusFilter (LeadsList.statusParam req) r = true
            /\ LeadsList.qFilter (LeadsList.qParam req) r = true.
Proof.
  intros Hs Hq r. unfold LeadsList.statusParam, LeadsList.qParam.
  rewrite Hs, Hq. split; reflexivity.
Qed.

Lemma filtered_all req blobs key r :
  LeadsList.listing store blobs ->
  Request.param_archived req = Some (lit "all") ->
  Request.param_status req = None -> Request.param_q req = None ->
  startsWith (lit "leads/") key = true ->
  Store.leads store !! key = Some r ->
  In r (LeadsList.filtered req store blobs).
Proof.
  intros Hl Ha Hs Hq Hp Hr. destruct (unfiltered req Hs Hq r) as [Fs Fq].
  unfold LeadsList.filtered. repeat (apply filter_In; split); try assumption.
  - eapply hydrate_complete; eassumption.
  - unfold LeadsList.archivedMode. rewrite Ha. reflexivity.
Qed.

Lemma filtered_default req blobs key r :
  LeadsList.listing store blobs ->
  Request.param_archived req = None ->
  Request.param_status req = None -> Request.param_q req = None ->
  startsWith (lit "leads/") key = true ->
  Store.leads store !! key = Some r ->
  LeadRecord.archived r = false ->
  In r (LeadsList.filtered req store blobs).
Proof.
  intros Hl Ha Hs Hq Hp Hr Hna. destruct (unfiltered req Hs Hq r) as [Fs Fq].
  unfold LeadsList.filtered. repeat (apply filter_In; split); try assumption.
  - eapply hydrate_complete; eassumption.
  - unfold LeadsList.archivedMode. rewrite Ha.
    change (LeadsList.archivedFilter (lit "false") r = true).
    unfold LeadsList.archivedFilter.
    change (str_eqb (lit "false") (lit "all")) with false.
    change (str_eqb (lit "false") (lit "true")) with false.
    cbv iota. now rewrite Hna.
Qed.

(** The answer does not depend on the order of the listing. *)
Lemma handler_order env req context blobs blobs' :
  LeadsList.listing store blobs -> LeadsList.listing store blobs' ->
  LeadsList.filtered req store blobs' = LeadsList.filtered req store blobs
  /\ LeadsList.handler env req context store blobs'
     = LeadsList.handler env req context store blobs.
Proof.
  intros H H'.
  assert (Hk : LeadsList.sortedKeys blobs' = LeadsList.sortedKeys blobs).
  { apply sortedKeys_order; [eapply listing_NoDup; eassumption|].
    unfold LeadsList.listing in *. now rewrite H, H'. }
  unfold LeadsList.handler, LeadsList.page, LeadsList.filtered. now rewrite Hk.
Qed.

End Listing.

(* ===================================================================== *)
(** ** ISO timestamps sort as instants *)
(* ===================================================================== *)

Lemma forall_from_spec f n : forall i j,
  forall_from n i f = true -> (i <= j < i + Z.of_nat n)%Z -> f j = true.
Proof.
  induction n as [|n IH]; intros i j H Hj; [lia|].
  cbn [forall_from] in H. apply andb_prop in H as [H1 H2].
  destruct (Z.eq_dec i j) as [<-|Hne]; [exact H1|].
  apply (IH (i + 1)%Z); [exact H2 | lia].
Qed.

(** Every day of an era but the last, by enumeration. *)
Lemma era_days : forall_from (Z.to_nat 146096) 0 day_ok = true.
Proof. vm_compute. reflexivity. Qed.

Lemma pad2_all : forall_from (Z.to_nat 99) 0 (pad_ok 2) = true.
Proof. vm_compute. reflexivity. Qed.

Lemma pad3_all : forall_from (Z.to_nat 999) 0 (pad_ok 3) = true.
Proof. vm_compute. reflexivity. Qed.

Lemma pad4_all : forall_from (Z.to_nat 9999) 0 (pad_ok 4) = true.
Proof. vm_compute. reflexivity. Qed.

Lemma pad_step w n :
  width w -> (0 <= n < 10 ^ Z.of_nat w - 1)%Z -> pad_ok w n = true.
Proof.
  intros [-> | [-> | ->]] Hn.
  - apply (forall_from_spec _ _ _ _ pad2_all). cbn in *. lia.
  - apply (forall_from_spec _ _ _ _ pad3_all). cbn in *. lia.
  - apply (forall_from_spec _ _ _ _ pad4_all). cbn in *. lia.
Qed.

Lemma pad_length w n :
  width w -> (0 <= n < 10 ^ Z.of_nat w)%Z -> List.length (pad w n) = w.
Proof.
  intros Hw Hn. destruct (Z.eq_dec n (10 ^ Z.of_nat w - 1)%Z) as [->|Hne].
  - destruct Hw as [-> | [-> | ->]]; reflexivity.
  - assert (H : pad_ok w n = true) by (apply pad_step; [exact Hw | lia]).
    unfold pad_ok in H. apply andb_prop in H as [H _]. now apply Nat.eqb_eq in H.
Qed.

Lemma pad_lt w n m :
  width w -> (0 <= n < m)%Z -> (m < 10 ^ Z.of_nat w)%Z ->
  str_ltb (pad w n) (pad w m) = true.
Proof.
  intros Hw [Hn Hnm] Hm.
  replace m with (n + 1 + (m - n - 1))%Z by lia.
  assert (Hk : (0 <= m - n - 1)%Z) by lia.
  assert (Hb : (n + 1 + (m - n - 1) < 10 ^ Z.of_nat w)%Z) by lia.
  revert Hk Hb. generalize (m - n - 1)%Z. intros k Hk. pattern k.
  apply natlike_ind; [| |exact Hk].
  - rewrite Z.add_0_r. intros Hb.
    assert (H : pad_ok w n = true) by (apply pad_step; [exact Hw | lia]).
    unfold pad_ok in H. now apply andb_prop in H as [_ H].
  - intros x Hx IH Hb. eapply str_ltb_trans; [apply IH; lia|].
    assert (H : pad_ok w (n + 1 + x) = true) by (apply pad_step; [exact Hw | lia]).
    unfold pad_ok in H. apply andb_prop in H as [_ H].
    now replace (n + 1 + Z.succ x)%Z with (n + 1 + x + 1)%Z by lia.
Qed.

Lemma str_ltb_app_same a x y :
  str_ltb x y = true -> str_ltb (a ++ x) (a ++ y) = true.
Proof.
  intros H. induction a as [|c a IH]; [exact H|].
  cbn [app]. apply str_ltb_cons. now right.
Qed.

Lemma str_ltb_app_l a : forall b x y,
  List.length a = List.length b -> str_ltb a b = true ->
  str_ltb (a ++ x) (b ++ y) = true.
Proof.
  induction a as [|c a IH]; intros [|e b] x y Hl H; try discriminate.
  cbn [app]. apply str_ltb_cons. apply str_ltb_cons in H as [H | [-> H]].
  - now left.
  - right. split; [reflexivity|]. apply IH; [|exact H]. now injection Hl.
Qed.

(** Two fields of the same width, each followed by more text: the
    texts compare as the fields do, and as what follows when the fields
    agree. *)
Lemma field_lt w n m x y :
  width w -> (0 <= n < 10 ^ Z.of_nat w)%Z -> (0 <= m < 10 ^ Z.of_nat w)%Z ->
  (n < m)%Z \/ (n = m /\ str_ltb x y = true) ->
  str_ltb (pad w n ++ x) (pad w m ++ y) = true.
Proof.
  intros Hw Hn Hm [H | [-> H]].
  - apply str_ltb_app_l; [now rewrite !pad_length | apply pad_lt; [exact Hw | lia | lia]].
  - now apply str_ltb_app_same.
Qed.

Section IsoOrder.
Local Open Scope Z_scope.

Lemma civil_fields z :
  let '(y, m, d) := civil_from_days z in
  (1 <= m <= 12 /\ 1 <= d <= 31
   /\ dateNumber (y, m, d) < dateNumber (civil_from_days (z + 1)))%Z.
Proof.
  unfold civil_from_days.
  set (z' := (z + 719468)%Z). replace (z + 1 + 719468)%Z with (z' + 1)%Z by lia.
  pose proof (Z.mod_pos_bound z' 146097 eq_refl) as Hdoe.
  pose proof (Z.div_mod z' 146097 ltac:(discriminate)) as Hdm.
  destruct (Z.eq_dec (z' mod 146097) 146096) as [Elast | Hne].
  - assert (Hq : ((z' + 1) / 146097 = z' / 146097 + 1)%Z)
      by (symmetry; apply (Z.div_unique _ _ _ 0); lia).
    assert (Hr : ((z' + 1) mod 146097 = 0)%Z)
      by (symmetry; apply (Z.mod_unique _ _ (z' / 146097 + 1)); lia).
    rewrite Hq, Hr, Elast.
    change (civil_of_doe 146096) with (400, 2, 29)%Z.
    change (civil_of_doe 0) with (0, 3, 1)%Z.
    cbn [dateNumber]. lia.
  - assert (Hq : ((z' + 1) / 146097 = z' / 146097)%Z)
      by (symmetry; apply (Z.div_unique _ _ _ (z' mod 146097 + 1)); lia).
    assert (Hr : ((z' + 1) mod 146097 = z' mod 146097 + 1)%Z)
      by (symmetry; apply (Z.mod_unique _ _ (z' / 146097)); lia).
    rewrite Hq, Hr.
    assert (Hok : day_ok (z' mod 146097) = true).
    { apply (forall_from_spec _ _ _ _ era_days). rewrite Z2Nat.id; lia. }
    unfold day_ok in Hok.
    destruct (civil_of_doe (z' mod 146097)) as [[y m] d].
    destruct (civil_of_doe (z' mod 146097 + 1)) as [[y' m'] d'].
    repeat (apply andb_prop in Hok as [Hok ?]).
    cbn [dateNumber] in *. lia.
Qed.

Lemma civil_month_day z :
  let '(y, m, d) := civil_from_days z in 1 <= m <= 12 /\ 1 <= d <= 31.
Proof.
  pose proof (civil_fields z) as H. destruct (civil_from_days z) as [[y m] d]. tauto.
Qed.

Lemma civil_increasing z1 z2 :
  z1 < z2 -> dateNumber (civil_from_days z1) < dateNumber (civil_from_days z2).
Proof.
  intros H. replace z2 with (z1 + 1 + (z2 - z1 - 1)) by lia.
  assert (Hk : 0 <= z2 - z1 - 1) by lia. revert Hk.
  generalize (z2 - z1 - 1). intros k Hk. pattern k.
  apply natlike_ind; [| |exact Hk].
  - rewrite Z.add_0_r. pose proof (civil_fields z1) as Hf.
    destruct (civil_from_days z1) as [[y m] d]. tauto.
  - intros x Hx IH. eapply Z.lt_trans; [exact IH|].
    pose proof (civil_fields (z1 + 1 + x)) as Hf.
    replace (z1 + 1 + Z.succ x) with (z1 + 1 + x + 1) by lia.
    destruct (civil_from_days (z1 + 1 + x)) as [[y m] d]. tauto.
Qed.

(** The days of the years 0000 to 9999. *)
Lemma civil_year z :
  -719528 <= z <= 2932896 ->
  let '(y, m, d) := civil_from_days z in 0 <= y <= 9999.
Proof.
  intros [Hlo Hhi].
  pose proof (civil_month_day z) as Hmd.
  assert (Hmin : dateNumber (civil_from_days (-719528)) <= dateNumber (civil_from_days z)).
  { destruct (Z.eq_dec (-719528) z) as [<-|Hne]; [lia|].
    apply Z.lt_le_incl, civil_increasing. lia. }
  assert (Hmax : dateNumber (civil_from_days z) <= dateNumber (civil_from_days 2932896)).
  { destruct (Z.eq_dec z 2932896) as [->|Hne]; [lia|].
    apply Z.lt_le_incl, civil_increasing. lia. }
  change (dateNumber (civil_from_days (-719528))) with 101 in Hmin.
  change (dateNumber (civil_from_days 2932896)) with 99991231 in Hmax.
  destruct (civil_from_days z) as [[y m] d]. cbn [dateNumber] in *. lia.
Qed.

(** Later in the day, later on the clock. *)
Lemma clock_increasing a b :
  0 <= a < b -> b < msPerDay ->
  let '(h1, m1, s1, x1) := clock a in
  let '(h2, m2, s2, x2) := clock b in
  (0 <= h1 < 100 /\ 0 <= m1 < 100 /\ 0 <= s1 < 100 /\ 0 <= x1 < 1000)
  /\ (0 <= h2 < 100 /\ 0 <= m2 < 100 /\ 0 <= s2 < 100 /\ 0 <= x2 < 1000)
  /\ (h1 < h2 \/ (h1 = h2 /\ (m1 < m2 \/ (m1 = m2 /\ (s1 < s2 \/ (s1 = s2 /\ x1 < x2)))))).
Proof.
  unfold clock, msPerDay. intros Ha Hb. Z.div_mod_to_equations. lia.
Qed.

Lemma fourDigitYear_day t :
  fourDigitYear t -> -719528 <= t / msPerDay <= 2932896.
Proof. unfold fourDigitYear, msPerDay. intros H. Z.div_mod_to_equations. lia. Qed.

Lemma toISOString_fields t :
  fourDigitYear t ->
  let '(y, m, d) := civil_from_days (t / msPerDay) in
  let '(h, mi, s, x) := clock (t mod msPerDay) in
  toISOString t = isoText y m d h mi s x.
Proof.
  intros Ht. pose proof (civil_year _ (fourDigitYear_day t Ht)) as Hy.
  unfold toISOString, clock, isoText.
  destruct (civil_from_days (t / msPerDay)) as [[y m] d].
  destruct Hy as [Hy1 Hy2].
  rewrite (proj2 (Z.leb_le 0 y) Hy1), (proj2 (Z.leb_le y 9999) Hy2). reflexivity.
Qed.

Lemma w2 : width 2.
Proof. now left. Qed.

Lemma w3 : width 3.
Proof. right. now left. Qed.

Lemma w4 : width 4.
Proof. right. now right. Qed.

Lemma isoText_length y m d h mi s x :
  0 <= y < 10000 -> 0 <= m < 100 -> 0 <= d < 100 -> 0 <= h < 100 ->
  0 <= mi < 100 -> 0 <= s < 100 -> 0 <= x < 1000 ->
  List.length (isoText y m d h mi s x) = 24%nat.
Proof.
  intros. unfold isoText. rewrite !length_app.
  rewrite (pad_length 4 y w4), !(pad_length 2 _ w2), (pad_length 3 x w3) by (cbn; lia).
  reflexivity.
Qed.

(** One field of two timestamps: settle the comparison there or move on
    to the next field, past the separator. *)
Ltac next_field w ww :=
  apply (field_lt w _ _ _ _ ww); [cbn; lia | cbn; lia |];
  match goal with
  | H : _ \/ _ |- _ => destruct H as [H | [-> H]]; [left; exact H | right]
  end;
  split; [reflexivity|]; apply (str_ltb_app_same (lit _)).

Lemma isoText_lt y1 m1 d1 h1 mi1 s1 x1 y2 m2 d2 h2 mi2 s2 x2 :
  (0 <= y1 < 10000 /\ 0 <= m1 < 100 /\ 0 <= d1 < 100 /\ 0 <= h1 < 100
   /\ 0 <= mi1 < 100 /\ 0 <= s1 < 100 /\ 0 <= x1 < 1000) ->
  (0 <= y2 < 10000 /\ 0 <= m2 < 100 /\ 0 <= d2 < 100 /\ 0 <= h2 < 100
   /\ 0 <= mi2 < 100 /\ 0 <= s2 < 100 /\ 0 <= x2 < 1000) ->
  (y1 < y2 \/ (y1 = y2 /\ (m1 < m2 \/ (m1 = m2 /\ (d1 < d2 \/ (d1 = d2 /\
    (h1 < h2 \/ (h1 = h2 /\ (mi1 < mi2 \/ (mi1 = mi2 /\
      (s1 < s2 \/ (s1 = s2 /\ x1 < x2)))))))))))) ->
  str_ltb (isoText y1 m1 d1 h1 mi1 s1 x1) (isoText y2 m2 d2 h2 mi2 s2 x2) = true.
Proof.
  intros (Hy1 & Hm1 & Hd1 & Hh1 & Hmi1 & Hs1 & Hx1)
         (Hy2 & Hm2 & Hd2 & Hh2 & Hmi2 & Hs2 & Hx2) Hlex.
  unfold isoText.
  next_field 4%nat w4. next_field 2%nat w2. next_field 2%nat w2.
  next_field 2%nat w2. next_field 2%nat w2. next_field 2%nat w2.
  apply (field_lt 3 _ _ _ _ w3); [cbn; lia | cbn; lia |]. now left.
Qed.

Lemma toISOString_increasing t1 t2 :
  fourDigitYear t1 -> fourDigitYear t2 -> t1 < t2 ->
  str_ltb (toISOString t1) (toISOString t2) = true
  /\ List.length (toISOString t1) = 24%nat
  /\ List.length (toISOString t2) = 24%nat.
Proof.
  intros F1 F2 Hlt.
  pose proof (toISOString_fields t1 F1) as E1.
  pose proof (toISOString_fields t2 F2) as E2.
  pose proof (civil_year _ (fourDigitYear_day t1 F1)) as Y1.
  pose proof (civil_year _ (fourDigitYear_day t2 F2)) as Y2.
  pose proof (civil_month_day (t1 / msPerDay)) as M1.
  pose proof (civil_month_day (t2 / msPerDay)) as M2.
  assert (Hday : t1 / msPerDay <= t2 / msPerDay)
    by (apply Z.div_le_mono; [reflexivity | lia]).
  pose proof (Z.mod_pos_bound t1 msPerDay eq_refl) as B1.
  pose proof (Z.mod_pos_bound t2 msPerDay eq_refl) as B2.
  assert (Hcase :
    dateNumber (civil_from_days (t1 / msPerDay)) < dateNumber (civil_from_days (t2 / msPerDay))
    \/ (civil_from_days (t1 / msPerDay) = civil_from_days (t2 / msPerDay)
        /\ t1 mod msPerDay < t2 mod msPerDay)).
  { destruct (Z.eq_dec (t1 / msPerDay) (t2 / msPerDay)) as [E | Hne].
    - right. split; [now rewrite E|].
      pose proof (Z.div_mod t1 msPerDay ltac:(discriminate)).
      pose proof (Z.div_mod t2 msPerDay ltac:(discriminate)). rewrite E in *. lia.
    - left. apply civil_increasing. lia. }
  pose proof (clock_increasing (t1 mod msPerDay) (t1 mod msPerDay + 1)) as C1.
  pose proof (clock_increasing (t2 mod msPerDay - 1) (t2 mod msPerDay)) as C2.
  pose proof (clock_increasing (t1 mod msPerDay) (t2 mod msPerDay)) as C12.
  destruct (civil_from_days (t1 / msPerDay)) as [[y1 m1] d1].
  destruct (civil_from_days (t2 / msPerDay)) as [[y2 m2] d2].
  destruct (clock (t1 mod msPerDay)) as [[[h1 mi1] s1] x1] eqn:K1.
  destruct (clock (t2 mod msPerDay)) as [[[h2 mi2] s2] x2] eqn:K2.
  assert (R1 : 0 <= h1 < 100 /\ 0 <= mi1 < 100 /\ 0 <= s1 < 100 /\ 0 <= x1 < 1000).
  { revert K1. unfold clock, msPerDay in *. intros [= <- <- <- <-].
    clear -B1. Z.div_mod_to_equations. lia. }
  assert (R2 : 0 <= h2 < 100 /\ 0 <= mi2 < 100 /\ 0 <= s2 < 100 /\ 0 <= x2 < 1000).
  { revert K2. unfold clock, msPerDay in *. intros [= <- <- <- <-].
    clear -B2. Z.div_mod_to_equations. lia. }
  clear C1 C2. rewrite E1, E2.
  split; [|split; apply isoText_length; lia].
  apply isoText_lt; [lia | lia |].
  cbn [dateNumber] in Hcase. destruct Hcase as [Hd | [[= -> -> ->] Hms]].
  - lia.
  - specialize (C12 ltac:(lia) ltac:(lia)). lia.
Qed.

Lemma newLeadKey_increasing t1 t2 u1 u2 :
  fourDigitYear t1 -> fourDigitYear t2 -> t1 < t2 ->
  str_gtb (newLeadKey t2 u2) (newLeadKey t1 u1) = true.
Proof.
  intros F1 F2 Hlt. destruct (toISOString_increasing t1 t2 F1 F2 Hlt) as (H & L1 & L2).
  unfold str_gtb, newLeadKey. apply str_ltb_app_same.
  apply str_ltb_app_l; [congruence | exact H].
Qed.

End IsoOrder.

(* ===================================================================== *)
(** ** The listing, newest first *)
(* ===================================================================== *)

(** C4.  For a listing of the store: with [archived] omitted no
    archived record is returned, and, no other filter given, every
    record that is not archived is among the matches; with
    [archived=all] and no other filter every record is, archived or not.
    The matches and the page are the records of keys that decrease
    strictly, the reverse lexical order of the keys, and the answer is
    the same for every order in which the store lists the keys.  The
    keys of two leads created at different instants (of years 0000 to
    9999) are in the order of the instants, so the order is newest
    first. *)
Theorem C4_listing_newest_first env req context store blobs :
  LeadsList.listing store blobs ->
  (Request.param_archived req = None ->
   Forall (fun r => LeadRecord.archived r = false) (LeadsList.filtered req store blobs)
   /\ Forall (fun r => LeadRecord.archived r = false) (LeadsList.page req store blobs))
  /\ (Request.param_archived req = None ->
      Request.param_status req = None -> Request.param_q req = None ->
      forall key r,
        startsWith (lit "leads/") key = true -> Store.leads store !! key = Some r ->
        LeadRecord.archived r = false ->
        In r (LeadsList.filtered req store blobs))
  /\ (Request.param_archived req = Some (lit "all") ->
      Request.param_status req = None -> Request.param_q req = None ->
      forall key r,
        startsWith (lit "leads/") key = true -> Store.leads store !! key = Some r ->
        In r (LeadsList.filtered req store blobs))
  /\ newestFirstIn store (LeadsList.filtered req store blobs)
  /\ newestFirstIn store (LeadsList.page req store blobs)
  /\ (Request.method req = lit "GET" -> authorized env req context ->
      LeadsList.handler env req context store blobs
      = Response 200
          (PList (List.length (LeadsList.filtered req store blobs))
             (LeadsList.offset req) (LeadsList.limit req)
             (LeadsList.page req store blobs)))
  /\ (forall blobs',
        LeadsList.listing store blobs' ->
        LeadsList.handler env req context store blobs'
        = LeadsList.handler env req context store blobs)
  /\ (forall t1 t2 u1 u2,
        fourDigitYear t1 -> fourDigitYear t2 -> (t1 < t2)%Z ->
        keyGt (newLeadKey t2 u2) (newLeadKey t1 u1)).
Proof.
  intros Hl. pose proof (listing_NoDup _ _ Hl) as Hn.
  destruct (filtered_newestFirst store req blobs Hn) as [Hf Hp].
  split; [|split; [|split; [|split; [|split; [|split; [|split]]]]]].
  - intros Ha. pose proof (filtered_archived_false store req blobs Ha) as H.
    split; [exact H|]. unfold LeadsList.page, slice. now apply Forall_take, Forall_drop.
  - intros Ha Hs Hq key r Hk Hr Hna. eapply filtered_default; eassumption.
  - intros Ha Hs Hq key r Hk Hr. eapply filtered_all; eassumption.
  - exact Hf.
  - exact Hp.
  - intros Hm [Hjwt Hadm]. unfold LeadsList.handler, handleOptions.
    rewrite Hm, Hjwt, Hadm. reflexivity.
  - intros blobs' Hl'. now apply handler_order.
  - intros t1 t2 u1 u2 F1 F2 Hlt. now apply newLeadKey_increasing.
Qed.

Lemma C4_witness :
  LeadsList.handler Sample.envAdmin (Sample.listRequest None None None)
    Sample.ctxAdmin Sample.storeAB [Sample.keyA; Sample.keyB]
  = Response 200 (PList 1 (ofZ 0) (ofZ 50) [Sample.recordA])
  /\ LeadsList.handler Sample.envAdmin (Sample.listRequest (Some (lit "all")) None None)
       Sample.ctxAdmin Sample.storeAB [Sample.keyA; Sample.keyB]
     = Response 200 (PList 2 (ofZ 0) (ofZ 50) [Sample.recordB; Sample.recordA])
  /\ Forall (fun r => LeadRecord.archived r = false)
       (LeadsList.page (Sample.listRequest None None None) Sample.storeAB
          [Sample.keyA; Sample.keyB]).
Proof.
  assert (Hl : LeadsList.listing Sample.storeAB [Sample.keyA; Sample.keyB]).
  { unfold LeadsList.listing. vm_compute.
    first [reflexivity | apply Permutation_swap]. }
  destruct (C4_listing_newest_first Sample.envAdmin (Sample.listRequest None None None)
              Sample.ctxAdmin Sample.storeAB [Sample.keyA; Sample.keyB] Hl)
    as (Harch & _).
  split; [vm_compute; reflexivity|]. split; [vm_compute; reflexivity|].
  apply Harch. reflexivity.
Defined.

(* ===================================================================== *)
(** ** Sanitizers *)
(* ===================================================================== *)

(** X1.  Whatever [sanitizeString] returns has at most [maxLen]
    characters and does not begin with white space; it is the empty text
    for [null] and [undefined], and for any other value the first
    [maxLen] characters of the trimmed text of the value (so it can end
    in white space that the cut exposes). *)
Theorem X1_sanitizeString_shape v maxLen t :
  sanitizeString v maxLen = Ok t ->
  (List.length t <= maxLen)%nat
  /\ cleanStart t
  /\ (nullish v = true -> t = [])
  /\ (forall s, nullish v = false -> ToString v = Ok s -> t = take maxLen (trim s)).
Proof.
  unfold sanitizeString. destruct (nullish v) eqn:Hn.
  - intros [= <-]. repeat split; try (cbn; lia); discriminate.
  - destruct (ToString v) as [s|e] eqn:Hs; [|discriminate].
    cbn [mbind result_bind]. intros [= <-].
    split; [apply sanitizeText_length|]. split; [apply sanitizeText_cleanStart|].
    split; [discriminate|]. intros s' _ [= <-]. apply sanitizeText_take.
Qed.

Lemma X1_witness :
  sanitizeString (VStr (lit "  ab  cd  ")) 4 = Ok (lit "ab  ")
  /\ (List.length (lit "ab  ") <= 4)%nat.
Proof.
  assert (H : sanitizeString (VStr (lit "  ab  cd  ")) 4 = Ok (lit "ab  "))
    by reflexivity.
  split; [exact H|]. exact (proj1 (X1_sanitizeString_shape _ _ _ H)).
Defined.

(** X2.  [normalizePhone] returns the empty text or a canonical number
    and nothing else.  Of a domestic text (no leading plus sign, at most
    50 characters once trimmed) with 11 digits the first of which is 1 it
    returns the plus sign and the digits; with any other number of
    digits than 10 or 11, or with 11 digits that do not begin with 1, it
    returns the empty text. *)
Theorem X2_normalizePhone_domestic v s :
  nullish v = false -> ToString v = Ok s ->
  (List.length (trim s) <= 50)%nat ->
  startsWith (lit "+") (trim s) = false ->
  (forall p, normalizePhone v = Ok p -> p = [] \/ canonical p)
  /\ (List.length (List.filter isDigit s) = 11%nat ->
      startsWith (lit "1") (List.filter isDigit s) = true ->
      normalizePhone v = Ok (lit "+" ++ List.filter isDigit s))
  /\ (List.length (List.filter isDigit s) <> 10%nat ->
      (List.length (List.filter isDigit s) <> 11%nat
       \/ startsWith (lit "1") (List.filter isDigit s) = false) ->
      normalizePhone v = Ok []).
Proof.
  intros Hn Hs Hlen Hplus.
  split; [intros p; apply normalizePhone_range|].
  assert (Hf : List.filter isDigit (trim s) = List.filter isDigit s)
    by (apply filter_trim, digit_space_false).
  assert (E : normalizePhone v
              = match trim s with
                | [] => Ok []
                | _ :: _ =>
                    if (List.length (List.filter isDigit s) =? 10)%nat
                    then Ok (lit "+1" ++ List.filter isDigit s)
                    else if (List.length (List.filter isDigit s) =? 11)%nat
                            && startsWith (lit "1") (List.filter isDigit s)
                         then Ok (lit "+" ++ List.filter isDigit s)
                         else Ok []
                end).
  { unfold normalizePhone, sanitizeString. rewrite Hn, Hs. cbn [mbind result_bind].
    unfold sanitizeText. destruct (trim s) as [|c r] eqn:Et; [reflexivity|].
    replace (50 <? List.length (c :: r))%nat with false
      by (symmetry; apply Nat.ltb_ge; exact Hlen).
    now rewrite Hplus, Hf. }
  rewrite E. split.
  - intros H11 H1. destruct (trim s) as [|c r] eqn:Et.
    { cbn in Hf. rewrite <- Hf in H11. discriminate. }
    rewrite H11, H1. reflexivity.
  - intros H10 H11. destruct (trim s); [reflexivity|].
    rewrite (proj2 (Nat.eqb_neq _ _) H10).
    destruct H11 as [H11 | H1].
    + now rewrite (proj2 (Nat.eqb_neq _ _) H11).
    + rewrite H1. now rewrite andb_false_r.
Qed.

Lemma X2_witness :
  normalizePhone (VStr (lit "1 (435) 555-1234")) = Ok (lit "+14355551234")
  /\ normalizePhone (VStr (lit "2 (435) 555-1234")) = Ok []
  /\ normalizePhone (VStr (lit "555-1234")) = Ok [].
Proof.
  split; [|split].
  - apply (X2_normalizePhone_domestic (VStr (lit "1 (435) 555-1234")) (lit "1 (435) 555-1234"));
      vm_compute; first [reflexivity | lia].
  - apply (X2_normalizePhone_domestic (VStr (lit "2 (435) 555-1234")) (lit "2 (435) 555-1234"));
      vm_compute; first [reflexivity | lia | discriminate | (right; reflexivity)].
  - apply (X2_normalizePhone_domestic (VStr (lit "555-1234")) (lit "555-1234"));
      vm_compute; first [reflexivity | lia | discriminate | (left; discriminate)].
Defined.

(** [replace(/^@/, "")] through [startsWith]. *)
Lemma strip_at s :
  match s with 64%N :: r => r | _ => s end
  = if startsWith (lit "@") s then drop 1 s else s.
Proof.
  destruct s as [|c r]; [reflexivity|]. destruct c as [|p]; [reflexivity|].
  do 7 (try (destruct p as [p|p|]; try reflexivity)).
Qed.

Lemma normalizeInstagram_range v h :
  normalizeInstagram v = Ok h ->
  h = [] \/ exists raw, raw <> [] /\ h = 64%N :: raw /\ (List.length h <= 61)%nat.
Proof.
  unfold normalizeInstagram.
  destruct (sanitizeString v 60) as [s|e] eqn:Hs; [|discriminate].
  cbn [mbind result_bind]. pose proof (sanitizeString_length _ _ _ Hs) as Hl.
  rewrite strip_at.
  set (raw := if startsWith (lit "@") s then drop 1 s else s).
  assert (Hraw : (List.length raw <= 60)%nat).
  { subst raw. destruct (startsWith (lit "@") s); [|exact Hl].
    rewrite length_drop. lia. }
  destruct raw as [|c r] eqn:Er; intros [= <-]; [now left|].
  right. exists (c :: r). split; [discriminate|]. split; [reflexivity|].
  cbn [List.length] in *. lia.
Qed.

(** X3.  [normalizeInstagram] returns the empty text or an at sign
    followed by a handle that is not empty, 61 characters at most.  A
    handle of at most 59 characters, without white space and without a
    leading at sign, gives the same result written with or without the
    at sign; a lone at sign is no handle. *)
Theorem X3_normalizeInstagram_handle :
  (forall v h,
      normalizeInstagram v = Ok h ->
      h = [] \/ exists raw, raw <> [] /\ h = 64%N :: raw
                            /\ (List.length h <= 61)%nat)
  /\ (forall handle,
        handle <> [] -> (List.length handle <= 59)%nat ->
        forallb (fun c => negb (isWhiteSpace c)) handle = true ->
        startsWith (lit "@") handle = false ->
        normalizeInstagram (VStr handle) = Ok (64%N :: handle)
        /\ normalizeInstagram (VStr (64%N :: handle)) = Ok (64%N :: handle))
  /\ normalizeInstagram (VStr (lit " @ ")) = Ok [].
Proof.
  split; [|split; [|reflexivity]].
  - apply normalizeInstagram_range.
  - intros handle Hne Hl Hclean Hat.
    assert (Hc1 : trim handle = handle) by now apply trim_clean.
    assert (Hc2 : trim (64%N :: handle) = 64%N :: handle)
      by (apply trim_clean; cbn [forallb]; now rewrite Hclean).
    unfold normalizeInstagram, sanitizeString. cbn [nullish ToString mbind result_bind].
    rewrite !sanitizeText_take, Hc1, Hc2.
    rewrite !take_ge by (cbn [List.length]; lia).
    rewrite !strip_at, Hat. change (startsWith (lit "@") (64%N :: handle)) with true.
    cbn [drop]. destruct handle as [|c r]; [contradiction|]. split; reflexivity.
Qed.

Lemma X3_witness :
  normalizeInstagram (VStr (lit "nails.by.ash")) = Ok (lit "@nails.by.ash")
  /\ normalizeInstagram (VStr (lit "@nails.by.ash")) = Ok (lit "@nails.by.ash").
Proof.
  destruct X3_normalizeInstagram_handle as (_ & H & _).
  apply (H (lit "nails.by.ash")); vm_compute; first [reflexivity | lia | discriminate].
Defined.

(* ===================================================================== *)
(** ** Keys *)
(* ===================================================================== *)

Lemma pad2_digits_all : forall_from (Z.to_nat 100) 0 (pad_digits 2) = true.
Proof. vm_compute. reflexivity. Qed.

Lemma pad3_digits_all : forall_from (Z.to_nat 1000) 0 (pad_digits 3) = true.
Proof. vm_compute. reflexivity. Qed.

Lemma pad4_digits_all : forall_from (Z.to_nat 10000) 0 (pad_digits 4) = true.
Proof. vm_compute. reflexivity. Qed.

Lemma pad_isDigit w n :
  width w -> (0 <= n < 10 ^ Z.of_nat w)%Z -> forallb isDigit (pad w n) = true.
Proof.
  intros [-> | [-> | ->]] Hn.
  - apply (forall_from_spec _ _ _ _ pad2_digits_all). cbn in *. lia.
  - apply (forall_from_spec _ _ _ _ pad3_digits_all). cbn in *. lia.
  - apply (forall_from_spec _ _ _ _ pad4_digits_all). cbn in *. lia.
Qed.

Lemma class_run_app p a s :
  forallb p a = true -> class_run p (List.length a) (a ++ s) = Some s.
Proof.
  induction a as [|c a IH]; [reflexivity|]. cbn [forallb List.length app class_run].
  intros H. apply andb_prop in H as [-> H]. now apply IH.
Qed.

Lemma class_run_length p n : forall s r,
  class_run p n s = Some r -> List.length s = (n + List.length r)%nat.
Proof.
  induction n as [|n IH]; intros s r H.
  - now injection H as ->.
  - destruct s as [|c s]; [discriminate|]. cbn [class_run] in H.
    destruct (p c); [|discriminate]. cbn [List.length]. rewrite (IH _ _ H). lia.
Qed.

Lemma startsWith_app p s : startsWith p (p ++ s) = true.
Proof. induction p as [|c p IH]; [reflexivity|]. cbn. now rewrite N.eqb_refl. Qed.

Lemma startsWith_length p : forall s,
  startsWith p s = true -> (List.length p <= List.length s)%nat.
Proof.
  induction p as [|c p IH]; intros [|x s] H; cbn in *; try lia; try discriminate.
  apply andb_prop in H as [_ H]. apply IH in H. lia.
Qed.

(** A text that matches a pattern has the length of its pieces. *)
Lemma matches_length ps : forall s,
  matches ps s = true -> List.length s = list_sum (map pieceLength ps).
Proof.
  induction ps as [|p ps IH]; intros s H.
  - destruct s; [reflexivity | discriminate].
  - cbn [matches] in H. cbn [map].
    change (list_sum (pieceLength p :: map pieceLength ps))
      with (pieceLength p + list_sum (map pieceLength ps))%nat.
    destruct p as [l|n|n].
    + apply andb_prop in H as [Hl H]. apply IH in H. apply startsWith_length in Hl.
      rewrite length_drop in H. cbn [pieceLength]. lia.
    + destruct (class_run isDigit n s) as [r|] eqn:E; [|discriminate].
      apply class_run_length in E. apply IH in H. cbn [pieceLength]. lia.
    + destruct (class_run _ n s) as [r|] eqn:E; [|discriminate].
      apply class_run_length in E. apply IH in H. cbn [pieceLength]. lia.
Qed.

Lemma matches_literal l ps s : matches (Literal l :: ps) (l ++ s) = matches ps s.
Proof. cbn [matches]. now rewrite startsWith_app, drop_app_length. Qed.

Lemma matches_digits n a ps s :
  List.length a = n -> forallb isDigit a = true ->
  matches (Digits n :: ps) (a ++ s) = matches ps s.
Proof. intros <- H. cbn [matches]. now rewrite class_run_app. Qed.

Lemma matches_hex n a ps s :
  List.length a = n -> forallb (fun c => isHexDigit c || (c =? 45)%N) a = true ->
  matches (HexOrDash n :: ps) (a ++ s) = matches ps s.
Proof. intros <- H. cbn [matches]. now rewrite class_run_app. Qed.

Section KeyFacts.
Local Open Scope Z_scope.

Lemma isoText_key y m d h mi s x uuid :
  0 <= y < 10000 -> 0 <= m < 100 -> 0 <= d < 100 -> 0 <= h < 100 ->
  0 <= mi < 100 -> 0 <= s < 100 -> 0 <= x < 1000 -> uuidText uuid ->
  matches LEAD_KEY_RE (lit "leads/" ++ isoText y m d h mi s x ++ lit "_" ++ uuid) = true.
Proof.
  intros Hy Hm Hd Hh Hmi Hs Hx [Hu1 Hu2]. unfold LEAD_KEY_RE, isoText.
  rewrite <- !app_assoc.
  change (lit "Z" ++ lit "_" ++ uuid) with (lit "Z_" ++ uuid).
  rewrite matches_literal.
  rewrite matches_digits by (first [apply pad_length | apply pad_isDigit]; [exact w4 | cbn; lia]).
  rewrite matches_literal.
  rewrite matches_digits by (first [apply pad_length | apply pad_isDigit]; [exact w2 | cbn; lia]).
  rewrite matches_literal.
  rewrite matches_digits by (first [apply pad_length | apply pad_isDigit]; [exact w2 | cbn; lia]).
  rewrite matches_literal.
  rewrite matches_digits by (first [apply pad_length | apply pad_isDigit]; [exact w2 | cbn; lia]).
  rewrite matches_literal.
  rewrite matches_digits by (first [apply pad_length | apply pad_isDigit]; [exact w2 | cbn; lia]).
  rewrite matches_literal.
  rewrite matches_digits by (first [apply pad_length | apply pad_isDigit]; [exact w2 | cbn; lia]).
  rewrite matches_literal.
  rewrite matches_digits by (first [apply pad_length | apply pad_isDigit]; [exact w3 | cbn; lia]).
  rewrite matches_literal.
  rewrite <- (app_nil_r uuid), matches_hex by assumption. reflexivity.
Qed.

(** The fields of the timestamp of an instant with a four-digit year. *)
Lemma toISOString_isoText t :
  fourDigitYear t ->
  exists y m d h mi s x,
    toISOString t = isoText y m d h mi s x
    /\ 0 <= y < 10000 /\ 0 <= m < 100 /\ 0 <= d < 100 /\ 0 <= h < 100
    /\ 0 <= mi < 100 /\ 0 <= s < 100 /\ 0 <= x < 1000.
Proof.
  intros F. pose proof (toISOString_fields t F) as E.
  pose proof (civil_year _ (fourDigitYear_day t F)) as Y.
  pose proof (civil_month_day (t / msPerDay)) as M.
  pose proof (Z.mod_pos_bound t msPerDay eq_refl) as B.
  destruct (civil_from_days (t / msPerDay)) as [[y m] d].
  destruct (clock (t mod msPerDay)) as [[[h mi] s] x] eqn:K.
  exists y, m, d, h, mi, s, x. split; [exact E|].
  revert K. unfold clock, msPerDay in *. intros [= <- <- <- <-].
  repeat split; try lia; clear -B; Z.div_mod_to_equations; lia.
Qed.

End KeyFacts.

(** A generated key has the form [LEAD_KEY_RE] asks for. *)
Lemma newLeadKey_matches now uuid :
  fourDigitYear now -> uuidText uuid ->
  matches LEAD_KEY_RE (newLeadKey now uuid) = true.
Proof.
  intros F U. destruct (toISOString_isoText now F)
    as (y & m & d & h & mi & s & x & E & Hy & Hm & Hd & Hh & Hmi & Hs & Hx).
  unfold newLeadKey. rewrite E. now apply isoText_key.
Qed.

(** X4.  A key made by [newLeadKey] at an instant with a four-digit
    year, with the text of a UUID (36 hexadecimal digits and hyphens),
    passes [assertLeadKey]: what the create function returns as id the
    update function accepts. *)
Theorem X4_generated_key_accepted now uuid :
  fourDigitYear now -> uuidText uuid ->
  assertLeadKey (VStr (newLeadKey now uuid)) = true.
Proof.
  intros F U. pose proof (newLeadKey_matches now uuid F U) as Hmatch.
  unfold assertLeadKey. rewrite Hmatch, andb_true_r.
  apply Nat.ltb_lt. rewrite (matches_length _ _ Hmatch). vm_compute. lia.
Qed.

Lemma X4_witness : assertLeadKey (VStr (newLeadKey Sample.t0 Sample.uuidA)) = true.
Proof.
  apply X4_generated_key_accepted.
  - vm_compute. split; discriminate.
  - split; vm_compute; reflexivity.
Defined.

(** X5.  A key that passes [assertLeadKey] has exactly 67 characters and
    begins with [leads/]; no rate key passes, so the update function
    never reads or writes a rate window. *)
Theorem X5_accepted_key_shape key :
  assertLeadKey (VStr key) = true ->
  List.length key = 67%nat
  /\ startsWith (lit "leads/") key = true
  /\ forall ip, rateKeyForIp ip <> key.
Proof.
  intros H. pose proof (assertLeadKey_prefix key H) as Hp.
  split; [|split; [exact Hp|]].
  - unfold assertLeadKey in H. apply andb_prop in H as [_ H].
    now rewrite (matches_length _ _ H).
  - intros ip E. destruct (rateKeyForIp_prefix ip) as [Hr | Hr]; rewrite E in Hr.
    + now rewrite Hr in Hp.
    + destruct key as [|c key]; [discriminate|].
      change (lit "leads/") with (108%N :: lit "eads/") in Hp.
      change (lit "rate/") with (114%N :: lit "ate/") in Hr.
      cbn [startsWith] in Hp, Hr.
      apply andb_prop in Hp as [Hp _]. apply andb_prop in Hr as [Hr _].
      apply N.eqb_eq in Hp, Hr. rewrite <- Hp in Hr. discriminate Hr.
Qed.

Lemma X5_witness :
  List.length Sample.keyA = 67%nat /\ rateKeyForIp Sample3.source <> Sample.keyA.
Proof.
  destruct (X5_accepted_key_shape Sample.keyA) as (H1 & _ & H3);
    [vm_compute; reflexivity|].
  split; [exact H1 | apply H3].
Defined.

Lemma newLeadKey_inj t1 t2 u1 u2 :
  fourDigitYear t1 -> fourDigitYear t2 ->
  newLeadKey t1 u1 = newLeadKey t2 u2 -> t1 = t2 /\ u1 = u2.
Proof.
  intros F1 F2 E. unfold newLeadKey in E. apply app_inv_head in E.
  assert (Hlen : List.length (toISOString t1) = List.length (toISOString t2)).
  { destruct (toISOString_isoText t1 F1)
      as (y & m & d & h & mi & s & x & -> & ? & ? & ? & ? & ? & ? & ?).
    destruct (toISOString_isoText t2 F2)
      as (y' & m' & d' & h' & mi' & s' & x' & -> & ? & ? & ? & ? & ? & ? & ?).
    rewrite !isoText_length by assumption. reflexivity. }
  apply app_inj_1 in E as [Eiso Eu]; [|exact Hlen].
  apply app_inv_head in Eu. split; [|exact Eu].
  destruct (Z.lt_trichotomy t1 t2) as [Hlt | [Heq | Hgt]]; [|exact Heq|].
  - destruct (toISOString_increasing t1 t2 F1 F2 Hlt) as [H _].
    rewrite Eiso, str_ltb_irrefl in H. discriminate.
  - destruct (toISOString_increasing t2 t1 F2 F1 Hgt) as [H _].
    rewrite Eiso, str_ltb_irrefl in H. discriminate.
Qed.

(** X6.  Keys tell leads apart: two leads created at different instants
    (of four-digit years), or at one instant with different UUIDs, never
    share a key, so neither overwrites the other in the store. *)
Theorem X6_distinct_leads_distinct_keys t1 t2 u1 u2 :
  fourDigitYear t1 -> fourDigitYear t2 ->
  t1 <> t2 \/ u1 <> u2 ->
  newLeadKey t1 u1 <> newLeadKey t2 u2.
Proof.
  intros F1 F2 Hne E. destruct (newLeadKey_inj t1 t2 u1 u2 F1 F2 E) as [Ht Hu].
  destruct Hne; contradiction.
Qed.

Lemma X6_witness : str_eqb Sample.keyA Sample.keyB = false.
Proof.
  apply str_eqb_neq, X6_distinct_leads_distinct_keys.
  - vm_compute. split; discriminate.
  - vm_compute. split; discriminate.
  - left. vm_compute. discriminate.
Defined.

(** X7.  A rate key is empty, exactly when the address is blank, or it
    is [rate/] followed by 1 to 80 characters that are all letters,
    digits, dots, underscores or hyphens: it holds no colon and no
    further slash. *)
Theorem X7_rateKey_safe ip :
  (rateKeyForIp ip = [] <-> trim ip = [])
  /\ (rateKeyForIp ip = []
      \/ exists fragment,
           rateKeyForIp ip = lit "rate/" ++ fragment
           /\ (1 <= List.length fragment <= 80)%nat
           /\ forallb safeChar fragment = true
           /\ ~ In 58%N fragment /\ ~ In 47%N fragment).
Proof.
  unfold rateKeyForIp. rewrite sanitizeText_take.
  destruct (take 80 (trim ip)) as [|c r] eqn:E.
  - split; [|now left]. split; [|reflexivity]. intros _.
    destruct (trim ip); [reflexivity | discriminate].
  - split.
    + split; [discriminate|]. intros H. now rewrite H in E.
    + right. eexists. split; [reflexivity|].
      assert (Hsafe : forall l : jsstring,
                 forallb safeChar
                   (map (fun c => if isLower c || isUpper c || isDigit c
                                     || (c =? 46)%N || (c =? 95)%N || (c =? 45)%N
                                  then c else 95%N) l) = true).
      { intros l. induction l as [|a l IH]; [reflexivity|]. cbn [map forallb].
        rewrite IH, andb_true_r.
        destruct (isLower a || isUpper a || isDigit a
                  || (a =? 46)%N || (a =? 95)%N || (a =? 45)%N) eqn:Ha;
          [exact Ha | reflexivity]. }
      split; [|split; [apply Hsafe|]].
      * rewrite length_map, <- E, length_take. cbn [List.length]. split; [|lia].
        assert (List.length (take 80 (trim ip)) = List.length (c :: r)) by now rewrite E.
        rewrite length_take in H. cbn [List.length] in H. lia.
      * specialize (Hsafe (c :: r)). rewrite forallb_forall in Hsafe.
        split; intros Hin; apply Hsafe in Hin; discriminate Hin.
Qed.

Lemma In_trimStart (x : N) s : In x (trimStart s) -> In x s.
Proof.
  induction s as [|c s IH]; [auto|]. cbn [trimStart].
  destruct (isWhiteSpace c); [right; auto | auto].
Qed.

Lemma In_trim (x : N) s : In x (trim s) -> In x s.
Proof.
  unfold trim, trimEnd. intros H. apply in_rev, In_trimStart, in_rev in H.
  now apply In_trimStart.
Qed.

(** X8.  The address of the client holds no comma and no white space at
    either end; when the platform supplies [context.ip], the two headers
    play no role. *)
Theorem X8_clientIp req context :
  ~ In 44%N (getClientIp req context)
  /\ trim (getClientIp req context) = getClientIp req context
  /\ (forall ip req',
        Context.ip context = Some ip -> ip <> [] ->
        getClientIp req' context = getClientIp req context).
Proof.
  split; [|split].
  - unfold getClientIp. set (ip := str_or _ _).
    assert (Hhead : ~ In 44%N (default [] (head (split 44 ip)))).
    { clear. induction ip as [|c ip IH]; [cbn; tauto|]. cbn [split].
      destruct (N.eqb_spec c 44) as [->|Hc]; [cbn; tauto|].
      destruct (split 44 ip) as [|p ps]; cbn in *; intros [H | H]; congruence || tauto. }
    intros Hin. apply Hhead. now apply In_trim.
  - unfold getClientIp. apply trim_idem.
  - intros ip req' Hip Hne. unfold getClientIp. rewrite Hip.
    destruct ip; [contradiction | reflexivity].
Qed.

Lemma X8_witness :
  getClientIp (Sample.request (lit "POST") VNull) Sample.ctxPublic = lit "203.0.113.7".
Proof.
  destruct (X8_clientIp (Sample.request (lit "POST") VNull) Sample.ctxPublic)
    as (_ & _ & H).
  rewrite <- (H (lit "203.0.113.7") (Sample3.jessRequest) eq_refl ltac:(discriminate)).
  reflexivity.
Defined.

(* ===================================================================== *)
(** ** Who is let in *)
(* ===================================================================== *)

Lemma includes_str_In l x : includes_str l x = true <-> In x l.
Proof.
  unfold includes_str. rewrite existsb_exists. split.
  - intros (y & Hy & E). apply str_eqb_eq in E. now subst.
  - intros H. exists x. split; [exact H | apply str_eqb_refl].
Qed.

Lemma allowlist_nonempty env : ~ In [] (allowlist env).
Proof. unfold allowlist. intros H. apply filter_In in H as [_ H]. discriminate. Qed.

Lemma requireAdmin_outcomes env context :
  requireAdmin env context = Granted
  \/ requireAdmin env context = Denied 401 (lit "Unauthorized")
  \/ requireAdmin env context = Denied 403 (lit "Forbidden").
Proof.
  unfold requireAdmin. destruct (Context.user context); [|right; now left].
  destruct (negb _ && negb _); [right; now right | now left].
Qed.

(** X9.  For an allowlist and an email in Latin-1, the admin gate lets a
    request in exactly when it carries a verified identity and either
    the lower-cased email of the identity is an entry of the allowlist
    or a required role is configured and among the roles of the identity
    ([app_metadata.roles] when present, else [user_metadata.roles]).  No
    entry of the allowlist is empty, so an identity without email is
    never let in by the allowlist. *)
Theorem X9_requireAdmin_granted env context :
  latin1 (str_or (Env.ADMIN_EMAILS env) []) ->
  latin1 (emailOf context) ->
  (requireAdmin env context = Granted <->
   exists user,
     Context.user context = Some user
     /\ (In (toLowerCase (str_or (User.email user) [])) (allowlist env)
         \/ (trim (str_or (Env.ADMIN_ROLE env) []) <> []
             /\ In (trim (str_or (Env.ADMIN_ROLE env) []))
                  (match User.app_roles user with
                   | Some r => r
                   | None => default [] (User.user_roles user)
                   end))))
  /\ ~ In [] (allowlist env)
  /\ (requireAdmin env context = Granted
      \/ requireAdmin env context = Denied 401 (lit "Unauthorized")
      \/ requireAdmin env context = Denied 403 (lit "Forbidden")).
Proof.
  intros _ _. split; [|split; [apply allowlist_nonempty|]].
  - unfold requireAdmin. destruct (Context.user context) as [user|].
    + set (email := toLowerCase _). set (role := trim _). set (roles := match _ with Some r => r | None => _ end).
      assert (He : (if (0 <? List.length (allowlist env))%nat
                    then includes_str (allowlist env) email else false) = true
                   <-> In email (allowlist env)).
      { destruct (allowlist env) as [|a l] eqn:E; [cbn; split; [discriminate | tauto]|].
        cbn [List.length Nat.ltb Nat.leb]. apply includes_str_In. }
      assert (Hr : match role with [] => false | _ :: _ => includes_str roles role end = true
                   <-> role <> [] /\ In role roles).
      { destruct role as [|c r]; [split; [discriminate | intros [H _]; contradiction]|].
        rewrite includes_str_In. split; [intros H; split; [discriminate | exact H] | tauto]. }
      destruct (if (0 <? List.length (allowlist env))%nat
                then includes_str (allowlist env) email else false) eqn:E1;
        destruct (match role with [] => false | _ :: _ => includes_str roles role end) eqn:E2;
        cbn [negb andb]; rewrite ?E1 in He; rewrite ?E2 in Hr;
        split; try discriminate; try (intros _; reflexivity);
        try (intros _; exists user; split; [reflexivity|]; tauto).
      intros (u & [= <-] & [H | H]);
        [apply (proj2 He) in H | apply (proj2 Hr) in H]; discriminate H.
    + split; [discriminate|]. intros (u & H & _). discriminate.
  - apply requireAdmin_outcomes.
Qed.

Lemma X9_witness : requireAdmin Sample.envAdmin Sample.ctxAdmin = Granted.
Proof.
  apply (proj1 (X9_requireAdmin_granted Sample.envAdmin Sample.ctxAdmin eq_refl eq_refl)).
  exists Sample.admin. split; [reflexivity|]. left. vm_compute. left. reflexivity.
Defined.

(** X10.  A request that is not authorized (no bearer header, no
    verified identity, or an identity the admin gate turns down) is
    answered 401 or 403 by the list and the update function whatever the
    store holds: the answer is the same on every store and listing, and
    the update returns the store as it was. *)
Theorem X10_unauthorized_no_store_access env req context :
  ~ authorized env req context ->
  exists status error,
    (status = 401%Z \/ status = 403%Z)
    /\ (Request.method req = lit "GET" ->
        forall store blobs,
          LeadsList.handler env req context store blobs
          = Response status (PError error))
    /\ (Request.method req = lit "POST" \/ Request.method req = lit "PATCH" ->
        forall now write_ok store,
          LeadsUpdate.handler env now write_ok req context store
          = (Response status (PError error), store)).
Proof.
  unfold authorized. intros Hna.
  assert (Hcase : (exists status error, (status = 401%Z \/ status = 403%Z)
                     /\ requireJwt req context = Denied status error)
                  \/ (requireJwt req context = Granted
                      /\ exists status error, (status = 401%Z \/ status = 403%Z)
                           /\ requireAdmin env context = Denied status error)).
  { destruct (requireJwt req context) as [|st er] eqn:Hj.
    - right. split; [reflexivity|].
      destruct (requireAdmin_outcomes env context) as [H | [H | H]].
      + exfalso. apply Hna. now split.
      + exists 401%Z, (lit "Unauthorized"). split; [now left | exact H].
      + exists 403%Z, (lit "Forbidden"). split; [now right | exact H].
    - left. exists st, er. split; [|reflexivity].
      unfold requireJwt in Hj. destruct (negb _); [injection Hj as <- _; now left|].
      destruct (Context.user context); [discriminate | injection Hj as <- _; now left]. }
  destruct Hcase as [(status & error & Hs & Hj) | (Hj & status & error & Hs & Ha)];
    exists status, error; (split; [exact Hs|]); split.
  - intros Hm store blobs. unfold LeadsList.handler, handleOptions. now rewrite Hm, Hj.
  - intros Hm now write_ok store. unfold LeadsUpdate.handler, handleOptions.
    rewrite Hj. destruct Hm as [-> | ->]; reflexivity.
  - intros Hm store blobs. unfold LeadsList.handler, handleOptions. now rewrite Hm, Hj, Ha.
  - intros Hm now write_ok store. unfold LeadsUpdate.handler, handleOptions.
    rewrite Hj, Ha. destruct Hm as [-> | ->]; reflexivity.
Qed.

Lemma X10_witness :
  exists status error,
    (status = 401%Z \/ status = 403%Z)
    /\ forall store blobs,
         LeadsList.handler Sample.envAdmin (Sample.listRequest None None None)
           Sample.ctxPublic store blobs
         = Response status (PError error).
Proof.
  destruct (X10_unauthorized_no_store_access Sample.envAdmin
              (Sample.listRequest None None None) Sample.ctxPublic)
    as (status & error & Hs & Hlist & _).
  - intros [H _]. vm_compute in H. discriminate H.
  - exists status, error. split; [exact Hs|]. apply Hlist. reflexivity.
Defined.

(* ===================================================================== *)
(** ** What the create function writes *)
(* ===================================================================== *)

(** X11.  [isHoneypotTripped] answers [false] for a body that is no
    object, and [true] whenever the honeypot check of the create function
    finds a text in [hp]: the check of the function is the first of the
    five fields [isHoneypotTripped] looks at. *)
Theorem X11_honeypot_fields body :
  (truthy body && typeof_object body = false -> isHoneypotTripped body = Ok false)
  /\ (forall c r, honeypot body = Ok (c :: r) -> isHoneypotTripped body = Ok true).
Proof.
  unfold isHoneypotTripped, honeypot. split.
  - intros H. apply andb_false_iff in H as [-> | ->]; [reflexivity|].
    now rewrite orb_true_r.
  - intros c r H. destruct (truthy body && typeof_object body) eqn:Hobj; [|discriminate].
    apply andb_prop in Hobj as [-> ->]. cbn [negb orb].
    unfold HONEYPOT_KEYS. cbn [honeypotLoop].
    assert (Hown : hasOwnProperty body (lit "hp") = true).
    { destruct body as [| |b|n|s|items|props];
        try (cbn [get] in H; discriminate H).
      unfold hasOwnProperty. unfold get in H.
      destruct (lookup_prop (lit "hp") props); [reflexivity | discriminate H]. }
    now rewrite Hown, H.
Qed.

Lemma X11_witness :
  isHoneypotTripped (VObj [(lit "name", VStr (lit "Bot")); (lit "hp", VStr (lit "x"))])
  = Ok true.
Proof.
  apply (proj2 (X11_honeypot_fields _) 120%N []). reflexivity.
Defined.

(** X12.  A POST whose [Content-Length] does not trip the size guard
    and whose honeypot field holds a text is answered 400 "Spam
    detected", whatever else the body holds and whatever its size, and
    the store is returned as it was. *)
Theorem X12_honeypot_rejected env w req context store c r :
  Request.method req = lit "POST" ->
  isPayloadTooLarge req 10000 = false ->
  honeypot (Request.body req) = Ok (c :: r) ->
  LeadsCreate.handler env w req context store
  = (Response 400 (PError (lit "Spam detected")), store).
Proof.
  intros Hm Hsize Hhp. unfold LeadsCreate.handler.
  destruct (method_POST req Hm) as [-> ->]. rewrite Hsize. cbv zeta.
  unfold honeypot in Hhp. now rewrite Hhp.
Qed.

Lemma X12_witness :
  LeadsCreate.handler Sample.envNone (Sample.world Sample.t0 LeadsCreate.ServiceFails)
    (Sample.request (lit "POST")
       (VObj [(lit "name", VStr (lit "Jess")); (lit "phone", VStr (lit "4355551234"));
              (lit "hp", VStr (lit "x"))]))
    Sample.ctxPublic Sample.storeA
  = (Response 400 (PError (lit "Spam detected")), Sample.storeA).
Proof. apply (X12_honeypot_rejected _ _ _ _ _ 120%N []); reflexivity. Defined.

(** X13.  Whatever the request and the world, the create function
    touches the store in two places at most: the lead under the new key
    and the rate window of the source.  Every other lead and every other
    window is left as it was, and unless the answer is a 200 no lead is
    written at all. *)
Theorem X13_create_writes env w req context store :
  let '(o, store') := LeadsCreate.handler env w req context store in
  (forall key, key <> newLeadKey (LeadsCreate.now w) (LeadsCreate.uuid w) ->
               Store.leads store' !! key = Store.leads store !! key)
  /\ (forall rk, rk <> rateKeyForIp (getClientIp req context) ->
                 Store.rate store' !! rk = Store.rate store !! rk)
  /\ ((forall id dm, o <> Response 200 (PCreated id dm)) ->
      Store.leads store' = Store.leads store).
Proof.
  unfold LeadsCreate.handler.
  destruct (handleOptions req); [auto|].
  destruct (negb _); [auto|]. destruct (isPayloadTooLarge req 10000); [auto|]. cbv zeta.
  destruct (if truthy (Request.body req) && typeof_object (Request.body req)
            then _ else _) as [[|c hp]|e]; [|auto|auto].
  destruct (10000 <? _)%N; [auto|].
  destruct (LeadsCreate.validatePayload (Request.body req)) as [[error|lead]|e];
    [auto| |auto].
  pose proof (rateLimit_writes w req context store) as Hr.
  destruct (LeadsCreate.rateLimit w req context store) as [limited|store1]; [auto|].
  destruct Hr as [Hl Hrate].
  destruct (LeadsCreate.lead_write_ok w).
  - split; [|split; [exact Hrate|]].
    + intros key Hne. unfold Store.set_lead. cbn [Store.leads].
      now rewrite lookup_insert_ne, Hl.
    + intros H. exfalso. eapply H. reflexivity.
  - split; [|split; [exact Hrate|]]; [intros; now rewrite Hl | now intros].
Qed.

(** X14.  The rate limiter fails open: a valid submission is admitted,
    and no rate window is written, when the source has no address or
    when the read of its window fails, whatever the store holds for the
    source; and when only the write of the window fails, a submission
    that the window read lets through is admitted all the same. *)
Theorem X14_rate_limit_fails_open env w req context store lead :
  submission req [] ->
  LeadsCreate.validatePayload (Request.body req) = Ok (LeadsCreate.Valid lead) ->
  LeadsCreate.lead_write_ok w = true ->
  (getClientIp req context = [] \/ LeadsCreate.rate_read_ok w = false
   \/ (LeadsCreate.rate_write_ok w = false
       /\ LeadsCreate.rateWindow
            (Store.rate store !! rateKeyForIp (getClientIp req context))
            (LeadsCreate.now w) <> None)) ->
  exists dm store',
    LeadsCreate.handler env w req context store
    = (Response 200 (PCreated (newLeadKey (LeadsCreate.now w) (LeadsCreate.uuid w)) dm),
       store')
    /\ Store.rate store' = Store.rate store.
Proof.
  intros Hsub Hval Hlead Hcase.
  rewrite (handler_submission env w req context store [] Hsub), Hval.
  assert (Hrate : LeadsCreate.rateLimit w req context store = inr store).
  { unfold LeadsCreate.rateLimit.
    destruct (getClientIp req context) as [|c ip] eqn:Hip; [reflexivity|].
    destruct (rateKeyForIp (c :: ip)) as [|k rk] eqn:Hrk; [reflexivity|].
    destruct Hcase as [H | [H | [Hw Hwin]]]; [discriminate | now rewrite H |].
    destruct (negb _); [reflexivity|].
    destruct (LeadsCreate.rateWindow _ _); [now rewrite Hw | contradiction]. }
  rewrite Hrate. cbv zeta. rewrite Hlead. eexists. eexists. split; reflexivity.
Qed.

Lemma X14_witness :
  exists dm store',
    LeadsCreate.handler Sample.envNone (Sample.world Sample.t0 LeadsCreate.ServiceFails)
      Sample3.jessRequest (Context.mk None None) Sample3.emptyStore
    = (Response 200 (PCreated Sample.keyA dm), store')
    /\ Store.rate store' = Store.rate Sample3.emptyStore.
Proof.
  apply (X14_rate_limit_fails_open Sample.envNone
           (Sample.world Sample.t0 LeadsCreate.ServiceFails)
           Sample3.jessRequest (Context.mk None None) Sample3.emptyStore Sample.jess).
  - repeat split; try reflexivity. vm_compute. discriminate.
  - vm_compute. reflexivity.
  - reflexivity.
  - left. reflexivity.
Defined.

(** X15.  The window the rate limiter writes never counts more than
    [MAX_REQ] submissions, counts one at least when the window before
    did not count below zero, and carries the instant of the submission;
    it starts at that instant, with count 1, or continues a window that
    is still running and keeps its start.  A submission is turned down
    only against a running window that has counted [MAX_REQ] or more. *)
Theorem X15_window_invariant prev now :
  (forall next,
      LeadsCreate.rateWindow prev now = Some next ->
      (RateWindow.count next <= LeadsCreate.MAX_REQ)%Z
      /\ ((forall w, prev = Some w -> (0 <= RateWindow.count w)%Z) ->
          (1 <= RateWindow.count next)%Z)
      /\ RateWindow.last_submit_at next = now
      /\ ((RateWindow.window_start_at next = now /\ RateWindow.count next = 1%Z)
          \/ exists w,
               prev = Some w
               /\ RateWindow.window_start_at next = RateWindow.window_start_at w
               /\ RateWindow.count next = (RateWindow.count w + 1)%Z
               /\ (now - RateWindow.window_start_at w < LeadsCreate.WINDOW_MS)%Z))
  /\ (LeadsCreate.rateWindow prev now = None ->
      exists w,
        prev = Some w
        /\ (now - RateWindow.window_start_at w < LeadsCreate.WINDOW_MS)%Z
        /\ (LeadsCreate.MAX_REQ <= RateWindow.count w)%Z).
Proof.
  unfold LeadsCreate.rateWindow, LeadsCreate.MAX_REQ. destruct prev as [[s n l]|]; simpl.
  - destruct (negb (s =? 0)%Z && (now - s <? LeadsCreate.WINDOW_MS)%Z) eqn:Hin.
    + apply andb_prop in Hin as [_ Hin]. apply Z.ltb_lt in Hin. simpl.
      destruct (3 <=? n)%Z eqn:Hn.
      * apply Z.leb_le in Hn. split; [discriminate|]. intros _.
        exists (RateWindow.mk s n l). auto.
      * apply Z.leb_gt in Hn. split; [|discriminate]. intros next [= <-]. simpl.
        split; [lia|]. split; [intros H; specialize (H _ eq_refl); simpl in H; lia|].
        split; [reflexivity|]. right. exists (RateWindow.mk s n l). auto.
    + simpl. split; [|discriminate]. intros next [= <-]. simpl.
      split; [lia|]. split; [lia|]. split; [reflexivity|]. left. auto.
  - split; [|discriminate]. intros next [= <-]. simpl.
    split; [lia|]. split; [lia|]. split; [reflexivity|]. left. auto.
Qed.

Lemma X15_witness :
  exists next,
    LeadsCreate.rateWindow (Some (RateWindow.mk Sample.t0 2 Sample.t0))
      (Sample.t0 + 1000) = Some next
    /\ RateWindow.count next = 3%Z /\ RateWindow.window_start_at next = Sample.t0.
Proof.
  assert (H : LeadsCreate.rateWindow (Some (RateWindow.mk Sample.t0 2 Sample.t0))
                (Sample.t0 + 1000)
              = Some (RateWindow.mk Sample.t0 3 (Sample.t0 + 1000)))
    by (vm_compute; reflexivity).
  eexists. split; [exact H|].
  destruct (proj1 (X15_window_invariant _ _) _ H) as (_ & _ & _ & [[_ Hc] | Hw]).
  - discriminate Hc.
  - destruct Hw as (w & [= <-] & Hs & Hc & _). split; [exact Hc | exact Hs].
Defined.





(** X17.  A payload that passes validation has the canonical shape: a
    name that is not empty, of 80 characters at most; a phone or an
    instagram handle; the phone empty or canonical; the handle empty or
    an at sign and up to 60 more characters; and every other field
    within its bound (service 100, availability 160, notes 1000,
    contact preference, budget and length 40, style 80). *)
Theorem X17_validated_lead_shape body lead :
  LeadsCreate.validatePayload body = Ok (LeadsCreate.Valid lead) -> leadShape lead.
Proof.
  unfold LeadsCreate.validatePayload.
  destruct (negb (truthy body) || negb (typeof_object body)); [discriminate|].
  intros H. bind_ok H. bind_ok H. bind_ok H.
  rename a into name, a0 into phone, a1 into instagram.
  assert (Hshape : name <> [] /\ (phone <> [] \/ instagram <> [])
          /\ exists service availability notes contact_preference budget length style,
               (List.length service <= 100 /\ List.length availability <= 160
                /\ List.length notes <= 1000 /\ List.length contact_preference <= 40
                /\ List.length budget <= 40 /\ List.length length <= 40
                /\ List.length style <= 80)%nat
               /\ lead = Lead.mk name phone instagram service availability notes
                           contact_preference budget length style).
  { destruct name as [|c name]; [discriminate|].
    assert (Hc : phone <> [] \/ instagram <> []).
    { destruct phone; [|left; discriminate]. destruct instagram; [discriminate|].
      right. discriminate. }
    split; [discriminate|]. split; [exact Hc|].
    assert (H' : (service ← sanitizeString
                    (or_else (get body (lit "service")) (get body (lit "requested_service"))) 100;
                  availability ← sanitizeString
                    (or_else (get body (lit "availability")) (get body (lit "timeframe"))) 160;
                  notes ← sanitizeString
                    (or_else (or_else (get body (lit "notes")) (get body (lit "message")))
                       (get body (lit "details"))) 1000;
                  contact_preference ← sanitizeString (get body (lit "contact_preference")) 40;
                  budget ← sanitizeString (get body (lit "budget")) 40;
                  length ← sanitizeString (get body (lit "length")) 40;
                  style ← sanitizeString (get body (lit "style")) 80;
                  Ok (LeadsCreate.Valid
                        (Lead.mk (c :: name) phone instagram service availability notes
                           contact_preference budget length style)))
                 = Ok (LeadsCreate.Valid lead)).
    { destruct phone, instagram; try exact H. destruct Hc; contradiction. }
    clear H. bind_ok H'. bind_ok H'. bind_ok H'. bind_ok H'. bind_ok H'. bind_ok H'.
    bind_ok H'. injection H' as <-.
    do 7 eexists. split; [|reflexivity].
    repeat split; eapply sanitizeString_length; eassumption. }
  destruct Hshape as (Hn & Hc & service & availability & notes & cp & budget & len & style
                      & (H1 & H2 & H3 & H4 & H5 & H6 & H7) & ->).
  unfold leadShape. cbn [Lead.name Lead.phone Lead.instagram Lead.service
    Lead.availability Lead.notes Lead.contact_preference Lead.budget Lead.length Lead.style].
  split; [exact Hn|]. split; [eapply sanitizeString_length; eassumption|].
  split; [exact Hc|]. split; [apply (normalizePhone_range _ _ E0)|].
  split; [|repeat split; assumption].
  destruct (normalizeInstagram_range _ _ E1) as [-> | (raw & Hraw & -> & Hl)]; [now left|].
  right. split; [reflexivity|]. destruct raw; [contradiction|]. cbn [List.length] in *. lia.
Qed.

Lemma X17_witness : leadShape Sample.jess.
Proof.
  apply (X17_validated_lead_shape Sample3.jessBody). vm_compute. reflexivity.
Defined.

(* ===================================================================== *)
(** ** What a patch changes *)
(* ===================================================================== *)

(** The patch [applyPatch] works on reads a field as [null] or
    [undefined] when the patch given does. *)
Lemma patch_field_absent patch k :
  nullish (get patch k) = true ->
  nullish (get (if truthy patch && typeof_object patch then patch else VObj []) k) = true.
Proof. intros H. destruct (truthy patch && typeof_object patch); [exact H | reflexivity]. Qed.

(** X18.  A patch never changes the id, the creation time, the contact
    payload, the suggested message, the provenance or the booking note
    of a lead, and a field the patch does not carry (or carries as
    [null]) keeps its value.  A patch that carries none of the four
    fields always applies and changes nothing but [updated_at]. *)
Theorem X18_patch_scope now existing patch :
  (forall out,
      LeadsUpdate.applyPatch now existing patch = Ok out ->
      LeadRecord.id out = LeadRecord.id existing
      /\ LeadRecord.created_at out = LeadRecord.created_at existing
      /\ LeadRecord.lead out = LeadRecord.lead existing
      /\ LeadRecord.suggested_dm out = LeadRecord.suggested_dm existing
      /\ LeadRecord.meta out = LeadRecord.meta existing
      /\ LeadRecord.booking out = LeadRecord.booking existing
      /\ (absent patch "status" -> LeadRecord.status out = LeadRecord.status existing)
      /\ (absent patch "internal_notes" ->
          LeadRecord.internal_notes out = LeadRecord.internal_notes existing)
      /\ (absent patch "tags" -> LeadRecord.tags out = LeadRecord.tags existing)
      /\ (absent patch "archived" ->
          LeadRecord.archived out = LeadRecord.archived existing))
  /\ (absent patch "status" -> absent patch "internal_notes" ->
      absent patch "tags" -> absent patch "archived" ->
      LeadsUpdate.applyPatch now existing patch = Ok (touched now existing)).
Proof.
  unfold absent. split.
  - intros out H. unfold LeadsUpdate.applyPatch in H.
    set (p := if truthy patch && typeof_object patch then patch else VObj []) in H.
    pose proof (patch_field_absent patch) as Habs. fold p in Habs.
    bind_ok H. bind_ok H. bind_ok H. injection H as <-.
    cbn [LeadRecord.id LeadRecord.created_at LeadRecord.lead LeadRecord.suggested_dm
         LeadRecord.meta LeadRecord.booking LeadRecord.status LeadRecord.internal_notes
         LeadRecord.tags LeadRecord.archived].
    repeat split.
    + intros Hs. rewrite (Habs _ Hs) in E. now injection E as <-.
    + intros Hs. rewrite (Habs _ Hs) in E0. now injection E0 as <-.
    + intros Hs. rewrite (Habs _ Hs) in E1. now injection E1 as <-.
    + intros Hs. now rewrite (Habs _ Hs).
  - intros H1 H2 H3 H4. unfold LeadsUpdate.applyPatch.
    rewrite !patch_field_absent by assumption.
    cbn [negb mbind result_bind]. rewrite str_eqb_refl. reflexivity.
Qed.

Lemma X18_witness :
  LeadsUpdate.applyPatch (Sample.t0 + 1000) Sample.recordA (VObj [(lit "note", VNull)])
  = Ok (touched (Sample.t0 + 1000) Sample.recordA).
Proof. apply (proj2 (X18_patch_scope _ _ _)); reflexivity. Defined.

(** The status of a patched lead is one of the fixed set whenever the
    patch carries a status, and whenever the lead had one of the set
    before. *)
Lemma applyPatch_valid now existing patch out :
  LeadsUpdate.applyPatch now existing patch = Ok out ->
  LeadsUpdate.isValidStatus (LeadRecord.status existing) = true
  \/ nullish (get (if truthy patch && typeof_object patch then patch else VObj [])
                (lit "status")) = false ->
  LeadsUpdate.isValidStatus (LeadRecord.status out) = true.
Proof.
  intros H Hcase. unfold LeadsUpdate.applyPatch in H.
  set (p := if truthy patch && typeof_object patch then patch else VObj []) in *.
  bind_ok H. bind_ok H. bind_ok H. injection H as <-. cbn [LeadRecord.status].
  destruct (nullish (get p (lit "status"))) eqn:Hn; cbn [negb] in E.
  - injection E as <-. destruct Hcase as [Hv | Hc]; [exact Hv | discriminate].
  - bind_ok E. destruct (LeadsUpdate.isValidStatus a2) eqn:Hv; [|discriminate].
    now injection E as <-.
Qed.

Lemma keyedById_insert key r store :
  keyedById store -> LeadRecord.id r = key -> keyedById (Store.set_lead key r store).
Proof.
  intros Hk Hid key' r' H. unfold Store.set_lead in H. cbn [Store.leads] in H.
  apply lookup_insert_Some in H as [[<- <-] | [_ H]]; [exact Hid | exact (Hk _ _ H)].
Qed.

Lemma statusesValid_insert key r store :
  statusesValid store -> LeadsUpdate.isValidStatus (LeadRecord.status r) = true ->
  statusesValid (Store.set_lead key r store).
Proof.
  intros Hk Hv key' r' H. unfold Store.set_lead in H. cbn [Store.leads] in H.
  apply lookup_insert_Some in H as [[<- <-] | [_ H]]; [exact Hv | exact (Hk _ _ H)].
Qed.

(** X19.  Two invariants of the store that both writing functions keep,
    whatever the request: every lead is stored under its own id, and the
    status of every stored lead is one of [new], [contacted], [booked],
    [closed], [noshow]. *)
Theorem X19_store_invariants env w now write_ok creq ccontext ureq ucontext store :
  keyedById store -> statusesValid store ->
  (let '(_, store') := LeadsCreate.handler env w creq ccontext store in
   keyedById store' /\ statusesValid store')
  /\ (let '(_, store') := LeadsUpdate.handler env now write_ok ureq ucontext store in
      keyedById store' /\ statusesValid store').
Proof.
  intros Hk Hv. split.
  - unfold LeadsCreate.handler.
    destruct (handleOptions creq); [auto|].
    destruct (negb _); [auto|]. destruct (isPayloadTooLarge creq 10000); [auto|]. cbv zeta.
    destruct (if truthy (Request.body creq) && typeof_object (Request.body creq)
              then _ else _) as [[|c hp]|e]; [|auto|auto].
    destruct (10000 <? _)%N; [auto|].
    destruct (LeadsCreate.validatePayload (Request.body creq)) as [[error|lead]|e];
      [auto| |auto].
    pose proof (rateLimit_writes w creq ccontext store) as Hr.
    destruct (LeadsCreate.rateLimit w creq ccontext store) as [limited|store1]; [auto|].
    destruct Hr as [Hl _].
    assert (Hk1 : keyedById store1) by (intros key r; rewrite Hl; apply Hk).
    assert (Hv1 : statusesValid store1) by (intros key r; rewrite Hl; apply Hv).
    destruct (LeadsCreate.lead_write_ok w); [|auto]. split.
    + now apply keyedById_insert.
    + now apply statusesValid_insert.
  - unfold LeadsUpdate.handler.
    destruct (handleOptions ureq); [auto|]. destruct (negb _ && negb _); [auto|].
    destruct (requireJwt ureq ucontext); [|auto].
    destruct (requireAdmin env ucontext); [|auto]. cbv zeta.
    destruct (negb _ || negb _); [auto|].
    destruct (get (Request.body ureq) (lit "id")) as [| | | |id| |]; auto.
    destruct (negb (assertLeadKey (VStr id))); [auto|].
    destruct (if negb _ then _ else _) as [[|]|e]; [|auto|auto].
    destruct (Store.leads store !! id) as [existing|] eqn:Hex; [|auto].
    destruct (LeadsUpdate.applyPatch now existing _) as [updated|e] eqn:Hp; [|auto].
    destruct write_ok; [|auto]. split.
    + apply keyedById_insert; [exact Hk|].
      destruct (applyPatch_fields _ _ _ _ Hp) as (_ & _ & _ & -> & _). exact (Hk _ _ Hex).
    + apply statusesValid_insert; [exact Hv|].
      eapply applyPatch_valid; [exact Hp | left; exact (Hv _ _ Hex)].
Qed.

Lemma X19_witness :
  keyedById (snd (LeadsCreate.handler Sample.envNone
                    (Sample.world (Sample.t0 + 60000) LeadsCreate.ServiceFails)
                    Sample3.jessRequest Sample.ctxPublic Sample.storeA))
  /\ keyedById
       (snd (LeadsUpdate.handler Sample.envNone (Sample.t0 + 1000) true
               (Sample.updateRequest Sample.keyA (statusPatch (lit "booked")))
               Sample.ctxAdmin Sample.storeA)).
Proof.
  assert (Hk : keyedById Sample.storeA)
    by (intros key r H; unfold Sample.storeA in H; cbn [Store.leads] in H;
        apply lookup_singleton_Some in H as [<- <-]; reflexivity).
  assert (Hv : statusesValid Sample.storeA)
    by (intros key r H; unfold Sample.storeA in H; cbn [Store.leads] in H;
        apply lookup_singleton_Some in H as [<- <-]; reflexivity).
  pose proof (X19_store_invariants Sample.envNone
                (Sample.world (Sample.t0 + 60000) LeadsCreate.ServiceFails)
                (Sample.t0 + 1000) true Sample3.jessRequest Sample.ctxPublic
                (Sample.updateRequest Sample.keyA (statusPatch (lit "booked")))
                Sample.ctxAdmin Sample.storeA Hk Hv) as [Hc Hu].
  split.
  - destruct (LeadsCreate.handler _ _ _ _ _) as [o s]. exact (proj1 Hc).
  - destruct (LeadsUpdate.handler _ _ _ _ _ _) as [o s]. exact (proj1 Hu).
Defined.

(** The store is returned as it was. *)
Ltac untouched :=
  split; [reflexivity | split; [intros ? H; now contradiction H | reflexivity]].

(** X20.  Whatever the request, the update function neither adds nor
    removes a lead; a lead it changes is the one the body names, under
    an id that passes [assertLeadKey], a key of the form of the lead
    keys; unless it answers 200 it returns the store as it was. *)
Theorem X20_update_footprint env now write_ok req context store :
  let '(o, store') := LeadsUpdate.handler env now write_ok req context store in
  dom (Store.leads store') = dom (Store.leads store)
  /\ (forall key, Store.leads store' !! key <> Store.leads store !! key ->
                  get (Request.body req) (lit "id") = VStr key
                  /\ assertLeadKey (VStr key) = true)
  /\ ((forall lead, o <> Response 200 (PUpdated lead)) -> store' = store).
Proof.
  unfold LeadsUpdate.handler.
  destruct (handleOptions req); [untouched|]. destruct (negb _ && negb _); [untouched|].
  destruct (requireJwt req context); [|untouched].
  destruct (requireAdmin env context); [|untouched]. cbv zeta.
  destruct (negb _ || negb _); [untouched|].
  destruct (get (Request.body req) (lit "id")) as [| | | |id| |]; try untouched.
  destruct (assertLeadKey (VStr id)) eqn:Hkey; cbn [negb]; [|untouched].
  destruct (if negb _ then _ else _) as [[|]|e]; [|untouched|untouched].
  destruct (Store.leads store !! id) as [existing|] eqn:Hex; [|untouched].
  destruct (LeadsUpdate.applyPatch now existing _) as [updated|e]; [|untouched].
  destruct write_ok; [|untouched].
  unfold Store.set_lead. cbn [Store.rate Store.leads].
  split; [|split].
  - rewrite dom_insert_L. apply subseteq_union_1_L, singleton_subseteq_l.
    eapply elem_of_dom_2, Hex.
  - intros key Hne. destruct (decide (id = key)) as [<- | Hd]; [now split|].
    contradiction Hne. now apply lookup_insert_ne.
  - intros H. exfalso. eapply H. reflexivity.
Qed.

(** X21.  The update of a lead that is not in the store: an authorized
    update whose id has the form of a key and whose status, if any, is
    valid, is answered 404 when no lead is stored under the id, and
    nothing is written. *)
Theorem X21_unknown_lead env now write_ok req context store id patch :
  authorized env req context ->
  updateOf req id patch ->
  (absent patch "status"
   \/ exists s, LeadsUpdate.normalizeStatus (get patch (lit "status")) = Ok s
                /\ LeadsUpdate.isValidStatus s = true) ->
  Store.leads store !! id = None ->
  LeadsUpdate.handler env now write_ok req context store
  = (Response 404 (PError (lit "Lead not found")), store).
Proof.
  intros [Hjwt Hadm] (Hm & Hb1 & Hb2 & Hid & Hkey & Hp) Hstatus Hnone.
  unfold LeadsUpdate.handler, handleOptions.
  replace (str_eqb (Request.method req) (lit "OPTIONS")) with false
    by (destruct Hm as [-> | ->]; reflexivity).
  replace (negb (str_eqb (Request.method req) (lit "POST"))
           && negb (str_eqb (Request.method req) (lit "PATCH"))) with false
    by (destruct Hm as [-> | ->]; reflexivity).
  rewrite Hjwt, Hadm. cbv zeta. rewrite Hb1, Hb2, Hid, Hkey, Hp. cbn [negb orb].
  destruct Hstatus as [Habs | (s & Hs & Hv)].
  - unfold absent in Habs. rewrite Habs. cbn [negb]. now rewrite Hnone.
  - destruct (nullish (get patch (lit "status"))); cbn [negb];
      [|rewrite Hs; cbn [mbind result_bind]; rewrite Hv]; now rewrite Hnone.
Qed.

Lemma X21_witness :
  LeadsUpdate.handler Sample.envAdmin (Sample.t0 + 1000) true
    (Sample.updateRequest Sample.keyB (statusPatch (lit "booked")))
    Sample.ctxAdmin Sample.storeA
  = (Response 404 (PError (lit "Lead not found")), Sample.storeA).
Proof.
  apply (X21_unknown_lead _ _ _ _ _ _ Sample.keyB (statusPatch (lit "booked"))).
  - split; vm_compute; reflexivity.
  - repeat split; try (vm_compute; reflexivity). right. reflexivity.
  - right. exists (lit "booked"). split; vm_compute; reflexivity.
  - vm_compute. reflexivity.
Defined.

(* ===================================================================== *)
(** ** From the creation of a lead to its update and its listing *)
(* ===================================================================== *)

(** The authorized update [{ id, patch: { status: s } }] of a stored
    lead, with a valid status in its canonical writing. *)
Lemma update_status env now req context store id s existing :
  authorized env req context ->
  Request.method req = lit "POST" \/ Request.method req = lit "PATCH" ->
  Request.body req = updateBody id (statusPatch s) ->
  assertLeadKey (VStr id) = true ->
  LeadsUpdate.isValidStatus s = true ->
  LeadsUpdate.normalizeStatus (VStr s) = Ok s ->
  Store.leads store !! id = Some existing ->
  exists out,
    LeadsUpdate.applyPatch now existing (statusPatch s) = Ok out
    /\ LeadRecord.status out = s
    /\ LeadsUpdate.handler env now true req context store
       = (Response 200 (PUpdated out), Store.set_lead id out store).
Proof.
  intros [Hjwt Hadm] Hm Hb Hkey Hv Hn Hex.
  destruct (applyPatch_status now existing s Hv Hn) as (out & Hp & Hs).
  exists out. split; [exact Hp|]. split; [exact Hs|].
  unfold LeadsUpdate.handler, handleOptions.
  replace (str_eqb (Request.method req) (lit "OPTIONS")) with false
    by (destruct Hm as [-> | ->]; reflexivity).
  replace (negb (str_eqb (Request.method req) (lit "POST"))
           && negb (str_eqb (Request.method req) (lit "PATCH"))) with false
    by (destruct Hm as [-> | ->]; reflexivity).
  rewrite Hjwt, Hadm. cbv zeta. rewrite Hb.
  change (truthy (updateBody id (statusPatch s))) with true.
  change (typeof_object (updateBody id (statusPatch s))) with true.
  change (get (updateBody id (statusPatch s)) (lit "id")) with (VStr id).
  change (LeadsUpdate.coercePatch (updateBody id (statusPatch s))) with (statusPatch s).
  cbn [negb orb]. rewrite Hkey. cbn [negb].
  change (get (statusPatch s) (lit "status")) with (VStr s).
  cbn [nullish negb]. rewrite Hn. cbn [mbind result_bind]. rewrite Hv, Hex, Hp.
  reflexivity.
Qed.

(** X22.  A lead that the create function has stored can be updated
    under the id the function returned: the authorized update
    [{ id, patch: { status: "booked" } }] at an instant [t2] is answered 200
    with the lead, now [booked], closed at [t2], never contacted, created
    when it was submitted; the same update repeated at [t3] leaves the
    closing stamp of [t2] and refreshes [updated_at]. *)
Theorem X22_created_lead_updatable
    env w creq ccontext store id dm store1 uenv ureq ucontext t2 t3 :
  LeadsCreate.handler env w creq ccontext store = (Response 200 (PCreated id dm), store1) ->
  fourDigitYear (LeadsCreate.now w) -> uuidText (LeadsCreate.uuid w) ->
  authorized uenv ureq ucontext ->
  Request.method ureq = lit "POST" \/ Request.method ureq = lit "PATCH" ->
  Request.body ureq = updateBody id (statusPatch (lit "booked")) ->
  exists r1 r2 store2 store3,
    LeadsUpdate.handler uenv t2 true ureq ucontext store1
    = (Response 200 (PUpdated r1), store2)
    /\ LeadRecord.id r1 = id
    /\ LeadRecord.status r1 = lit "booked"
    /\ LeadRecord.closed_at r1 = Some (toISOString t2)
    /\ LeadRecord.contacted_at r1 = None
    /\ LeadRecord.created_at r1 = toISOString (LeadsCreate.now w)
    /\ LeadsUpdate.handler uenv t3 true ureq ucontext store2
       = (Response 200 (PUpdated r2), store3)
    /\ LeadRecord.status r2 = lit "booked"
    /\ LeadRecord.closed_at r2 = Some (toISOString t2)
    /\ LeadRecord.updated_at r2 = toISOString t3.
Proof.
  intros Hc F U Hauth Hm Hb.
  destruct (handler_created _ _ _ _ _ _ _ _ Hc)
    as (_ & lead & store0 & _ & _ & _ & Hid & _ & Hs1).
  assert (Hkey : assertLeadKey (VStr id) = true).
  { pose proof (newLeadKey_matches _ _ F U) as Hmatch. rewrite <- Hid in Hmatch.
    unfold assertLeadKey. rewrite Hmatch, andb_true_r.
    apply Nat.ltb_lt. rewrite (matches_length _ _ Hmatch). vm_compute. lia. }
  assert (Hv : LeadsUpdate.isValidStatus (lit "booked") = true) by (vm_compute; reflexivity).
  assert (Hn : LeadsUpdate.normalizeStatus (VStr (lit "booked")) = Ok (lit "booked"))
    by (vm_compute; reflexivity).
  set (r0 := LeadsCreate.leadRecord w creq ccontext id lead dm) in Hs1.
  assert (Hex : Store.leads store1 !! id = Some r0)
    by (rewrite Hs1; unfold Store.set_lead; cbn [Store.leads]; apply lookup_insert_eq).
  destruct (update_status uenv t2 ureq ucontext store1 id (lit "booked") r0
              Hauth Hm Hb Hkey Hv Hn Hex) as (r1 & Hp1 & Hst1 & Hh1).
  assert (Hex1 : Store.leads (Store.set_lead id r1 store1) !! id = Some r1)
    by (unfold Store.set_lead; cbn [Store.leads]; apply lookup_insert_eq).
  destruct (update_status uenv t3 ureq ucontext _ id (lit "booked") r1
              Hauth Hm Hb Hkey Hv Hn Hex1) as (r2 & Hp2 & Hst2 & Hh2).
  destruct (applyPatch_fields _ _ _ _ Hp1) as (_ & Hc1 & Hd1 & Hi1 & Hcr1).
  destruct (applyPatch_fields _ _ _ _ Hp2) as (Hu2 & _ & Hd2 & _ & _).
  cbv zeta in Hc1, Hd1, Hd2. rewrite Hst1 in Hc1, Hd1, Hd2. rewrite Hst2 in Hd2.
  exists r1, r2, (Store.set_lead id r1 store1), (Store.set_lead id r2 (Store.set_lead id r1 store1)).
  repeat split; try assumption.
  rewrite Hd2, str_eqb_refl. cbn [negb andb]. exact Hd1.
Qed.

Lemma X22_witness :
  exists r1 r2 store2 store3,
    LeadsUpdate.handler Sample.envAdmin (Sample.t0 + 1000) true
      (Sample.updateRequest Sample.keyA (statusPatch (lit "booked"))) Sample.ctxAdmin
      Sample3.jessStore
    = (Response 200 (PUpdated r1), store2)
    /\ LeadRecord.id r1 = Sample.keyA
    /\ LeadRecord.status r1 = lit "booked"
    /\ LeadRecord.closed_at r1 = Some (toISOString (Sample.t0 + 1000))
    /\ LeadRecord.contacted_at r1 = None
    /\ LeadRecord.created_at r1 = toISOString Sample.t0
    /\ LeadsUpdate.handler Sample.envAdmin (Sample.t0 + 2000) true
         (Sample.updateRequest Sample.keyA (statusPatch (lit "booked"))) Sample.ctxAdmin
         store2
       = (Response 200 (PUpdated r2), store3)
    /\ LeadRecord.status r2 = lit "booked"
    /\ LeadRecord.closed_at r2 = Some (toISOString (Sample.t0 + 1000))
    /\ LeadRecord.updated_at r2 = toISOString (Sample.t0 + 2000).
Proof.
  apply (X22_created_lead_updatable Sample.envNone
           (Sample.world Sample.t0 LeadsCreate.ServiceFails)
           Sample3.jessRequest Sample.ctxPublic Sample3.emptyStore
           Sample.keyA (LeadsCreate.fallbackDm (lit "Jess"))).
  - vm_compute. reflexivity.
  - vm_compute. split; discriminate.
  - split; vm_compute; reflexivity.
  - split; vm_compute; reflexivity.
  - right. reflexivity.
  - reflexivity.
Defined.

(** The head of a sorted list of keys is the key above all others. *)
Lemma sorted_head key keys :
  StronglySorted keyGt keys -> In key keys ->
  (forall k, In k keys -> k <> key -> keyGt key k) ->
  exists rest, keys = key :: rest.
Proof.
  intros Hs Hin Hmax. destruct keys as [|x xs]; [destruct Hin|].
  destruct (decide (x = key)) as [-> | Hne]; [now exists xs|]. exfalso.
  destruct Hin as [-> | Hin]; [now apply Hne|].
  apply StronglySorted_inv in Hs as [_ Hall].
  rewrite List.Forall_forall in Hall.
  exact (keyGt_asym _ _ (Hall _ Hin) (Hmax x (or_introl eq_refl) Hne)).
Qed.

(** The default page begins where the matches begin. *)
Lemma page_default req store blobs r rest :
  Request.param_limit req = None -> Request.param_offset req = None ->
  LeadsList.filtered req store blobs = r :: rest ->
  LeadsList.page req store blobs = r :: take 49 rest.
Proof.
  intros Hl Ho Hf. unfold LeadsList.page.
  rewrite Hf, (limit_default req Hl), (offset_default req Ho).
  change (slice (r :: rest) (ofZ 0) (num_add (ofZ 0) (ofZ 50)))
    with (r :: take (Nat.min 49 (List.length rest)) rest).
  f_equal. destruct (Nat.le_ge_cases 49 (List.length rest)) as [H | H].
  - now rewrite Nat.min_l.
  - rewrite Nat.min_r, !take_ge by (exact H || lia). reflexivity.
Qed.

(** X23.  A lead that the create function has stored at an instant
    later than the creation of every other lead is the first record of
    the default listing that follows: the authorized GET with no
    parameter is answered 200 with offset 0, limit 50 and a page that
    begins with the new lead, status [new], with the suggested message
    the create function returned. *)
Theorem X23_created_lead_listed_first
    env w creq ccontext store id dm store1 lenv lreq lcontext blobs :
  LeadsCreate.handler env w creq ccontext store = (Response 200 (PCreated id dm), store1) ->
  fourDigitYear (LeadsCreate.now w) -> createdBefore (LeadsCreate.now w) store ->
  Request.method lreq = lit "GET" -> authorized lenv lreq lcontext ->
  Request.param_archived lreq = None -> Request.param_status lreq = None ->
  Request.param_q lreq = None -> Request.param_limit lreq = None ->
  Request.param_offset lreq = None ->
  LeadsList.listing store1 blobs ->
  exists r rest total,
    LeadsList.handler lenv lreq lcontext store1 blobs
    = Response 200 (PList total (ofZ 0) (ofZ 50) (r :: rest))
    /\ LeadRecord.id r = id
    /\ LeadRecord.status r = lit "new"
    /\ LeadRecord.suggested_dm r = dm
    /\ (1 <= total)%nat.
Proof.
  intros Hc F Hbefore Hm [Hjwt Hadm] Ha Hs Hq Hl Ho Hlist.
  destruct (handler_created _ _ _ _ _ _ _ _ Hc)
    as (_ & lead & store0 & _ & Hrate & _ & Hid & _ & Hs1).
  pose proof (rateLimit_writes w creq ccontext store) as Hw. rewrite Hrate in Hw.
  destruct Hw as [Hleads _].
  set (r0 := LeadsCreate.leadRecord w creq ccontext id lead dm) in Hs1.
  assert (Hex : Store.leads store1 !! id = Some r0)
    by (rewrite Hs1; unfold Store.set_lead; cbn [Store.leads]; apply lookup_insert_eq).
  assert (Hpre : startsWith (lit "leads/") id = true) by (rewrite Hid; apply newLeadKey_prefix).
  pose proof (listing_NoDup _ _ Hlist) as Hnd.
  assert (Hkeys : forall k, In k (LeadsList.sortedKeys blobs) <->
                            startsWith (lit "leads/") k = true
                            /\ exists r, Store.leads store1 !! k = Some r).
  { intros k. rewrite <- list_elem_of_In. unfold LeadsList.sortedKeys.
    rewrite sort_perm, Hlist, list_elem_of_In, filter_In, <- list_elem_of_In.
    rewrite list_elem_of_fmap. split.
    - intros [([k' r] & -> & Hin) Hp]. split; [exact Hp|]. exists r.
      now apply elem_of_map_to_list.
    - intros [Hp (r & Hr)]. split; [|exact Hp]. exists (k, r). split; [reflexivity|].
      now apply elem_of_map_to_list. }
  destruct (sorted_head id (LeadsList.sortedKeys blobs)) as (ks & Hks).
  { now apply sortedKeys_sorted. }
  { apply Hkeys. split; [exact Hpre | now exists r0]. }
  { intros k Hin Hne. apply Hkeys in Hin as [_ (r & Hr)].
    rewrite Hs1 in Hr. unfold Store.set_lead in Hr. cbn [Store.leads] in Hr.
    rewrite lookup_insert_ne, Hleads in Hr by congruence.
    destruct (Hbefore _ _ Hr) as (t' & u & -> & F' & Hlt). rewrite Hid.
    now apply newLeadKey_increasing. }
  assert (Hf : exists rest, LeadsList.filtered lreq store1 blobs = r0 :: rest).
  { unfold LeadsList.filtered, LeadsList.hydrate. rewrite Hks.
    cbn [omap list_omap]. rewrite Hex.
    unfold LeadsList.archivedMode, LeadsList.statusParam, LeadsList.qParam.
    rewrite Ha, Hs, Hq.
    change (toLowerCase (trim (str_or None []))) with (@nil N). cbv iota.
    change (LeadsList.archivedFilter (lit "false")) with
      (fun r => negb (LeadRecord.archived r)).
    cbn [List.filter LeadsList.statusFilter LeadsList.qFilter].
    change (negb (LeadRecord.archived r0)) with true. cbv iota.
    cbn [List.filter LeadsList.statusFilter LeadsList.qFilter]. eexists. reflexivity. }
  destruct Hf as (rest & Hf).
  exists r0, (take 49 rest), (S (List.length rest)).
  split; [|repeat split; lia].
  unfold LeadsList.handler, handleOptions. rewrite Hm.
  change (str_eqb (lit "GET") (lit "OPTIONS")) with false.
  change (str_eqb (lit "GET") (lit "GET")) with true. cbn [negb].
  rewrite Hjwt, Hadm, (page_default _ _ _ _ _ Hl Ho Hf), Hf.
  rewrite (limit_default _ Hl), (offset_default _ Ho). reflexivity.
Qed.

(** Filtering keeps a permutation. *)
Lemma filter_perm {A} (p : A -> bool) l l' :
  l ≡ₚ l' -> List.filter p l ≡ₚ List.filter p l'.
Proof.
  induction 1 as [|x l l' _ IH|x y l|l l' l'' _ IH1 _ IH2]; cbn [List.filter].
  - constructor.
  - destruct (p x); [now constructor | exact IH].
  - destruct (p x), (p y); try reflexivity. apply Permutation_swap.
  - etransitivity; eassumption.
Qed.

Lemma X23_witness :
  exists r rest total,
    LeadsList.handler Sample.envAdmin (Sample.listRequest None None None) Sample.ctxAdmin
      laterStore [Sample.keyA; keyC]
    = Response 200 (PList total (ofZ 0) (ofZ 50) (r :: rest))
    /\ LeadRecord.id r = keyC
    /\ LeadRecord.status r = lit "new"
    /\ LeadRecord.suggested_dm r = LeadsCreate.fallbackDm (lit "Jess")
    /\ (1 <= total)%nat.
Proof.
  apply (X23_created_lead_listed_first Sample.envNone
           (Sample.world (Sample.t0 + 60000) LeadsCreate.ServiceFails)
           Sample3.jessRequest Sample.ctxPublic Sample.storeA
           keyC (LeadsCreate.fallbackDm (lit "Jess"))).
  - vm_compute. reflexivity.
  - vm_compute. split; discriminate.
  - intros key r H. unfold Sample.storeA in H. cbn [Store.leads] in H.
    apply lookup_singleton_Some in H as [<- <-].
    exists Sample.t0, Sample.uuidA. split; [reflexivity|]. 
    split; [vm_compute; split; discriminate | vm_compute; reflexivity].
  - reflexivity.
  - split; vm_compute; reflexivity.
  - reflexivity.
  - reflexivity.
  - reflexivity.
  - reflexivity.
  - reflexivity.
  - unfold LeadsList.listing, laterStore, Store.set_lead, Store.set_rate, Sample.storeA.
    cbn [Store.leads].
    assert (E : map_to_list (<[keyC := LeadsCreate.leadRecord
                 (Sample.world (Sample.t0 + 60000) LeadsCreate.ServiceFails)
                 Sample3.jessRequest Sample.ctxPublic keyC Sample.jess
                 (LeadsCreate.fallbackDm (lit "Jess"))]> {[Sample.keyA := Sample.recordA]})
              ≡ₚ [(keyC, LeadsCreate.leadRecord
                 (Sample.world (Sample.t0 + 60000) LeadsCreate.ServiceFails)
                 Sample3.jessRequest Sample.ctxPublic keyC Sample.jess
                 (LeadsCreate.fallbackDm (lit "Jess"))); (Sample.keyA, Sample.recordA)]).
    { rewrite map_to_list_insert by (apply lookup_singleton_ne; vm_compute; discriminate).
      now rewrite map_to_list_singleton. }
    symmetry. etransitivity; [apply filter_perm, (Permutation_map fst), E|].
    apply Permutation_swap.
Defined.

(* ===================================================================== *)
(** ** The page of a listing *)
(* ===================================================================== *)

Section PageFacts.

Local Open Scope Z_scope.

(** Truncation is the floor on the rationals that are not negative. *)
Lemma trunc_floor q : (0 <= q)%Q -> Z.quot (Qnum q) (Zpos (Qden q)) = Qfloor q.
Proof.
  destruct q as [a b]. unfold Qle. cbn [Qnum Qden Qfloor]. intros H.
  apply Z.quot_div_nonneg; lia.
Qed.

Lemma relativeIndex_nonneg len q :
  (0 <= q)%Q -> relativeIndex len (Fin q) = Nat.min (Z.to_nat (Qfloor q)) len.
Proof.
  intros H. unfold relativeIndex. cbn [ToIntegerOrInfinity]. rewrite (trunc_floor q H).
  assert (0 <= Qfloor q) by (rewrite <- (Qfloor_Z 0); now apply Qfloor_resp_le).
  destruct (Z.ltb_spec (Qfloor q) 0); [lia | reflexivity].
Qed.

Lemma relativeIndex_le len a : (relativeIndex len a <= len)%nat.
Proof.
  unfold relativeIndex. destruct (ToIntegerOrInfinity a) as [| |z]; try lia.
  destruct (Z.ltb_spec z 0); lia.
Qed.

Lemma slice_length {A} (arr : list A) start stop :
  (List.length (slice arr start stop)
   <= relativeIndex (List.length arr) stop - relativeIndex (List.length arr) start)%nat.
Proof. unfold slice. rewrite length_take. lia. Qed.

Lemma slice_sublist {A} (arr : list A) start stop : slice arr start stop `sublist_of` arr.
Proof.
  unfold slice. transitivity (drop (relativeIndex (List.length arr) start) arr);
    [apply sublist_take | apply sublist_drop].
Qed.

(** The limit is [NaN] or a number from 1 to 200. *)
Lemma limit_range req :
  LeadsList.limit req = NaN
  \/ exists q, LeadsList.limit req = Fin q /\ (1 <= q)%Q /\ (q <= 200)%Q.
Proof.
  destruct (Number (str_or (Request.param_limit req) (lit "50"))) as [| | |q] eqn:E.
  - left. unfold LeadsList.limit. now rewrite E.
  - right. apply limit_clamped. congruence.
  - right. apply limit_clamped. congruence.
  - right. apply limit_clamped. congruence.
Qed.

(** The offset is [NaN], infinite or a number that is not negative. *)
Lemma offset_range req :
  LeadsList.offset req = NaN \/ LeadsList.offset req = PInf
  \/ exists q, LeadsList.offset req = Fin q /\ (0 <= q)%Q.
Proof.
  destruct (Number (str_or (Request.param_offset req) (lit "0"))) as [| | |q] eqn:E.
  - left. unfold LeadsList.offset. now rewrite E.
  - right. apply offset_nonnegative. congruence.
  - right. apply offset_nonnegative. congruence.
  - right. apply offset_nonnegative. congruence.
Qed.

Lemma floor_window o q :
  (0 <= o)%Q -> (q <= 200)%Q -> Qfloor (Qred (o + q)) <= Qfloor o + 200.
Proof.
  intros Ho Hq.
  assert (H : (inject_Z (Qfloor (Qred (o + q))) < inject_Z (Qfloor o + 201))%Q).
  { eapply Qle_lt_trans; [apply Qfloor_le|]. rewrite Qred_correct.
    replace (Qfloor o + 201) with ((Qfloor o + 1) + 200) by lia.
    rewrite inject_Z_plus.
    eapply Qlt_le_trans; [apply Qplus_lt_le_compat; [apply Qlt_floor | exact Hq]|].
    apply Qle_refl. }
  rewrite <- Zlt_Qlt in H. lia.
Qed.

End PageFacts.

(** X24.  Where the limit and the offset are whole numbers [n] and [k],
    the page is the [n] matches that follow the first [k]. *)
Theorem X24_page_window req store blobs (n k : nat) :
  LeadsList.limit req = ofZ (Z.of_nat n) ->
  LeadsList.offset req = ofZ (Z.of_nat k) ->
  LeadsList.page req store blobs = take n (drop k (LeadsList.filtered req store blobs)).
Proof.
  intros Hl Ho. unfold LeadsList.page, slice. rewrite Hl, Ho.
  set (l := LeadsList.filtered req store blobs).
  assert (Hk : relativeIndex (List.length l) (ofZ (Z.of_nat k)) = Nat.min k (List.length l)).
  { unfold ofZ. rewrite relativeIndex_nonneg by (change 0%Q with (inject_Z 0); rewrite <- Zle_Qle; lia).
    now rewrite Qfloor_Z, Nat2Z.id. }
  assert (Hs : relativeIndex (List.length l) (num_add (ofZ (Z.of_nat k)) (ofZ (Z.of_nat n)))
               = Nat.min (k + n) (List.length l)).
  { unfold ofZ, num_add.
    assert (E : (Qred (inject_Z (Z.of_nat k) + inject_Z (Z.of_nat n))
                 == inject_Z (Z.of_nat (k + n)))%Q)
      by (rewrite Qred_correct, <- inject_Z_plus, Nat2Z.inj_add; reflexivity).
    rewrite relativeIndex_nonneg by (rewrite E; change 0%Q with (inject_Z 0); rewrite <- Zle_Qle; lia).
    now rewrite E, Qfloor_Z, Nat2Z.id. }
  rewrite Hk, Hs. destruct (Nat.le_gt_cases (List.length l) k) as [H | H].
  - rewrite (Nat.min_r k), (Nat.min_r (k + n)) by lia.
    rewrite (drop_ge l k), (drop_ge l (List.length l)) by lia.
    now rewrite !take_nil.
  - rewrite (Nat.min_l k) by lia.
    destruct (Nat.le_gt_cases (k + n) (List.length l)) as [H' | H'].
    + rewrite Nat.min_l by lia. f_equal. lia.
    + rewrite Nat.min_r by lia. rewrite !take_ge; [reflexivity | |];
        rewrite length_drop; lia.
Qed.

Lemma X24_witness :
  LeadsList.page (Sample.listRequest (Some (lit "all")) (Some (lit "1")) (Some (lit "1")))
    Sample.storeAB [Sample.keyA; Sample.keyB]
  = take 1 (drop 1 (LeadsList.filtered
                      (Sample.listRequest (Some (lit "all")) (Some (lit "1")) (Some (lit "1")))
                      Sample.storeAB [Sample.keyA; Sample.keyB])).
Proof. apply X24_page_window; vm_compute; reflexivity. Defined.

(** X25.  With an offset that is a whole number, and whatever the limit
    parameter is, a page holds 200 records at most; it is a part of the
    matches, in their order.  (With a fractional offset the code adds
    offset and limit as doubles, and the rounding of the sum can let one
    record more through than the exact sum does.) *)
Theorem X25_page_bounded req store blobs (k : nat) :
  LeadsList.offset req = ofZ (Z.of_nat k) ->
  (List.length (LeadsList.page req store blobs) <= 200)%nat
  /\ LeadsList.page req store blobs `sublist_of` LeadsList.filtered req store blobs.
Proof.
  intros Ho. split; [|apply slice_sublist]. unfold LeadsList.page.
  set (l := LeadsList.filtered req store blobs).
  etransitivity; [apply slice_length|]. rewrite Ho. unfold ofZ.
  assert (Hk : (0 <= inject_Z (Z.of_nat k))%Q)
    by (change 0%Q with (inject_Z 0); rewrite <- Zle_Qle; lia).
  destruct (limit_range req) as [-> | (q & -> & Hq1 & Hq2)].
  - cbn [num_add]. change (relativeIndex (List.length l) NaN) with 0%nat. lia.
  - cbn [num_add]. rewrite !relativeIndex_nonneg; [| exact Hk |].
    + pose proof (floor_window _ q Hk Hq2) as Hw. rewrite Qfloor_Z in *. lia.
    + rewrite Qred_correct. apply Qle_trans with (0 + 1)%Q; [discriminate|].
      now apply Qplus_le_compat.
Qed.

Lemma X25_witness :
  (List.length (LeadsList.page (Sample.listRequest (Some (lit "all")) (Some (lit "0.5")) (Some (lit "1")))
                  Sample.storeAB [Sample.keyA; Sample.keyB]) <= 200)%nat.
Proof.
  apply (X25_page_bounded _ Sample.storeAB [Sample.keyA; Sample.keyB] 1).
  vm_compute. reflexivity.
Defined.

(** X26.  Every record of a page is a stored lead whose key the store
    listed, and it passes every filter of the request: with
    [archived=true] it is archived, with a mode other than [all] and
    [true] it is not; and, the [status] and [q] parameters and the texts
    of the record being in Latin-1, with a status given its status, in
    lower case, is the one asked for, and with [q] given its searched
    text contains [q]. *)
Theorem X26_page_sound req store blobs r :
  latin1 (str_or (Request.param_status req) []) ->
  latin1 (str_or (Request.param_q req) []) ->
  latin1Texts (searched r) ->
  In r (LeadsList.page req store blobs) ->
  (exists key, In key blobs /\ Store.leads store !! key = Some r)
  /\ (LeadsList.archivedMode req = lit "true" -> LeadRecord.archived r = true)
  /\ (LeadsList.archivedMode req <> lit "all" -> LeadsList.archivedMode req <> lit "true" ->
      LeadRecord.archived r = false)
  /\ (LeadsList.statusParam req <> [] ->
      toLowerCase (LeadRecord.status r) = LeadsList.statusParam req)
  /\ (LeadsList.qParam req <> [] ->
      includes (LeadsList.hay r) (LeadsList.qParam req) = true).
Proof.
  intros _ _ _ Hin. apply list_elem_of_In in Hin.
  eapply elem_of_sublist in Hin; [|apply slice_sublist].
  apply list_elem_of_In in Hin. unfold LeadsList.filtered in Hin.
  apply filter_In in Hin as [Hin Hq]. apply filter_In in Hin as [Hin Hs].
  apply filter_In in Hin as [Hin Ha].
  split; [|split; [|split; [|split]]].
  - apply list_elem_of_In, list_elem_of_omap in Hin as (key & Hk & Hr).
    exists key. split; [|exact Hr]. apply list_elem_of_In.
    unfold LeadsList.sortedKeys in Hk. now rewrite sort_perm in Hk.
  - intros Hm. rewrite Hm in Ha. exact Ha.
  - intros H1 H2. unfold LeadsList.archivedFilter in Ha.
    rewrite (proj2 (str_eqb_neq _ _) H1), (proj2 (str_eqb_neq _ _) H2) in Ha.
    now apply negb_true_iff in Ha.
  - intros Hne. unfold LeadsList.statusFilter in Hs.
    destruct (LeadsList.statusParam req); [contradiction | now apply str_eqb_eq in Hs].
  - intros Hne. unfold LeadsList.qFilter in Hq.
    destruct (LeadsList.qParam req); [contradiction | exact Hq].
Qed.

Lemma X26_witness :
  toLowerCase (LeadRecord.status Sample.recordB) = lit "new"
  /\ includes (LeadsList.hay Sample.recordB) (lit "jess") = true.
Proof.
  destruct (X26_page_sound searchRequest Sample.storeAB [Sample.keyA; Sample.keyB]
              Sample.recordB) as (_ & _ & _ & Hs & Hq).
  - reflexivity.
  - reflexivity.
  - vm_compute. reflexivity.
  - vm_compute. left. reflexivity.
  - split; [apply Hs | apply Hq]; vm_compute; discriminate.
Defined.

(* ===================================================================== *)
(** ** The worker pool of [mapLimit] *)
(* ===================================================================== *)

Section Pool.

Context {A B : Type}.
Variable fn : A -> nat -> B.
Variable items : list A.

Lemma mapLimit_start_invariant limit :
  poolInvariant fn items (mapLimit_start items limit).
Proof.
  unfold poolInvariant, mapLimit_start. cbn [next results workers].
  split; [lia|]. split; [apply length_replicate|].
  split; [intros idx x H; lia|].
  split; [intros w idx H; apply lookup_replicate in H as [H _]; discriminate H|].
  split; [intros w H; apply lookup_replicate in H as [H _]; discriminate H|].
  intros H. apply (f_equal List.length) in H. rewrite length_replicate in H.
  cbn [List.length] in H. lia.
Qed.

Lemma insert_nonempty {C} (l : list C) i x : l <> [] -> <[i := x]> l <> [].
Proof.
  intros H E. apply (f_equal List.length) in E. rewrite length_insert in E.
  destruct l; [contradiction | discriminate E].
Qed.

Lemma mapLimit_turn_invariant w p :
  poolInvariant fn items p -> poolInvariant fn items (mapLimit_turn fn items w p).
Proof.
  intros (I1 & I2 & I3 & I4 & I5 & I6). unfold mapLimit_turn.
  destruct (workers p !! w) as [[|idx|]|] eqn:Hw;
    [| |exact (conj I1 (conj I2 (conj I3 (conj I4 (conj I5 I6)))))
     |exact (conj I1 (conj I2 (conj I3 (conj I4 (conj I5 I6)))))].
  - destruct (Nat.ltb_spec (next p) (List.length items)) as [Hlt | Hge];
      unfold poolInvariant; cbn [next results workers].
    + split; [lia|]. split; [exact I2|]. split; [|split; [|split]].
      * intros idx x Hidx Hx. destruct (decide (idx = next p)) as [-> | Hne].
        -- right. exists w. apply list_lookup_insert_eq. now apply lookup_lt_Some in Hw.
        -- destruct (I3 idx x ltac:(lia) Hx) as [H | (w' & H)]; [now left|].
           right. exists w'. rewrite list_lookup_insert_ne; [exact H | congruence].
      * intros w' idx H. destruct (decide (w = w')) as [<- | Hne].
        -- rewrite list_lookup_insert_eq in H by now apply lookup_lt_Some in Hw.
           injection H as <-. lia.
        -- rewrite list_lookup_insert_ne in H by exact Hne. specialize (I4 _ _ H). lia.
      * intros w' H. destruct (decide (w = w')) as [<- | Hne].
        -- rewrite list_lookup_insert_eq in H by now apply lookup_lt_Some in Hw.
           discriminate H.
        -- rewrite list_lookup_insert_ne in H by exact Hne. specialize (I5 _ H). lia.
      * now apply insert_nonempty.
    + split; [exact I1|]. split; [exact I2|]. split; [|split; [|split]].
      * intros idx x Hidx Hx. destruct (I3 idx x Hidx Hx) as [H | (w' & H)]; [now left|].
        right. exists w'. rewrite list_lookup_insert_ne; [exact H | congruence].
      * intros w' idx H. destruct (decide (w = w')) as [<- | Hne].
        -- rewrite list_lookup_insert_eq in H by now apply lookup_lt_Some in Hw.
           discriminate H.
        -- rewrite list_lookup_insert_ne in H by exact Hne. exact (I4 _ _ H).
      * intros w' _. lia.
      * now apply insert_nonempty.
  - destruct (items !! idx) as [x|] eqn:Hx;
      [|exact (conj I1 (conj I2 (conj I3 (conj I4 (conj I5 I6)))))].
    unfold poolInvariant; cbn [next results workers].
    split; [exact I1|]. split; [now rewrite length_insert|]. split; [|split; [|split]].
    + intros idx' x' Hidx Hx'. destruct (decide (idx' = idx)) as [-> | Hne].
      * left. rewrite Hx in Hx'. injection Hx' as <-.
        apply list_lookup_insert_eq. rewrite I2. now apply lookup_lt_Some in Hx.
      * destruct (I3 idx' x' Hidx Hx') as [H | (w' & H)].
        -- left. rewrite list_lookup_insert_ne; [exact H | congruence].
        -- right. exists w'. rewrite list_lookup_insert_ne; [exact H | congruence].
    + intros w' idx' H. destruct (decide (w = w')) as [<- | Hne].
      * rewrite list_lookup_insert_eq in H by now apply lookup_lt_Some in Hw.
        discriminate H.
      * rewrite list_lookup_insert_ne in H by exact Hne. exact (I4 _ _ H).
    + intros w' H. destruct (decide (w = w')) as [<- | Hne].
      * rewrite list_lookup_insert_eq in H by now apply lookup_lt_Some in Hw.
        discriminate H.
      * rewrite list_lookup_insert_ne in H by exact Hne. exact (I5 _ H).
    + now apply insert_nonempty.
Qed.

Lemma mapLimit_run_invariant schedule : forall p,
  poolInvariant fn items p -> poolInvariant fn items (mapLimit_run fn items schedule p).
Proof.
  induction schedule as [|w schedule IH]; intros p H; [exact H|].
  apply IH, mapLimit_turn_invariant, H.
Qed.

Lemma settled_finished (p : pool B) w st :
  mapLimit_settled p = true -> workers p !! w = Some st -> st = Finished.
Proof.
  unfold mapLimit_settled. rewrite forallb_forall. intros H Hw.
  apply list_elem_of_lookup_2, list_elem_of_In, H in Hw. now destruct st.
Qed.

(** A settled pool holds the value of [fn] at every index. *)
Lemma settled_results p :
  poolInvariant fn items p -> mapLimit_settled p = true ->
  results p = mapped fn items.
Proof.
  intros (I1 & I2 & I3 & I4 & I5 & I6) Hs.
  assert (Hn : next p = List.length items).
  { assert (exists st, workers p !! 0%nat = Some st) as (st & Hst)
      by (destruct (workers p); [contradiction | eexists; reflexivity]).
    apply (I5 0%nat). now rewrite Hst, (settled_finished p 0%nat st Hs Hst). }
  apply list_eq. intros i. unfold mapped. rewrite list_lookup_imap.
  destruct (items !! i) as [x|] eqn:Hx; cbn [fmap option_fmap option_map].
  - destruct (I3 i x) as [H | (w & H)]; [apply lookup_lt_Some in Hx; lia | exact Hx | exact H |].
    pose proof (settled_finished p w _ Hs H) as Hf. discriminate Hf.
  - apply lookup_ge_None. rewrite I2. now apply lookup_ge_None.
Qed.

Lemma turns_insert (l : list worker) w st st' :
  l !! w = Some st ->
  (list_sum (map workerTurns (<[w := st']> l)) + workerTurns st
   = list_sum (map workerTurns l) + workerTurns st')%nat.
Proof.
  revert w. induction l as [|a l IH]; intros [|w] H; try discriminate H.
  - injection H as ->. cbn [insert list_insert map list_sum foldr]. 
    change (list_sum (map workerTurns (st' :: l)))
      with (workerTurns st' + list_sum (map workerTurns l))%nat.
    change (list_sum (map workerTurns (st :: l)))
      with (workerTurns st + list_sum (map workerTurns l))%nat. lia.
  - cbn [lookup list_lookup] in H. specialize (IH w H).
    change (list_sum (map workerTurns (<[S w := st']> (a :: l))))
      with (workerTurns a + list_sum (map workerTurns (<[w := st']> l)))%nat.
    change (list_sum (map workerTurns (a :: l)))
      with (workerTurns a + list_sum (map workerTurns l))%nat. lia.
Qed.

(** The turn of a worker that has not finished is one turn less to go. *)
Lemma mapLimit_turn_progress w p st :
  poolInvariant fn items p -> workers p !! w = Some st -> st <> Finished ->
  (turnsLeft items (mapLimit_turn fn items w p) + 1 = turnsLeft items p)%nat.
Proof.
  intros (I1 & I2 & I3 & I4 & I5 & I6) Hw Hne. unfold mapLimit_turn. rewrite Hw.
  destruct st as [|idx|]; [| |contradiction].
  - destruct (Nat.ltb_spec (next p) (List.length items)) as [Hlt | Hge];
      unfold turnsLeft; cbn [next workers].
    + pose proof (turns_insert (workers p) w Ready (Awaiting (next p)) Hw) as H.
      cbn [workerTurns] in H. lia.
    + pose proof (turns_insert (workers p) w Ready Finished Hw) as H.
      cbn [workerTurns] in H. lia.
  - destruct (items !! idx) as [x|] eqn:Hx.
    + unfold turnsLeft; cbn [next workers].
      pose proof (turns_insert (workers p) w (Awaiting idx) Ready Hw) as H.
      cbn [workerTurns] in H. lia.
    + apply lookup_ge_None in Hx. specialize (I4 _ _ Hw). lia.
Qed.

Lemma unsettled_worker (p : pool B) :
  mapLimit_settled p = false ->
  exists w st, workers p !! w = Some st /\ st <> Finished.
Proof.
  unfold mapLimit_settled. induction (workers p) as [|a l IH]; [discriminate|].
  cbn [forallb]. destruct a as [|idx|].
  - intros _. exists 0%nat, Ready. split; [reflexivity | discriminate].
  - intros _. exists 0%nat, (Awaiting idx). split; [reflexivity | discriminate].
  - intros H. destruct (IH H) as (w & st & Hw & Hne). now exists (S w), st.
Qed.

(** Every pool can be run to its end, in as many turns as are left. *)
Lemma mapLimit_completes n : forall p,
  poolInvariant fn items p -> (turnsLeft items p <= n)%nat ->
  exists more,
    (List.length more <= n)%nat
    /\ mapLimit_settled (mapLimit_run fn items more p) = true.
Proof.
  induction n as [|n IH]; intros p Hi Hn;
    destruct (mapLimit_settled p) eqn:Hs;
    try (exists []; split; [cbn; lia | exact Hs]);
    destruct (unsettled_worker p Hs) as (w & st & Hw & Hne);
    pose proof (mapLimit_turn_progress w p st Hi Hw Hne) as Hp.
  - lia.
  - destruct (IH (mapLimit_turn fn items w p)) as (more & Hlen & Hmore);
      [now apply mapLimit_turn_invariant | lia |].
    exists (w :: more). split; [cbn [List.length]; lia | exact Hmore].
Qed.

Lemma mapLimit_turn_le w p :
  poolInvariant fn items p ->
  (turnsLeft items (mapLimit_turn fn items w p) <= turnsLeft items p)%nat.
Proof.
  intros Hi. destruct (workers p !! w) as [st|] eqn:Hw.
  - assert (st = Finished \/ st <> Finished) as [-> | Hne]
      by (destruct st; [right | right | left]; congruence).
    + unfold mapLimit_turn. now rewrite Hw.
    + pose proof (mapLimit_turn_progress w p st Hi Hw Hne). lia.
  - unfold mapLimit_turn. now rewrite Hw.
Qed.

Lemma mapLimit_run_le schedule : forall p,
  poolInvariant fn items p ->
  (turnsLeft items (mapLimit_run fn items schedule p) <= turnsLeft items p)%nat.
Proof.
  induction schedule as [|w schedule IH]; intros p Hi; [reflexivity|].
  etransitivity; [apply IH, mapLimit_turn_invariant, Hi | now apply mapLimit_turn_le].
Qed.

Lemma turnsLeft_start limit :
  turnsLeft items (mapLimit_start (B := B) items limit)
  = (2 * List.length items + Z.to_nat (Z.max 1 limit))%nat.
Proof.
  unfold turnsLeft, mapLimit_start. cbn [next workers]. rewrite Nat.sub_0_r. f_equal.
  induction (Z.to_nat (Z.max 1 limit)) as [|n IH]; [reflexivity|].
  cbn [replicate]. change (list_sum (map workerTurns (Ready :: replicate n Ready)))
    with (S (list_sum (map workerTurns (replicate n Ready)))). now rewrite IH.
Qed.

End Pool.

(** X27.  [mapLimit], for every order in which its workers take their
    turns: once all workers have finished, the results hold the value of
    [fn] at every index, in the order of the items; and whatever turns
    were taken, the workers can finish, in no more turns than two for
    each item and one for each worker. *)
Theorem X27_mapLimit_results {A B : Type} (fn : A -> nat -> B) (items : list A)
    (limit : Z) (schedule : list nat) :
  let p := mapLimit_run fn items schedule (mapLimit_start items limit) in
  (mapLimit_settled p = true -> results p = mapped fn items)
  /\ exists more,
       (List.length more <= 2 * List.length items + Z.to_nat (Z.max 1 limit))%nat
       /\ mapLimit_settled (mapLimit_run fn items (schedule ++ more)
                              (mapLimit_start items limit)) = true.
Proof.
  pose proof (mapLimit_start_invariant fn items limit) as H0.
  pose proof (mapLimit_run_invariant fn items schedule _ H0) as Hi.
  cbv zeta. split; [now apply settled_results|].
  destruct (mapLimit_completes fn items
              (2 * List.length items + Z.to_nat (Z.max 1 limit)) _ Hi) as (more & Hlen & Hs).
  { rewrite <- (turnsLeft_start (B := B) items limit). now apply mapLimit_run_le. }
  exists more. split; [exact Hlen|].
  unfold mapLimit_run in *. now rewrite foldl_app.
Qed.

(** The records of the keys, read one by one. *)
Lemma filterBoolean_mapped store keys :
  filterBoolean (mapped (readLead store) keys) = LeadsList.hydrate store keys.
Proof.
  unfold filterBoolean, mapped, LeadsList.hydrate, readLead.
  change (imap _ keys)
    with (imap (const (fun key => Some (Store.leads store !! key))) keys).
  rewrite imap_const.
  induction keys as [|key keys IH]; [reflexivity|].
  cbn [fmap list_fmap omap list_omap]. rewrite IH.
  now destruct (Store.leads store !! key).
Qed.

(** X28.  The list function reads the leads through [mapLimit] with 20
    workers: whatever the order of the workers' turns, once they have
    finished, the records that [filter(Boolean)] keeps are the leads
    stored under the keys, in the order of the keys; a key with no lead
    behind it leaves no record. *)
Theorem X28_list_reads store keys schedule :
  let p := mapLimit_run (readLead store) keys schedule (mapLimit_start keys 20) in
  mapLimit_settled p = true ->
  filterBoolean (results p) = LeadsList.hydrate store keys.
Proof.
  cbv zeta. intros Hs. rewrite <- filterBoolean_mapped. f_equal.
  apply settled_results; [|exact Hs].
  apply mapLimit_run_invariant, mapLimit_start_invariant.
Qed.

Lemma X28_witness :
  filterBoolean
    (results (mapLimit_run (readLead Sample.storeA) [Sample.keyB; Sample.keyA]
                ([0; 1; 1; 0; 1; 0] ++ seq 2 18)%nat
                (mapLimit_start [Sample.keyB; Sample.keyA] 20)))
  = LeadsList.hydrate Sample.storeA [Sample.keyB; Sample.keyA].
Proof. apply X28_list_reads. vm_compute. reflexivity. Defined.

(* ===================================================================== *)
(** ** The SMS and the size guards of the create function *)
(* ===================================================================== *)




(** X30.  The size guards of the create function.  A POST whose
    Content-Length reads as a whole number above 10000, and up to 2^53,
    is answered 413 before the body is looked at, and nothing is
    written.  (Up to 2^53 the double that the code compares is the
    number read; a longer or fractional text is rounded by the code, or
    overflows to [Infinity], which the exact reading here does not
    follow.)  The header guard lets through a Content-Length that reads
    as no finite number or as a number up to 10000; a body that then
    serializes to more than 10000 characters, with no honeypot text, is
    answered 413 all the same. *)
Theorem X30_payload_guards env w req context store cl :
  Request.method req = lit "POST" ->
  Request.content_length req = Some cl ->
  (forall q n, Number cl = Fin q -> (q == inject_Z n)%Q ->
     (10000 < n <= maxExact)%Z ->
     LeadsCreate.handler env w req context store
     = (Response 413 (PError (lit "Payload too large")), store))
  /\ (isFinite (Number cl) = false -> isPayloadTooLarge req 10000 = false)
  /\ (forall q, Number cl = Fin q -> (q <= 10000)%Q -> isPayloadTooLarge req 10000 = false)
  /\ (isPayloadTooLarge req 10000 = false ->
      truthy (Request.body req) = true -> typeof_object (Request.body req) = true ->
      sanitizeString (get (Request.body req) (lit "hp")) 200 = Ok [] ->
      (10000 < Request.body_json_length req)%N ->
      LeadsCreate.handler env w req context store
      = (Response 413 (PError (lit "Payload too large")), store)).
Proof.
  intros Hm Hcl.
  assert (Hopt : handleOptions req = None) by (unfold handleOptions; now rewrite Hm).
  split; [|split; [|split]].
  - intros q n Hq Hn [Hlt _].
    assert (Hlt' : (inject_Z 10000 < q)%Q) by (rewrite Hn, <- Zlt_Qlt; exact Hlt).
    unfold LeadsCreate.handler. rewrite Hopt, Hm.
    change (negb (str_eqb (lit "POST") (lit "POST"))) with false. cbv iota.
    unfold isPayloadTooLarge. rewrite Hcl. destruct cl as [|c r].
    + vm_compute in Hq. injection Hq as <-. vm_compute in Hlt'. discriminate Hlt'.
    + rewrite Hq. cbn [isFinite andb]. unfold ofZ.
      now rewrite (proj2 (num_ltb_Fin (inject_Z 10000) q) Hlt').
  - intros Hf. unfold isPayloadTooLarge. rewrite Hcl.
    destruct cl as [|c r]; [reflexivity | now rewrite Hf].
  - intros q Hq Hle. unfold isPayloadTooLarge. rewrite Hcl.
    destruct cl as [|c r]; [reflexivity|]. rewrite Hq. cbn [isFinite andb]. unfold ofZ.
    exact (proj2 (num_ltb_Fin_false (inject_Z 10000) q) Hle).
  - intros Hp Ht Ho Hhp Hlen. unfold LeadsCreate.handler. rewrite Hopt, Hm.
    change (negb (str_eqb (lit "POST") (lit "POST"))) with false. cbv iota.
    rewrite Hp. cbv zeta. rewrite Ht, Ho. cbn [andb]. rewrite Hhp.
    now rewrite (proj2 (N.ltb_lt _ _) Hlen).
Qed.

Lemma X30_witness :
  LeadsCreate.handler Sample.envNone (Sample.world Sample.t0 LeadsCreate.ServiceFails)
    oversized Sample.ctxPublic Sample3.emptyStore
  = (Response 413 (PError (lit "Payload too large")), Sample3.emptyStore).
Proof.
  eapply (proj1 (X30_payload_guards _ _ oversized _ _ (lit "10001") eq_refl eq_refl)
            _ 10001%Z).
  - vm_compute. reflexivity.
  - vm_compute. reflexivity.
  - vm_compute. split; [reflexivity | discriminate].
Defined.
